(** * The timed dispatch loop of [empty_statistics_client.cpp]

    A shallow embedding of [TestGrpcClient] (constructor and [SendCommand])
    from [polymetis/src/clients/empty_statistics_client.cpp], and the
    properties of its statistics that the specification states.

    Conventions of the model.
    - The collaborators (metadata file, protobuf parser, RPC server, clock,
      shared-memory producer) are inputs, gathered in a [World].
    - What the process does that is visible outside is a trace of [event]s:
      the RPC requests and the lines written to [std::cout].
    - [assert] is modelled as compiled in: a failing assertion ends the run.
    - Where C++ leaves the behaviour undefined (dereferencing the null
      pointer that [find] returns, indexing a vector out of range), the
      model stops the run with a [fatal] that names the place.
    - [int] values are [Z]. The loop counter runs over [0 .. num_requests-1]
      and [num_requests] is itself an [int], so [i++] never wraps.
    - The arithmetic on [float] is a parameter ([arith]); the program is
      the model at [binary32], IEEE 754 single precision with
      round-to-nearest-even, built on the Standard Library's [SpecFloat].
      [exact] is the same program over the rationals, used where a
      statement is about exact arithmetic. *)

From Stdlib Require Import ZArith QArith Qfield Lia Lqa Bool SpecFloat.
From stdpp Require Import base option list gmap strings.

Local Open Scope Z_scope.

(** * Arithmetic *)

(** The operations the program performs on [float] values. *)
Record arith : Type := {
  num :> Type;
  (** conversion of an [int] to [float] *)
  of_int : Z -> num;
  (** [+], [*], [/] on two [float]s *)
  add : num -> num -> num;
  mul : num -> num -> num;
  div : num -> num -> num;
  (** [a < b] and [a <= b] *)
  ltb : num -> num -> bool;
  leb : num -> num -> bool;
  (** [((float)count) / 1000000.0] stored into a [float]: the division is
      carried out in [double] and the quotient narrowed *)
  ms_of_ns : Z -> num
}.

Arguments of_int {_} _.
Arguments add {_} _ _.
Arguments mul {_} _ _.
Arguments div {_} _ _.
Arguments ltb {_} _ _.
Arguments leb {_} _ _.
Arguments ms_of_ns {_} _.

(** ** IEEE 754 single precision *)

Module F32.
Definition prec : Z := 24.
Definition emax : Z := 128.

Definition of_Z (n : Z) : spec_float := binary_normalize prec emax n 0 false.

Definition fadd : spec_float -> spec_float -> spec_float := SFadd prec emax.
Definition fmul : spec_float -> spec_float -> spec_float := SFmul prec emax.
Definition fdiv : spec_float -> spec_float -> spec_float := SFdiv prec emax.
End F32.

Module F64.
Definition prec : Z := 53.
Definition emax : Z := 1024.

Definition of_Z (n : Z) : spec_float := binary_normalize prec emax n 0 false.
Definition fdiv : spec_float -> spec_float -> spec_float := SFdiv prec emax.
End F64.

(** Conversion between formats: the value [m * 2^e] rounded to the
    target format. Widening [float] to [double] is exact. *)
Definition convert (prec emax : Z) (x : spec_float) : spec_float :=
  match x with
  | S754_finite s m e => binary_round prec emax s m e
  | _ => x
  end.

Definition widen : spec_float -> spec_float := convert F64.prec F64.emax.
Definition narrow : spec_float -> spec_float := convert F32.prec F32.emax.

Definition f32_ms_of_ns (count : Z) : spec_float :=
  narrow (F64.fdiv (widen (F32.of_Z count)) (F64.of_Z 1000000)).

Definition binary32 : arith := {|
  num := spec_float;
  of_int := F32.of_Z;
  add := F32.fadd;
  mul := F32.fmul;
  div := F32.fdiv;
  ltb := SFltb;
  leb := SFleb;
  ms_of_ns := f32_ms_of_ns
|}.

(** ** Exact rational arithmetic *)

Definition Qltb (x y : Q) : bool := negb (Qle_bool y x).

Definition exact : arith := {|
  num := Q;
  of_int := inject_Z;
  add := Qplus;
  mul := Qmult;
  div := Qdiv;
  ltb := Qltb;
  leb := Qle_bool;
  ms_of_ns := fun count => Qdiv (inject_Z count) (inject_Z 1000000)
|}.

(** * Collaborators and data *)

(** Modelled from the spec: [RobotClientMetadata] (declared in
    [polymetis.proto], which is not among the sources) is opaque serialized
    configuration loaded from a file. *)
Record RobotClientMetadata : Type := { metadata_bytes : string }.

(** Modelled from the spec: [ShmTimestamp] (declared in [polymetis/utils.h],
    which is not among the sources) is the timestamp field of the region. *)
Record ShmTimestamp : Type := { ts_seconds : Z; ts_nanos : Z }.

(** ** Data, over the type [T] of the [float] values *)

Section Data.
Variable T : Type.

(** Modelled from the spec: the request payload [RobotState] (declared in
    [polymetis.proto]) carries a timestamp and the four per-dof vectors. *)
Record RobotState : Type := {
  rs_timestamp : option ShmTimestamp;
  rs_joint_positions : list T;
  rs_joint_velocities : list T;
  rs_joint_torques_measured : list T;
  rs_joint_torques_external : list T
}.

(** The managed shared-memory segment: the named objects it holds, by
    type. [find<T>(name).first] is the lookup of [name] among the
    objects of type [T]; [None] is the null pointer. [ShmVectorFloat]
    (declared in [polymetis/utils.h], which is not among the sources) is
    a vector of [float], one entry per degree of freedom. *)
Record Segment : Type := {
  timestamps : gmap string ShmTimestamp;
  vectors : gmap string (list T)
}.

(** Everything the client receives from outside. *)
Record World : Type := {
  (** contents of the file at [robot_client_metadata_path]; [None] when
      the stream cannot be opened *)
  metadata_file : option string;
  (** [metadata.ParseFromString] *)
  ParseFromString : string -> option RobotClientMetadata;
  (** [status.ok()] of the [InitRobotClient] call *)
  InitRobotClient_ok : RobotClientMetadata -> bool;
  (** the region [RobotStateSharedMemory], [None] when it does not exist;
      the producer owns its contents, [seg i] is what iteration [i] sees *)
  shared_memory : option (Z -> Segment);
  (** [status.ok()] of the [ControlUpdate] call of iteration [i] *)
  ControlUpdate_ok : Z -> bool;
  (** [duration_cast<nanoseconds>(end - start).count()] of iteration [i] *)
  elapsed_ns : Z -> Z;
  (** the wall clock read by [setTimestampToNow] in iteration [i] *)
  now : Z -> ShmTimestamp
}.

(** What the process does that can be observed. *)
Inductive event : Type :=
| RpcInitRobotClient (metadata : RobotClientMetadata)
| RpcControlUpdate (state : RobotState)
| OutSendCommandFailed
| OutWarning (ms_taken : T)
| OutWindow (max_time_taken min_time_taken avg_time_taken : T)
| OutGlobal (global_max global_min global_avg : T).

(** The ways a run ends before the loop is over:
    - [AssertFile], [assert(file)] of line 56;
    - [AssertParse], [assert(metadata.ParseFromString(...))] of line 61;
    - [AssertInitStatus], [assert(status.ok())] of line 67;
    - [OpenSharedMemory], the exception of [managed_shared_memory(open_only,
      ...)] at line 70, which nothing catches;
    - [NullDeref name], [*find<T>(name).first] on a null pointer (lines
      133-142), undefined in the source;
    - [VectorIndex name], [v[i]] past the end of the vector [name],
      undefined in the source;
    - [EmptyRange], [*std::max_element(begin, end)] over an empty vector,
      undefined in the source;
    - [AssertSendCommand], [assert(SendCommand(num_dofs))] of line 76. *)
Inductive fatal : Type :=
| AssertFile
| AssertParse
| AssertInitStatus
| OpenSharedMemory
| NullDeref (name : string)
| VectorIndex (name : string)
| EmptyRange
| AssertSendCommand.

Inductive outcome : Type :=
| Finished
| Aborted (f : fatal).

(** The local copies [SendCommand] works on ([auto x = *p;] copies). *)
Record locals : Type := {
  timestamp : ShmTimestamp;
  joint_positions : list T;
  joint_velocities : list T;
  joint_torques_measured : list T;
  joint_torques_external : list T
}.

(** A triple [max], [min], [avg]: the three locals [max_time_taken],
    [min_time_taken], [avg_time_taken] of a window, or the three locals
    [global_max], [global_min], [global_avg]. *)
Record stats : Type := {
  max_time : T;
  min_time : T;
  avg_time : T
}.

(** The locals of the constructor that live across rounds. *)
Record loop_state : Type := {
  times_taken : list T;
  global : stats
}.

(** What a round of the loop comes to. *)
Inductive step : Type :=
| Continue (st : loop_state) (evs : list event)
| Stop (st : loop_state) (f : fatal) (evs : list event).

(** What a run comes to. *)
Record result : Type := {
  final : loop_state;
  trace : list event;
  exit : outcome
}.

(** ** A writer and error monad for the private method *)

Definition io (X : Type) : Type := list event * (fatal + X).

Definition ret {X} (x : X) : io X := ([], inr x).
Definition stop {X} (f : fatal) : io X := ([], inl f).
Definition emit (e : event) : io unit := ([e], inr tt).
Definition bind {X Y} (m : io X) (k : X -> io Y) : io Y :=
  match m with
  | (evs, inl f) => (evs, inl f)
  | (evs, inr x) => let '(evs', r) := k x in (evs ++ evs', r)
  end.

(** [*p] for the pointer [p] that [find] returned for [name]. *)
Definition deref {X} (name : string) (p : option X) : io X :=
  match p with
  | Some v => ret v
  | None => stop (NullDeref name)
  end.

(** [v[i] = x] on a vector; the index is not checked by the source. *)
Definition store (name : string) (v : list T) (i : Z) (x : T) : io (list T) :=
  if decide (0 <= i < Z.of_nat (length v))
  then ret (<[Z.to_nat i := x]> v)
  else stop (VectorIndex name).

End Data.

Arguments rs_timestamp {T} _.
Arguments rs_joint_positions {T} _.
Arguments rs_joint_velocities {T} _.
Arguments rs_joint_torques_measured {T} _.
Arguments rs_joint_torques_external {T} _.
Arguments timestamps {T} _.
Arguments vectors {T} _.
Arguments metadata_file {T} _.
Arguments ParseFromString {T} _ _.
Arguments InitRobotClient_ok {T} _ _.
Arguments shared_memory {T} _.
Arguments ControlUpdate_ok {T} _ _.
Arguments elapsed_ns {T} _ _.
Arguments now {T} _ _.
Arguments RpcInitRobotClient {T} _.
Arguments RpcControlUpdate {T} _.
Arguments OutSendCommandFailed {T}.
Arguments OutWarning {T} _.
Arguments OutWindow {T} _ _ _.
Arguments OutGlobal {T} _ _ _.
Arguments timestamp {T} _.
Arguments joint_positions {T} _.
Arguments joint_velocities {T} _.
Arguments joint_torques_measured {T} _.
Arguments joint_torques_external {T} _.
Arguments max_time {T} _.
Arguments min_time {T} _.
Arguments avg_time {T} _.
Arguments times_taken {T} _.
Arguments global {T} _.
Arguments Continue {T} _ _.
Arguments Stop {T} _ _ _.
Arguments final {T} _.
Arguments trace {T} _.
Arguments exit {T} _.
Arguments ret {T X} _.
Arguments stop {T X} _.
Arguments emit {T} _.
Arguments bind {T X Y} _ _.
Arguments deref {T X} _ _.
Arguments store {T} _ _ _ _.

Notation "'do' x <- m ; k" := (bind m (fun x => k))
  (at level 10, x pattern, m at level 100, k at level 200).

(** Modelled from the spec: [setTimestampToNow] (declared in
    [polymetis/utils.h], which is not among the sources) stamps the
    timestamp it is handed with the current wall-clock time. *)
Definition setTimestampToNow (wall_clock timestamp : ShmTimestamp) : ShmTimestamp :=
  wall_clock.

(** [RobotState dummy_state;] a default-constructed message. *)
Definition RobotState_default {T} : RobotState T :=
  {| rs_timestamp := None;
     rs_joint_positions := [];
     rs_joint_velocities := [];
     rs_joint_torques_measured := [];
     rs_joint_torques_external := [] |}.

(** ** Reading a trace *)

Definition window_reports {T} (tr : list (event T)) : list (stats T) :=
  omap (fun e => match e with
                 | OutWindow a b c => Some {| max_time := a; min_time := b; avg_time := c |}
                 | _ => None
                 end) tr.

Definition global_reports {T} (tr : list (event T)) : list (stats T) :=
  omap (fun e => match e with
                 | OutGlobal a b c => Some {| max_time := a; min_time := b; avg_time := c |}
                 | _ => None
                 end) tr.

Definition warnings {T} (tr : list (event T)) : list T :=
  omap (fun e => match e with OutWarning ms => Some ms | _ => None end) tr.

Definition control_updates {T} (tr : list (event T)) : list (RobotState T) :=
  omap (fun e => match e with RpcControlUpdate s => Some s | _ => None end) tr.

Definition is_request {T} (e : event T) : bool :=
  match e with
  | RpcInitRobotClient _ | RpcControlUpdate _ => true
  | _ => false
  end.

(** The requests that reach the RPC boundary, in order. *)
Definition requests {T} (tr : list (event T)) : list (event T) :=
  List.filter is_request tr.

(** ** Worlds and segments *)

(** The five named objects exist in the segment. *)
Definition fields_present {T} (seg : Segment T) : Prop :=
  is_Some (timestamps seg !! "shm_timestamp") /\
  is_Some (vectors seg !! "joint_positions") /\
  is_Some (vectors seg !! "joint_velocities") /\
  is_Some (vectors seg !! "joint_torques_measured") /\
  is_Some (vectors seg !! "joint_torques_external").

Definition has_vector {T} (seg : Segment T) (name : string) (num_dofs : Z) : Prop :=
  exists v, vectors seg !! name = Some v /\ num_dofs <= Z.of_nat (length v).

(** The five named objects exist and the vectors have an entry for each
    degree of freedom. *)
Definition fields_ok {T} (seg : Segment T) (num_dofs : Z) : Prop :=
  is_Some (timestamps seg !! "shm_timestamp") /\
  has_vector seg "joint_positions" num_dofs /\
  has_vector seg "joint_velocities" num_dofs /\
  has_vector seg "joint_torques_measured" num_dofs /\
  has_vector seg "joint_torques_external" num_dofs.

(** The region or one of its named fields is absent at startup. *)
Definition region_or_field_absent {T} (w : World T) : Prop :=
  match shared_memory w with
  | None => True
  | Some seg => ~ fields_present (seg 0)
  end.

Definition with_region {T} (w : World T) (seg : Z -> Segment T) : World T :=
  {| metadata_file := metadata_file w;
     ParseFromString := ParseFromString w;
     InitRobotClient_ok := InitRobotClient_ok w;
     shared_memory := Some seg;
     ControlUpdate_ok := ControlUpdate_ok w;
     elapsed_ns := elapsed_ns w;
     now := now w |}.

Definition with_elapsed {T} (w : World T) (ns : Z -> Z) : World T :=
  {| metadata_file := metadata_file w;
     ParseFromString := ParseFromString w;
     InitRobotClient_ok := InitRobotClient_ok w;
     shared_memory := shared_memory w;
     ControlUpdate_ok := ControlUpdate_ok w;
     elapsed_ns := ns;
     now := now w |}.

(** * The client *)

Section Client.
Variable A : arith.

(** [for (int i = 0; i < num_dofs; i++) { ... = 0.0; }] from index [i],
    with [fuel] rounds left. *)
Fixpoint zero_fill (fuel : nat) (i : Z) (l : locals A) : io A (locals A) :=
  match fuel with
  | O => ret l
  | S fuel' =>
      do jp <- store "joint_positions" (joint_positions l) i (of_int 0);
      do jv <- store "joint_velocities" (joint_velocities l) i (of_int 0);
      do jm <- store "joint_torques_measured" (joint_torques_measured l) i (of_int 0);
      do je <- store "joint_torques_external" (joint_torques_external l) i (of_int 0);
      zero_fill fuel' (i + 1)
        {| timestamp := timestamp l;
           joint_positions := jp;
           joint_velocities := jv;
           joint_torques_measured := jm;
           joint_torques_external := je |}
  end.

(** [bool SendCommand(int num_dofs)], called in iteration [i] on the
    segment contents [seg]. *)
Definition SendCommand (w : World A) (seg : Segment A) (num_dofs i : Z) : io A bool :=
  let dummy_state := RobotState_default in
  do ts <- deref "shm_timestamp" (timestamps seg !! "shm_timestamp");
  do jp <- deref "joint_positions" (vectors seg !! "joint_positions");
  do jv <- deref "joint_velocities" (vectors seg !! "joint_velocities");
  do jm <- deref "joint_torques_measured" (vectors seg !! "joint_torques_measured");
  do je <- deref "joint_torques_external" (vectors seg !! "joint_torques_external");
  let ts := setTimestampToNow (now w i) ts in
  do _ <- zero_fill (Z.to_nat num_dofs) 0
        {| timestamp := ts;
           joint_positions := jp;
           joint_velocities := jv;
           joint_torques_measured := jm;
           joint_torques_external := je |};
  do _ <- emit (RpcControlUpdate dummy_state);
  if ControlUpdate_ok w i
  then ret true
  else (do _ <- emit OutSendCommandFailed; ret false).

(** ** The statistics of the constructor's loop *)

(** Lines 46-52. *)
Definition initial_global : stats A :=
  {| max_time := of_int (-99999);
     min_time := of_int 99999;
     avg_time := of_int 0 |}.

Definition initial_state : loop_state A :=
  {| times_taken := []; global := initial_global |}.

(** [a > b] *)
Definition gtb (a b : A) : bool := ltb b a.

(** Lines 85-89: [push_back] while the slot does not exist yet, [at]
    afterwards (then the index is below the size, and [at] cannot
    throw). *)
Definition record (log_iters : Z) (tt : list A) (i : Z) (ms_taken : A) : list A :=
  if decide (Z.of_nat (length tt) <= Z.rem i log_iters)
  then tt ++ [ms_taken]
  else <[Z.to_nat (Z.rem i log_iters) := ms_taken]> tt.

(** [std::max_element] and [std::min_element] over the whole vector: the
    first largest, the first smallest, by [operator<]. *)
Fixpoint max_from (largest : A) (l : list A) : A :=
  match l with
  | [] => largest
  | x :: l' => max_from (if ltb largest x then x else largest) l'
  end.

Fixpoint min_from (smallest : A) (l : list A) : A :=
  match l with
  | [] => smallest
  | x :: l' => min_from (if ltb x smallest then x else smallest) l'
  end.

Definition max_element (l : list A) : option A :=
  match l with
  | [] => None
  | x :: l' => Some (max_from x l')
  end.

Definition min_element (l : list A) : option A :=
  match l with
  | [] => None
  | x :: l' => Some (min_from x l')
  end.

(** [for (int j = 0; j < log_iters; j++) sum += times_taken[j];] from
    index [j]; [None] when an index is past the end of the vector. *)
Fixpoint sum_loop (fuel : nat) (j : nat) (tt : list A) (sum : A) : option A :=
  match fuel with
  | O => Some sum
  | S fuel' =>
      match tt !! j with
      | Some x => sum_loop fuel' (S j) tt (add sum x)
      | None => None
      end
  end.

(** Lines 96-105: the statistics of the window. Dereferencing the end
    iterator of an empty vector and reading past the end are undefined
    in the source. *)
Definition window_stats (log_iters : Z) (tt : list A) : fatal + stats A :=
  match max_element tt, min_element tt with
  | Some max_time_taken, Some min_time_taken =>
      match sum_loop (Z.to_nat log_iters) 0 tt (of_int 0) with
      | Some sum =>
          inr {| max_time := max_time_taken;
                 min_time := min_time_taken;
                 avg_time := div sum (of_int log_iters) |}
      | None => inl (VectorIndex "times_taken")
      end
  | _, _ => inl EmptyRange
  end.

(** Lines 110-118: folding a window into the global statistics. *)
Definition combine (num_logs_so_far : Z) (g w : stats A) : stats A :=
  {| max_time := if gtb (max_time w) (max_time g) then max_time w else max_time g;
     min_time := if ltb (min_time w) (min_time g) then min_time w else min_time g;
     avg_time := div (add (mul (of_int (num_logs_so_far - 1)) (avg_time g))
                          (avg_time w))
                     (of_int num_logs_so_far) |}.

(** Lines 95-121, entered when [i > 0 && i % log_iters == 0]. *)
Definition close_window (log_iters i : Z) (st : loop_state A) : step A :=
  match window_stats log_iters (times_taken st) with
  | inr w =>
      let g := combine (Z.quot i log_iters) (global st) w in
      Continue {| times_taken := times_taken st; global := g |}
        [OutWindow (max_time w) (min_time w) (avg_time w);
         OutGlobal (max_time g) (min_time g) (avg_time g)]
  | inl f => Stop st f []
  end.

(** Lines 90-93: the warning monitor. The literal [1.0] is a [double]
    and [ms_taken] is widened for the comparison, which leaves the order
    as it is on [float]. *)
Definition warning_of (ms_taken : A) : list (event A) :=
  if gtb ms_taken (of_int 1) then [OutWarning ms_taken] else [].

(** Line 95: [i > 0 && i % log_iters == 0]. *)
Definition closes (log_iters i : Z) : bool :=
  (0 <? i) && (Z.rem i log_iters =? 0).

(** Lines 80-121: what iteration [i] does with its measurement. *)
Definition measure (log_iters i : Z) (st : loop_state A) (ms_taken : A) : step A :=
  let st1 :=
    {| times_taken := record log_iters (times_taken st) i ms_taken;
       global := global st |} in
  let warning := warning_of ms_taken in
  if closes log_iters i
  then match close_window log_iters i st1 with
       | Continue st2 evs => Continue st2 (warning ++ evs)
       | Stop st2 f evs => Stop st2 f (warning ++ evs)
       end
  else Continue st1 warning.

(** [ms_taken] of iteration [i]. *)
Definition sample (w : World A) (i : Z) : A := ms_of_ns (elapsed_ns w i).

(** One round of the [for] loop (lines 73-124). *)
Definition body (log_iters : Z) (w : World A) (seg : Z -> Segment A)
    (num_dofs i : Z) (st : loop_state A) : step A :=
  match SendCommand w (seg i) num_dofs i with
  | (evs, inl f) => Stop st f evs
  | (evs, inr false) => Stop st AssertSendCommand evs
  | (evs, inr true) =>
      match measure log_iters i st (sample w i) with
      | Continue st' evs' => Continue st' (evs ++ evs')
      | Stop st' f evs' => Stop st' f (evs ++ evs')
      end
  end.

(** [for (int i = ...; i < num_requests; i++)] with [rounds] rounds left. *)
Fixpoint loop (log_iters : Z) (w : World A) (seg : Z -> Segment A)
    (num_dofs : Z) (rounds : nat) (i : Z) (st : loop_state A) : result A :=
  match rounds with
  | O => {| final := st; trace := []; exit := Finished |}
  | S rounds' =>
      match body log_iters w seg num_dofs i st with
      | Continue st' evs =>
          let r := loop log_iters w seg num_dofs rounds' (i + 1) st' in
          {| final := final r; trace := evs ++ trace r; exit := exit r |}
      | Stop st' f evs =>
          {| final := st'; trace := evs; exit := Aborted f |}
      end
  end.

(** The constructor, with the window length as a parameter. *)
Definition TestGrpcClient_with (log_iters : Z) (w : World A)
    (num_dofs num_requests : Z) : result A :=
  let aborted f tr := {| final := initial_state; trace := tr; exit := Aborted f |} in
  match metadata_file w with
  | None => aborted AssertFile []
  | Some bytes =>
      match ParseFromString w bytes with
      | None => aborted AssertParse []
      | Some metadata =>
          if InitRobotClient_ok w metadata
          then match shared_memory w with
               | None => aborted OpenSharedMemory [RpcInitRobotClient metadata]
               | Some seg =>
                   let r := loop log_iters w seg num_dofs
                              (Z.to_nat num_requests) 0 initial_state in
                   {| final := final r;
                      trace := RpcInitRobotClient metadata :: trace r;
                      exit := exit r |}
               end
          else aborted AssertInitStatus [RpcInitRobotClient metadata]
      end
  end.

(** [int log_iters = 3000;] *)
Definition log_iters : Z := 3000.

Definition TestGrpcClient : World A -> Z -> Z -> result A :=
  TestGrpcClient_with log_iters.

(** ** Vocabulary of the statements *)

(** The states the loop passes through: [reach i st tr] when the loop
    arrives at the head of round [i] in state [st], having produced
    [tr] since it started. *)
Inductive reach (log_iters : Z) (w : World A) (seg : Z -> Segment A) (num_dofs : Z)
  : Z -> loop_state A -> list (event A) -> Prop :=
| reach_start : reach log_iters w seg num_dofs 0 initial_state []
| reach_step i st tr st' evs :
    reach log_iters w seg num_dofs i st tr ->
    body log_iters w seg num_dofs i st = Continue st' evs ->
    reach log_iters w seg num_dofs (i + 1) st' (tr ++ evs).

(** What the buffer holds at the head of round [i]: [min i log_iters]
    slots, slot [j] written by the last round before [i] that is
    congruent to [j]. *)
Definition buffer_inv (log_iters : Z) (smp : Z -> A) (i : Z) (tt : list A) : Prop :=
  length tt = Z.to_nat (Z.min i log_iters) /\
  forall j, 0 <= j < Z.min i log_iters ->
    tt !! Z.to_nat j = Some (smp (i - 1 - (i - 1 - j) mod log_iters)).

(** The samples the buffer holds when the window closes in round [i], in
    the order of the slots: slot 0 was just overwritten by round [i],
    slot [j] holds round [i - log_iters + j]. *)
Definition window_samples (log_iters : Z) (smp : Z -> A) (i : Z) : list A :=
  smp i :: map smp (seqZ (i - log_iters + 1) (log_iters - 1)).

(** The statistics of the source over those samples. *)
Definition window_summary (log_iters : Z) (smp : Z -> A) (i : Z) : stats A :=
  let rest := map smp (seqZ (i - log_iters + 1) (log_iters - 1)) in
  {| max_time := max_from (smp i) rest;
     min_time := min_from (smp i) rest;
     avg_time := div (foldl add (of_int 0) (smp i :: rest)) (of_int log_iters) |}.

(** The rounds before round [i] in which a window closed: the positive
    multiples of [log_iters] below [i]. *)
Definition closure_rounds (log_iters i : Z) : list Z :=
  map (fun k => k * log_iters) (seqZ 1 ((i - 1) / log_iters)).

(** The reports of round [i] when it runs to its end from the global
    statistics [g]. *)
Definition round_reports (log_iters : Z) (smp : Z -> A) (i : Z) (g : stats A)
  : list (event A) :=
  if closes log_iters i
  then let ws := window_summary log_iters smp i in
       let g' := combine (i / log_iters) g ws in
       [OutWindow (max_time ws) (min_time ws) (avg_time ws);
        OutGlobal (max_time g') (min_time g') (avg_time g')]
  else [].

(** The global statistics reported after each of the windows [ws], when
    the first of them is combine number [k] into [g]. *)
Fixpoint combine_all (k : Z) (g : stats A) (ws : list (stats A)) : list (stats A) :=
  match ws with
  | [] => []
  | w :: ws' =>
      let g' := combine k g w in
      g' :: combine_all (k + 1) g' ws'
  end.

(** What [SendCommand] alone decides: the events of the calls and the
    way the loop ends. *)
Fixpoint dispatch (w : World A) (seg : Z -> Segment A) (num_dofs : Z)
    (rounds : nat) (i : Z) : list (event A) * outcome :=
  match rounds with
  | O => ([], Finished)
  | S rounds' =>
      match SendCommand w (seg i) num_dofs i with
      | (evs, inl f) => (evs, Aborted f)
      | (evs, inr false) => (evs, Aborted AssertSendCommand)
      | (evs, inr true) =>
          let '(tr, o) := dispatch w seg num_dofs rounds' (i + 1) in
          (evs ++ tr, o)
      end
  end.

End Client.

Arguments zero_fill {A} _ _ _.
Arguments SendCommand {A} _ _ _ _.
Arguments initial_global {A}.
Arguments initial_state {A}.
Arguments gtb {A} _ _.
Arguments record {A} _ _ _ _.
Arguments max_from {A} _ _.
Arguments min_from {A} _ _.
Arguments max_element {A} _.
Arguments min_element {A} _.
Arguments sum_loop {A} _ _ _ _.
Arguments window_stats {A} _ _.
Arguments combine {A} _ _ _.
Arguments close_window {A} _ _ _.
Arguments warning_of {A} _.
Arguments measure {A} _ _ _ _.
Arguments sample {A} _ _.
Arguments body {A} _ _ _ _ _ _.
Arguments loop {A} _ _ _ _ _ _ _.
Arguments TestGrpcClient_with {A} _ _ _ _.
Arguments TestGrpcClient {A} _ _ _.
Arguments reach {A} _ _ _ _ _ _ _.
Arguments reach_start {A} _ _ _ _.
Arguments reach_step {A} _ _ _ _ _ _ _ _ _ _ _.
Arguments buffer_inv {A} _ _ _ _.
Arguments window_samples {A} _ _ _.
Arguments window_summary {A} _ _ _.
Arguments round_reports {A} _ _ _ _.
Arguments combine_all {A} _ _ _.
Arguments dispatch {A} _ _ _ _ _.

(** ** The order on the values *)

(** The laws of [<] and [<=] that the statistics rely on, on the values
    that [ok] singles out; every sample is one of them. *)
Record ordered (A : arith) (ok : A -> Prop) : Prop := {
  ltb_irrefl : forall x : A, ok x -> ltb x x = false;
  ltb_trans : forall x y z : A, ok x -> ok y -> ok z ->
    ltb x y = true -> ltb y z = true -> ltb x z = true;
  ltb_cotrans : forall x y z : A, ok x -> ok y -> ok z ->
    ltb x z = true -> ltb x y = true \/ ltb y z = true;
  leb_not_ltb : forall x y : A, ok x -> ok y -> leb x y = negb (ltb y x);
  ms_ok : forall count, ok (ms_of_ns count)
}.

(** On [float] the laws hold away from NaN. *)
Definition not_nan (x : spec_float) : Prop := x <> S754_nan.

(** [SFcompare] orders the values that are not NaN by sign class, then
    exponent, then mantissa; [rank] is that key. *)
Definition rank (x : spec_float) : Z * Z * Z :=
  match x with
  | S754_nan => (0, 0, 0)
  | S754_zero _ => (0, 0, 0)
  | S754_infinity s => (if s then -2 else 2, 0, 0)
  | S754_finite s m e => if s then (-1, - e, Z.neg m) else (1, e, Z.pos m)
  end.

Definition rank_lt (a b : Z * Z * Z) : Prop :=
  let '(c1, e1, m1) := a in
  let '(c2, e2, m2) := b in
  c1 < c2 \/ (c1 = c2 /\ (e1 < e2 \/ (e1 = e2 /\ m1 < m2))).

Definition always (x : Q) : Prop := True.

(** The extremes of [s] are values of the order. *)
Definition stats_ok {T} (ok : T -> Prop) (s : stats T) : Prop :=
  ok (max_time s) /\ ok (min_time s).

(** From [g] to [g'] the maximum has not gone down and the minimum has not
    gone up. *)
Definition widens {A : arith} (g g' : stats A) : Prop :=
  leb (max_time g) (max_time g') = true /\ leb (min_time g') (min_time g) = true.

(** The global extremes [g] enclose those of the window [s]. *)
Definition covers {A : arith} (g s : stats A) : Prop :=
  leb (max_time s) (max_time g) = true /\ leb (min_time g) (min_time s) = true.

(** The ways [SendCommand] can stop before its request: a null pointer
    from [find], or an index past the end of one of the four vectors. *)
Definition send_fault (f : fatal) : Prop :=
  match f with
  | NullDeref _ => True
  | VectorIndex name => name <> "times_taken"
  | _ => False
  end.

(** A world in which the first [n] rounds meet no obstacle: the metadata
    loads and parses, the initialization succeeds, the region exists, and
    in each of these rounds the fields are well-formed and the server
    answers with success. *)
Definition healthy {T} (w : World T) (num_dofs n : Z) : Prop :=
  exists bytes md seg,
    metadata_file w = Some bytes /\
    ParseFromString w bytes = Some md /\
    InitRobotClient_ok w md = true /\
    shared_memory w = Some seg /\
    forall i, 0 <= i < n -> fields_ok (seg i) num_dofs /\ ControlUpdate_ok w i = true.

(** ** The running mean *)

(** The global means as the source computes them (line 117), from the
    window means [ms], the first of them being combine number [k] into the
    mean [g]. *)
Fixpoint running_means (A : arith) (k : Z) (g : A) (ms : list A) : list A :=
  match ms with
  | [] => []
  | m :: ms' =>
      let g' := div (add (mul (of_int (k - 1)) g) m) (of_int k) in
      g' :: running_means A (k + 1) g' ms'
  end.

(** The global means in the words of the specification:
    [((k-1)/k) * running_mean + m_k / k]. *)
Fixpoint spec_running_means (k : Z) (g : Q) (ms : list Q) : list Q :=
  match ms with
  | [] => []
  | m :: ms' =>
      let g' := (((inject_Z k - 1) / inject_Z k) * g + m / inject_Z k)%Q in
      g' :: spec_running_means (k + 1) g' ms'
  end.

(** The arithmetic means of the prefixes of [ms]: the [j]-th is
    [(sum + m_1 + ... + m_j) / (k + j - 1)]. *)
Fixpoint arithmetic_means (k : Z) (sum : Q) (ms : list Q) : list Q :=
  match ms with
  | [] => []
  | m :: ms' =>
      ((sum + m) / inject_Z k)%Q :: arithmetic_means (k + 1) (sum + m)%Q ms'
  end.

(** ** Concrete worlds *)

(** A segment with the five fields, the vectors with [dofs] entries. *)
Definition robot_segment (dofs : nat) : Segment spec_float :=
  {| timestamps := {[ "shm_timestamp" := {| ts_seconds := 1700000000; ts_nanos := 0 |} ]};
     vectors := {[ "joint_positions" := replicate dofs (F32.of_Z 1);
                   "joint_velocities" := replicate dofs (F32.of_Z 2);
                   "joint_torques_measured" := replicate dofs (F32.of_Z 3);
                   "joint_torques_external" := replicate dofs (F32.of_Z 4) ]} |}.

(** The same segment without the field [joint_velocities]. *)
Definition segment_without_velocities (dofs : nat) : Segment spec_float :=
  {| timestamps := timestamps (robot_segment dofs);
     vectors := delete "joint_velocities" (vectors (robot_segment dofs)) |}.

(** A seven-dof robot whose server answers [ok i] in round [i] and whose
    round [i] takes [ns i] nanoseconds. *)
Definition lab_world (ns : Z -> Z) (ok : Z -> bool) : World spec_float :=
  {| metadata_file := Some "franka";
     ParseFromString := fun bytes => Some {| metadata_bytes := bytes |};
     InitRobotClient_ok := fun _ => true;
     shared_memory := Some (fun _ => robot_segment 7);
     ControlUpdate_ok := ok;
     elapsed_ns := ns;
     now := fun i => {| ts_seconds := 1700000000; ts_nanos := i * 1000000 |} |}.

(** Every round takes 0.1 ms and succeeds. *)
Definition steady_world : World spec_float :=
  lab_world (fun _ => 100000) (fun _ => true).

(** Every round takes 0.1 ms, except round [p], which takes 1.5 ms. *)
Definition spike_world (p : Z) : World spec_float :=
  lab_world (fun i => if i =? p then 1500000 else 100000) (fun _ => true).

(** The server fails in round 5. *)
Definition failing_world : World spec_float :=
  lab_world (fun _ => 100000) (fun i => negb (i =? 5)).

(** The region [RobotStateSharedMemory] does not exist. *)
Definition no_region_world : World spec_float :=
  {| metadata_file := Some "franka";
     ParseFromString := fun bytes => Some {| metadata_bytes := bytes |};
     InitRobotClient_ok := fun _ => true;
     shared_memory := None;
     ControlUpdate_ok := fun _ => true;
     elapsed_ns := fun _ => 100000;
     now := fun i => {| ts_seconds := 1700000000; ts_nanos := i * 1000000 |} |}.

(** The same robot over the rationals, round [i] taking [ns i]
    nanoseconds. *)
Definition exact_world (ns : Z -> Z) : World Q :=
  {| metadata_file := Some "franka";
     ParseFromString := fun bytes => Some {| metadata_bytes := bytes |};
     InitRobotClient_ok := fun _ => true;
     shared_memory := Some (fun _ =>
       {| timestamps := {[ "shm_timestamp" := {| ts_seconds := 0; ts_nanos := 0 |} ]};
          vectors := {[ "joint_positions" := replicate 7 0%Q;
                        "joint_velocities" := replicate 7 0%Q;
                        "joint_torques_measured" := replicate 7 0%Q;
                        "joint_torques_external" := replicate 7 0%Q ]} |});
     ControlUpdate_ok := fun _ => true;
     elapsed_ns := ns;
     now := fun i => {| ts_seconds := 0; ts_nanos := i |} |}.

(** * The runs in closed form *)

(** The requests a run issues before it opens the region: the
    [InitRobotClient] request, once the metadata is loaded and parsed. *)
Definition startup_requests {T} (w : World T) : list (event T) :=
  match metadata_file w with
  | Some bytes =>
      match ParseFromString w bytes with
      | Some metadata => [RpcInitRobotClient metadata]
      | None => []
      end
  | None => []
  end.

(** The number of rounds that run to their end among [rounds] rounds
    from round [i]: the rounds before the first one whose [SendCommand]
    does not return [true]. *)
Fixpoint rounds_completed {A : arith} (w : World A) (seg : Z -> Segment A)
    (num_dofs : Z) (rounds : nat) (i : Z) : Z :=
  match rounds with
  | O => 0
  | S rounds' =>
      match SendCommand w (seg i) num_dofs i with
      | (_, inr true) => 1 + rounds_completed w seg num_dofs rounds' (i + 1)
      | _ => 0
      end
  end.

(** The same for a whole run: no round is entered unless the startup
    (lines 54-71) goes through. *)
Definition completed {A : arith} (w : World A) (num_dofs num_requests : Z) : Z :=
  match metadata_file w with
  | Some bytes =>
      match ParseFromString w bytes with
      | Some metadata =>
          if InitRobotClient_ok w metadata
          then match shared_memory w with
               | Some seg => rounds_completed w seg num_dofs (Z.to_nat num_requests) 0
               | None => 0
               end
          else 0
      | None => 0
      end
  | None => 0
  end.

(** What [rounds] rounds that run to their end request and print from
    round [i] on, the samples being [smp] and the global statistics being
    [g] at the head of round [i]. *)
Fixpoint healthy_trace {A : arith} (log_iters : Z) (smp : Z -> A)
    (rounds : nat) (i : Z) (g : stats A) : list (event A) :=
  match rounds with
  | O => []
  | S rounds' =>
      (RpcControlUpdate RobotState_default
         :: warning_of (smp i) ++ round_reports log_iters smp i g)
      ++ healthy_trace log_iters smp rounds' (i + 1)
           (if closes log_iters i
            then combine (i / log_iters) g (window_summary log_iters smp i)
            else g)
  end.

(** The vector [v] with the [n] entries from index [i] on set to [0.0]. *)
Definition zero_span {A : arith} (i n : nat) (v : list A) : list A :=
  take i v ++ replicate n (of_int 0) ++ drop (i + n) v.

(** The four vectors of the local copies, by name, with their sizes. *)
Definition vector_sizes {T} (l : locals T) : list (string * Z) :=
  [("joint_positions", Z.of_nat (length (joint_positions l)));
   ("joint_velocities", Z.of_nat (length (joint_velocities l)));
   ("joint_torques_measured", Z.of_nat (length (joint_torques_measured l)));
   ("joint_torques_external", Z.of_nat (length (joint_torques_external l)))].

(** The sum of rationals, and the mean of the samples of rounds
    [1 .. t]. *)
Definition Qsum (l : list Q) : Q := foldr Qplus 0%Q l.

Definition sample_mean (smp : Z -> Q) (t : Z) : Q :=
  (Qsum (map smp (seqZ 1 t)) / inject_Z t)%Q.

(** The same world with another wall clock. *)
Definition with_now {T} (w : World T) (clock : Z -> ShmTimestamp) : World T :=
  {| metadata_file := metadata_file w;
     ParseFromString := ParseFromString w;
     InitRobotClient_ok := InitRobotClient_ok w;
     shared_memory := shared_memory w;
     ControlUpdate_ok := ControlUpdate_ok w;
     elapsed_ns := elapsed_ns w;
     now := clock |}.

(** * The sign of a [float] *)

(** [x] is a zero, an infinity or a finite number of sign [s] ([true]:
    negative), and not a NaN. *)
Definition has_sign (s : bool) (x : spec_float) : Prop :=
  match x with
  | S754_zero s' | S754_infinity s' | S754_finite s' _ _ => s' = s
  | S754_nan => False
  end.

(** * The process: [RunClient] and [main] *)

(** The parsed configuration, a [YAML::Node] of yaml-cpp:
    [config[key].as<T>()] is the value of [key] converted to [T], and
    throws when the key is missing or its value does not convert; [None]
    stands for the exception. *)
Record Config : Type := {
  as_int : string -> option Z;
  as_string : string -> option string;
  as_bool : string -> option bool
}.

(** What the process finds on the machine it runs on. *)
Record Host (T : Type) : Type := {
  (** [YAML::LoadFile(path)], [None] when it throws *)
  LoadFile : string -> option Config;
  (** what a client meets that is connected to [server_address] and is
      handed [robot_client_metadata_path] *)
  client_world : string -> string -> World T
}.

Arguments LoadFile {T} _ _.
Arguments client_world {T} _ _ _.

(** The ways the process ends without returning from [main]: an
    exception that nothing catches, from [YAML::LoadFile] or from a
    conversion [as<T>()], or the end of the client (a failed assertion,
    the exception of the region, undefined behaviour). *)
Inductive termination : Type :=
| ThrowLoadFile
| ThrowConversion (key : string)
| ClientAborted (f : fatal).

Inductive ending : Type :=
| Returned (code : Z)
| Terminated (t : termination).

(** What a process does: whether it printed the usage line, what its
    client requested and printed, and how it ended. *)
Record process (T : Type) : Type := {
  usage_printed : bool;
  client_trace : list (event T);
  ended : ending
}.

Arguments usage_printed {T} _.
Arguments client_trace {T} _.
Arguments ended {T} _.

(** [void *RunClient(void *cfg_ptr)] (lines 164-179): the four values
    are read in this order, then the client is constructed, and its
    constructor is the whole run. [inr tt] is the return of [NULL]. *)
Definition RunClient {A : arith} (h : Host A) (config : Config)
  : list (event A) * (termination + unit) :=
  match as_int config "num_dofs" with
  | None => ([], inl (ThrowConversion "num_dofs"))
  | Some num_dofs =>
  match as_int config "num_requests" with
  | None => ([], inl (ThrowConversion "num_requests"))
  | Some num_requests =>
  match as_string config "server_address" with
  | None => ([], inl (ThrowConversion "server_address"))
  | Some server_address =>
  match as_string config "robot_client_metadata_path" with
  | None => ([], inl (ThrowConversion "robot_client_metadata_path"))
  | Some robot_client_metadata_path =>
      let client :=
        TestGrpcClient (client_world h server_address robot_client_metadata_path)
          num_dofs num_requests in
      (trace client,
       match exit client with
       | Finished => inr tt
       | Aborted f => inl (ClientAborted f)
       end)
  end end end end.

(** Modelled from the spec: [create_real_time_thread] (declared in
    [real_time.hpp], which is not among the sources) runs the entry point
    it is handed on a thread of the real-time scheduling class. *)
Definition create_real_time_thread {X Y} (func : X -> Y) (args : X) : Y :=
  func args.

(** [int main(int argc, char *argv[])] (lines 181-199); [argc] is the
    number of entries of [argv]. *)
Definition main {A : arith} (h : Host A) (argv : list string) : process A :=
  let argc := Z.of_nat (length argv) in
  if decide (argc <> 2)
  then {| usage_printed := true; client_trace := []; ended := Returned 1 |}
  else
    match LoadFile h (default "" (argv !! 1%nat)) with
    | None =>
        {| usage_printed := false; client_trace := [];
           ended := Terminated ThrowLoadFile |}
    | Some config =>
        match as_bool config "use_real_time" with
        | None =>
            {| usage_printed := false; client_trace := [];
               ended := Terminated (ThrowConversion "use_real_time") |}
        | Some use_real_time =>
            let '(tr, r) :=
              if negb use_real_time
              then RunClient h config
              else create_real_time_thread (RunClient h) config in
            {| usage_printed := false; client_trace := tr;
               ended := match r with
                        | inr _ => Returned 0
                        | inl t => Terminated t
                        end |}
        end
    end.

(** The five values a run needs are all in the configuration. *)
Definition config_complete (config : Config) : Prop :=
  is_Some (as_bool config "use_real_time") /\
  is_Some (as_int config "num_dofs") /\
  is_Some (as_int config "num_requests") /\
  is_Some (as_string config "server_address") /\
  is_Some (as_string config "robot_client_metadata_path").

(** A configuration with the five values, and a machine on which every
    path loads it and every client meets the world [w]. *)
Definition lab_config (use_real_time : bool) (num_requests : Z) : Config :=
  {| as_int := fun key =>
       if decide (key = "num_dofs") then Some 7
       else if decide (key = "num_requests") then Some num_requests
       else None;
     as_string := fun key =>
       if decide (key = "server_address") then Some "localhost:50052"
       else if decide (key = "robot_client_metadata_path") then Some "metadata.bin"
       else None;
     as_bool := fun key =>
       if decide (key = "use_real_time") then Some use_real_time else None |}.

Definition lab_host {T} (config : Config) (w : World T) : Host T :=
  {| LoadFile := fun _ => Some config;
     client_world := fun _ _ => w |}.

(** * The private method [SendCommand] *)

Section SendCommandFacts.
Context {A : arith}.
Implicit Types (w : World A) (seg : Segment A) (l : locals A).

Lemma store_in_range name (v : list A) i x :
  0 <= i < Z.of_nat (length v) ->
  store name v i x = ([], inr (<[Z.to_nat i := x]> v)).
Proof. intros Hi. unfold store. destruct (decide _); [reflexivity | lia]. Qed.

Lemma store_events name (v : list A) i x : fst (store name v i x) = [].
Proof. unfold store. destruct (decide _); reflexivity. Qed.

Lemma store_not_null name (v : list A) i x n :
  snd (store name v i x) <> inl (NullDeref n).
Proof. unfold store. destruct (decide _); simpl; congruence. Qed.

Local Ltac do_store name :=
  match goal with
  | |- context [store name ?v ?j ?x] =>
      let E := fresh "E" in
      pose proof (store_events name v j x) as E;
      destruct (store name v j x) as [? [?|?]]; simpl in E; subst; simpl;
      [reflexivity|]
  end.

Local Ltac do_store_nn name n :=
  match goal with
  | |- context [store name ?v ?j ?x] =>
      let E := fresh "E" in
      pose proof (store_not_null name v j x n) as E;
      destruct (store name v j x) as [? [?|?]]; simpl in E; simpl;
      [intros Hf; apply E; congruence|clear E]
  end.

(** The zero-fill loop writes nothing to the trace, and cannot meet a
    null pointer. *)
Lemma zero_fill_events fuel : forall i l, fst (zero_fill fuel i l) = [].
Proof.
  induction fuel as [|fuel IH]; intros i l; simpl; [reflexivity|].
  unfold bind.
  do_store "joint_positions"; do_store "joint_velocities";
  do_store "joint_torques_measured"; do_store "joint_torques_external".
  match goal with |- context [zero_fill fuel ?j ?m] =>
    specialize (IH j m); destruct (zero_fill fuel j m) as [? ?] end.
  simpl in *. subst. reflexivity.
Qed.

Lemma zero_fill_not_null fuel n : forall i l,
  snd (zero_fill fuel i l) <> inl (NullDeref n).
Proof.
  induction fuel as [|fuel IH]; intros i l; simpl; [congruence|].
  unfold bind.
  do_store_nn "joint_positions" n; do_store_nn "joint_velocities" n;
  do_store_nn "joint_torques_measured" n; do_store_nn "joint_torques_external" n.
  match goal with |- context [zero_fill fuel ?j ?m] =>
    specialize (IH j m); destruct (zero_fill fuel j m) as [? ?] end.
  simpl in *. exact IH.
Qed.

(** With an entry for each remaining index, the zero-fill loop runs to
    its end. *)
Lemma zero_fill_ok fuel : forall i l,
  0 <= i ->
  i + Z.of_nat fuel <= Z.of_nat (length (joint_positions l)) ->
  i + Z.of_nat fuel <= Z.of_nat (length (joint_velocities l)) ->
  i + Z.of_nat fuel <= Z.of_nat (length (joint_torques_measured l)) ->
  i + Z.of_nat fuel <= Z.of_nat (length (joint_torques_external l)) ->
  exists l', zero_fill fuel i l = ([], inr l').
Proof.
  induction fuel as [|fuel IH]; intros i l Hi H1 H2 H3 H4; simpl.
  - eexists. reflexivity.
  - rewrite !store_in_range by lia. simpl.
    match goal with |- context [zero_fill fuel ?j ?m] =>
      assert (exists l', zero_fill fuel j m = ([], inr l')) as [l' Hl']
        by (apply IH; simpl; rewrite ?length_insert; lia)
    end.
    rewrite Hl'. eexists. reflexivity.
Qed.

(** On a well-formed segment the method issues its one request and
    returns what the server answered. *)
Lemma SendCommand_ok w seg num_dofs i :
  fields_ok seg num_dofs ->
  SendCommand w seg num_dofs i =
    (RpcControlUpdate RobotState_default ::
       (if ControlUpdate_ok w i then [] else [OutSendCommandFailed]),
     inr (ControlUpdate_ok w i)).
Proof.
  intros ([ts Hts] & (jp & Hjp & Ljp) & (jv & Hjv & Ljv) &
          (jm & Hjm & Ljm) & (je & Hje & Lje)).
  unfold SendCommand. rewrite Hts, Hjp, Hjv, Hjm, Hje. simpl.
  match goal with |- context [zero_fill ?f ?j ?m] =>
    assert (exists l', zero_fill f j m = ([], inr l')) as [l' Hl']
      by (apply zero_fill_ok; simpl; lia)
  end.
  rewrite Hl'. simpl. destruct (ControlUpdate_ok w i); reflexivity.
Qed.

(** The three shapes of a call: it stops before the request, or the
    request succeeds, or the request fails and the failure is printed. *)
Lemma SendCommand_shape w seg num_dofs i :
  (exists f, SendCommand w seg num_dofs i = ([], inl f)) \/
  (SendCommand w seg num_dofs i = ([RpcControlUpdate RobotState_default], inr true)
     /\ ControlUpdate_ok w i = true) \/
  (SendCommand w seg num_dofs i =
     ([RpcControlUpdate RobotState_default; OutSendCommandFailed], inr false)
     /\ ControlUpdate_ok w i = false).
Proof.
  unfold SendCommand.
  destruct (timestamps seg !! "shm_timestamp"); simpl; [|left; eauto].
  destruct (vectors seg !! "joint_positions"); simpl; [|left; eauto].
  destruct (vectors seg !! "joint_velocities"); simpl; [|left; eauto].
  destruct (vectors seg !! "joint_torques_measured"); simpl; [|left; eauto].
  destruct (vectors seg !! "joint_torques_external"); simpl; [|left; eauto].
  match goal with |- context [zero_fill ?f ?j ?m] =>
    pose proof (zero_fill_events f j m) as E;
    destruct (zero_fill f j m) as [evs [f0|l']] end;
    simpl in E; subst; simpl; [left; eauto|].
  destruct (ControlUpdate_ok w i); simpl; [right; left|right; right]; auto.
Qed.

(** The method meets a null pointer exactly when a named field is
    absent. *)
Lemma SendCommand_null_iff w seg num_dofs i :
  (exists name, snd (SendCommand w seg num_dofs i) = inl (NullDeref name))
  <-> ~ fields_present seg.
Proof.
  unfold SendCommand, fields_present.
  destruct (timestamps seg !! "shm_timestamp") eqn:E1; simpl;
    [|split; [intros _ (H & _); destruct H; congruence|eauto]].
  destruct (vectors seg !! "joint_positions") eqn:E2; simpl;
    [|split; [intros _ (_ & H & _); destruct H; congruence|eauto]].
  destruct (vectors seg !! "joint_velocities") eqn:E3; simpl;
    [|split; [intros _ (_ & _ & H & _); destruct H; congruence|eauto]].
  destruct (vectors seg !! "joint_torques_measured") eqn:E4; simpl;
    [|split; [intros _ (_ & _ & _ & H & _); destruct H; congruence|eauto]].
  destruct (vectors seg !! "joint_torques_external") eqn:E5; simpl;
    [|split; [intros _ (_ & _ & _ & _ & H); destruct H; congruence|eauto]].
  split.
  - intros [name Hn]. exfalso.
    match type of Hn with context [zero_fill ?f ?j ?m] =>
      pose proof (zero_fill_not_null f name j m) as N;
      destruct (zero_fill f j m) as [evs [f0|l']] end; simpl in *.
    + congruence.
    + destruct (ControlUpdate_ok w i); simpl in Hn; congruence.
  - intros H. exfalso. apply H. repeat split; eauto.
Qed.

End SendCommandFacts.

(** * The sample buffer *)

Section BufferFacts.
Context {A : arith}.
Implicit Types (tt : list A) (smp : Z -> A).

Lemma mod_pred (x n : Z) : 0 < n -> x mod n <> 0 -> (x - 1) mod n = x mod n - 1.
Proof.
  intros Hn Hx. symmetry. apply (Z.mod_unique_pos _ _ (x / n)).
  - pose proof (Z.mod_pos_bound x n Hn). lia.
  - pose proof (Z.div_mod x n). lia.
Qed.

Lemma mod_of_multiple_minus (i k n : Z) :
  0 < n -> i mod n = 0 -> 0 < k < n -> (i - k) mod n = n - k.
Proof.
  intros Hn Hi Hk. symmetry. apply (Z.mod_unique_pos _ _ (i / n - 1)); [lia|].
  pose proof (Z.div_mod i n). lia.
Qed.

Lemma buffer_inv_start N smp : buffer_inv N smp 0 [].
Proof. split; [simpl; lia | intros j Hj; lia]. Qed.

(** Recording the sample of round [i] keeps the buffer as described. *)
Lemma record_inv N smp i tt :
  0 < N -> 0 <= i ->
  buffer_inv N smp i tt -> buffer_inv N smp (i + 1) (record N tt i (smp i)).
Proof.
  intros HN Hi [Hlen Hslots]. unfold record.
  rewrite Z.rem_mod_nonneg by lia.
  pose proof (Z.mod_pos_bound i N HN) as Hb.
  destruct (decide (Z.of_nat (length tt) <= i mod N)) as [Hpush|Hat].
  - (* the slot does not exist yet: [i < N] *)
    assert (i < N) as HiN.
    { destruct (Z.lt_ge_cases i N) as [?|Hge]; [assumption|].
      rewrite Hlen, Z.min_r in Hpush by lia. lia. }
    rewrite Z.mod_small in Hpush by lia.
    split.
    + rewrite length_app. simpl. rewrite Hlen. lia.
    + intros j Hj. replace (i + 1 - 1) with i by lia.
      destruct (decide (j = i)) as [->|Hne].
      * rewrite Z.sub_diag, Z.mod_0_l by lia.
        rewrite lookup_app_r by lia.
        replace (Z.to_nat i - length tt)%nat with 0%nat by lia.
        simpl. f_equal. f_equal. lia.
      * rewrite lookup_app_l by lia.
        rewrite Hslots by lia.
        rewrite !Z.mod_small by lia. f_equal. f_equal. lia.
  - (* the slot exists and is overwritten: [N <= i] *)
    assert (N <= i) as HiN.
    { destruct (Z.lt_ge_cases i N) as [Hlt|?]; [|assumption].
      rewrite Hlen, Z.min_l, Z.mod_small in Hat by lia. lia. }
    split.
    + rewrite length_insert, Hlen. lia.
    + intros j Hj. replace (i + 1 - 1) with i by lia.
      destruct (decide (j = i mod N)) as [->|Hne].
      * rewrite list_lookup_insert_eq by lia.
        f_equal. f_equal.
        rewrite Zminus_mod_idemp_r, Z.sub_diag, Z.mod_0_l by lia. lia.
      * rewrite list_lookup_insert_ne by lia.
        rewrite Hslots by lia. f_equal. f_equal.
        replace (i - 1 - j) with (i - j - 1) by lia.
        rewrite mod_pred; [lia|lia|].
        intros H0. apply Hne.
        assert ((i - j) mod N + j = i mod N + N * 0 \/
                (i - j) mod N + j = i mod N + N * 1 \/ True) by auto.
        pose proof (Z.div_mod i N). pose proof (Z.div_mod (i - j) N).
        rewrite H0 in *.
        assert (N * (i / N - (i - j) / N) = j - i mod N) as Hd by lia.
        assert (i / N - (i - j) / N = 0) by nia. lia.
  Qed.

(** When the window closes in round [i], the buffer holds exactly the
    samples of rounds [i - N + 1 .. i]. *)
Lemma buffer_at_close N smp i tt :
  0 < N -> 0 < i -> i mod N = 0 ->
  buffer_inv N smp (i + 1) tt -> tt = window_samples N smp i.
Proof.
  intros HN Hi Hmod [Hlen Hslots].
  assert (N <= i) as HiN.
  { pose proof (Z.div_mod i N). assert (0 < i / N) by nia. nia. }
  rewrite Z.min_r in * by lia.
  apply list_eq. intros k. unfold window_samples.
  destruct (decide (Z.of_nat k < N)) as [Hk|Hk].
  - replace k with (Z.to_nat (Z.of_nat k)) at 1 by lia.
    rewrite Hslots by lia. replace (i + 1 - 1) with i by lia.
    destruct k as [|k]; simpl.
    + rewrite Z.sub_0_r, Hmod. f_equal. f_equal. lia.
    + rewrite list_lookup_fmap, lookup_seqZ_lt by lia. simpl.
      rewrite mod_of_multiple_minus by lia. f_equal. f_equal. lia.
  - rewrite lookup_ge_None_2 by lia.
    symmetry. apply lookup_ge_None_2. simpl.
    rewrite length_fmap, length_seqZ. lia.
Qed.

Lemma window_samples_length N smp i :
  0 < N -> length (window_samples N smp i) = Z.to_nat N.
Proof.
  intros HN. unfold window_samples. simpl.
  rewrite length_fmap, length_seqZ. lia.
Qed.

(** In chronological order these are the rounds [i - N + 1 .. i]. *)
Lemma window_samples_perm N smp i :
  0 < N -> window_samples N smp i ≡ₚ map smp (seqZ (i - N + 1) N).
Proof.
  intros HN. unfold window_samples.
  assert (seqZ (i - N + 1) N = seqZ (i - N + 1) (N - 1) ++ [i]) as ->.
  { replace N with ((N - 1) + 1) at 2 by lia.
    rewrite seqZ_app by lia.
    rewrite (seqZ_cons _ 1) by lia.
    rewrite (seqZ_nil _ (Z.pred 1)) by lia.
    do 2 f_equal. lia. }
  rewrite map_app. simpl. apply Permutation_cons_append.
Qed.

(** The summation loop over a vector that has all its [fuel] slots. *)
Lemma sum_loop_all tt : forall (pre : list A) sum,
  sum_loop (length tt) (length pre) (pre ++ tt) sum = Some (foldl add sum tt).
Proof.
  induction tt as [|x tt IH]; intros pre sum; simpl; [reflexivity|].
  rewrite lookup_app_r by lia. rewrite Nat.sub_diag. simpl.
  replace (pre ++ x :: tt) with ((pre ++ [x]) ++ tt) by (rewrite <- app_assoc; reflexivity).
  replace (S (length pre)) with (length (pre ++ [x])) by (rewrite length_app; simpl; lia).
  apply IH.
Qed.

(** The statistics of a closing window are those of the [N] most
    recent samples; no slot is missing. *)
Lemma window_stats_at_close N smp i :
  0 < N ->
  window_stats N (window_samples N smp i) = inr (window_summary N smp i).
Proof.
  intros HN. unfold window_stats.
  pose proof (sum_loop_all (window_samples N smp i) [] (of_int 0)) as Hs.
  rewrite window_samples_length in Hs by lia. simpl in Hs.
  unfold window_samples in *. simpl. simpl in Hs. rewrite Hs. reflexivity.
Qed.

End BufferFacts.

(** * One round of the loop *)

Section RoundFacts.
Context {A : arith}.
Implicit Types (w : World A) (seg : Z -> Segment A) (st : loop_state A)
  (tr evs : list (event A)).

Lemma closes_spec N i :
  0 < N -> 0 <= i -> closes N i = true <-> 0 < i /\ i mod N = 0.
Proof.
  intros HN Hi. unfold closes. rewrite Z.rem_mod_nonneg by lia.
  rewrite andb_true_iff, Z.ltb_lt, Z.eqb_eq. reflexivity.
Qed.

(** Under the buffer invariant the measurement part of a round never
    stops, and does what the source says on the most recent samples. *)
Lemma measure_spec N w i st :
  0 < N -> 0 <= i ->
  buffer_inv N (sample w) i (times_taken st) ->
  exists st',
    measure N i st (sample w i) =
      Continue st' (warning_of (sample w i)
                      ++ round_reports N (sample w) i (global st)) /\
    buffer_inv N (sample w) (i + 1) (times_taken st') /\
    global st' = (if closes N i
                  then combine (i / N) (global st) (window_summary N (sample w) i)
                  else global st).
Proof.
  intros HN Hi Hinv.
  pose proof (record_inv N (sample w) i _ HN Hi Hinv) as Hrec.
  unfold measure, round_reports.
  destruct (closes N i) eqn:Hc.
  - apply closes_spec in Hc as [Hpos Hmod]; [|lia|lia].
    pose proof (buffer_at_close N (sample w) i _ HN Hpos Hmod Hrec) as Heq.
    unfold close_window. simpl. rewrite Heq.
    rewrite window_stats_at_close by lia.
    rewrite Z.quot_div_nonneg by lia.
    eexists. split; [reflexivity|]. simpl. split; [|reflexivity].
    rewrite <- Heq. exact Hrec.
  - eexists. split; [rewrite app_nil_r; reflexivity|]. simpl. auto.
Qed.

(** A round that goes on has sent its request with success. *)
Lemma body_continue N w seg nd i st st' evs :
  0 < N -> 0 <= i ->
  buffer_inv N (sample w) i (times_taken st) ->
  body N w seg nd i st = Continue st' evs ->
  SendCommand w (seg i) nd i = ([RpcControlUpdate RobotState_default], inr true) /\
  evs = RpcControlUpdate RobotState_default ::
          warning_of (sample w i) ++ round_reports N (sample w) i (global st) /\
  buffer_inv N (sample w) (i + 1) (times_taken st') /\
  global st' = (if closes N i
                then combine (i / N) (global st) (window_summary N (sample w) i)
                else global st).
Proof.
  intros HN Hi Hinv Hb. unfold body in Hb.
  destruct (measure_spec N w i st HN Hi Hinv) as (st1 & Hm & Hinv' & Hg).
  rewrite Hm in Hb.
  destruct (SendCommand_shape w (seg i) nd i) as [[f Hs]|[[Hs _]|[Hs _]]];
    rewrite Hs in Hb; inversion Hb; subst.
  split; [assumption|]. split; [reflexivity|]. split; assumption.
Qed.

(** A round that stops has stopped in [SendCommand], with the state as
    it was at the head of the round and nothing measured. *)
Lemma body_stop N w seg nd i st st' f evs :
  0 < N -> 0 <= i ->
  buffer_inv N (sample w) i (times_taken st) ->
  body N w seg nd i st = Stop st' f evs ->
  st' = st /\
  ((SendCommand w (seg i) nd i = ([], inl f) /\ evs = []) \/
   (SendCommand w (seg i) nd i =
      ([RpcControlUpdate RobotState_default; OutSendCommandFailed], inr false) /\
    f = AssertSendCommand /\
    evs = [RpcControlUpdate RobotState_default; OutSendCommandFailed])).
Proof.
  intros HN Hi Hinv Hb. unfold body in Hb.
  destruct (measure_spec N w i st HN Hi Hinv) as (st1 & Hm & _).
  rewrite Hm in Hb.
  destruct (SendCommand_shape w (seg i) nd i) as [[f0 Hs]|[[Hs _]|[Hs _]]];
    rewrite Hs in Hb; inversion Hb; subst; split; auto.
Qed.

End RoundFacts.

(** * The loop *)

Section LoopFacts.
Context {A : arith}.
Implicit Types (w : World A) (seg : Z -> Segment A) (st : loop_state A)
  (tr evs : list (event A)) (g : stats A).

Lemma div_pred_multiple (i N : Z) :
  0 < N -> i mod N = 0 -> (i - 1) / N = i / N - 1.
Proof.
  intros HN Hm. symmetry. apply (Z.div_unique_pos _ _ _ (N - 1)); [lia|].
  pose proof (Z.div_mod i N). lia.
Qed.

Lemma div_pred_other (i N : Z) :
  0 < N -> i mod N <> 0 -> (i - 1) / N = i / N.
Proof.
  intros HN Hm. symmetry. apply (Z.div_unique_pos _ _ _ (i mod N - 1)).
  - pose proof (Z.mod_pos_bound i N HN). lia.
  - pose proof (Z.div_mod i N). lia.
Qed.

(** The closures before round [i + 1] are those before round [i], and
    round [i] when the window closes in it. *)
Lemma closure_rounds_succ N i :
  0 < N -> 0 <= i ->
  closure_rounds N (i + 1) = closure_rounds N i ++ (if closes N i then [i] else []).
Proof.
  intros HN Hi. unfold closure_rounds. replace (i + 1 - 1) with i by lia.
  destruct (closes N i) eqn:Hc.
  - apply closes_spec in Hc as [Hpos Hmod]; [|lia|lia].
    rewrite (div_pred_multiple i N) by lia.
    assert (0 < i / N) by (pose proof (Z.div_mod i N); nia).
    replace (i / N) with ((i / N - 1) + 1) at 1 by lia.
    rewrite seqZ_app by lia. rewrite map_app. f_equal.
    rewrite (seqZ_cons _ 1) by lia. rewrite (seqZ_nil _ (Z.pred 1)) by lia.
    simpl. f_equal. pose proof (Z.div_mod i N). lia.
  - rewrite app_nil_r.
    destruct (decide (i = 0)) as [->|Hne].
    + rewrite Z.div_0_l by lia. rewrite !seqZ_nil; [reflexivity| |lia].
      assert ((0 - 1) / N < 0) by (apply Z.div_lt_upper_bound; lia). lia.
    + rewrite (div_pred_other i N); [reflexivity|lia|].
      intros Hm. assert (closes N i = true) by (apply closes_spec; lia).
      congruence.
Qed.

Lemma closure_rounds_length N i :
  0 < N -> 0 < i -> Z.of_nat (length (closure_rounds N i)) = (i - 1) / N.
Proof.
  intros HN Hi. unfold closure_rounds. rewrite length_map, length_seqZ.
  assert (0 <= (i - 1) / N) by (apply Z.div_pos; lia). lia.
Qed.

(** ** What a round adds to each reading of the trace *)

Lemma window_reports_app tr evs :
  window_reports (tr ++ evs) = window_reports tr ++ window_reports evs.
Proof. apply omap_app. Qed.

Lemma global_reports_app tr evs :
  global_reports (tr ++ evs) = global_reports tr ++ global_reports evs.
Proof. apply omap_app. Qed.

Lemma warnings_app tr evs : warnings (tr ++ evs) = warnings tr ++ warnings evs.
Proof. apply omap_app. Qed.

Lemma control_updates_app tr evs :
  control_updates (tr ++ evs) = control_updates tr ++ control_updates evs.
Proof. apply omap_app. Qed.

Lemma requests_app tr evs : requests (tr ++ evs) = requests tr ++ requests evs.
Proof. apply List.filter_app. Qed.

Lemma round_window_reports N smp i g d x :
  window_reports (RpcControlUpdate d :: warning_of x ++ round_reports N smp i g) =
    (if closes N i then [window_summary N smp i] else []).
Proof.
  unfold window_reports, warning_of, round_reports.
  destruct (gtb x (of_int 1)), (closes N i); reflexivity.
Qed.

Lemma round_global_reports N smp i g d x :
  global_reports (RpcControlUpdate d :: warning_of x ++ round_reports N smp i g) =
    (if closes N i then [combine (i / N) g (window_summary N smp i)] else []).
Proof.
  unfold global_reports, warning_of, round_reports.
  destruct (gtb x (of_int 1)), (closes N i); reflexivity.
Qed.

Lemma round_warnings N smp i g d x :
  warnings (RpcControlUpdate d :: warning_of x ++ round_reports N smp i g) =
    List.filter (fun y => gtb y (of_int 1)) [x].
Proof.
  unfold warnings, warning_of, round_reports. simpl.
  destruct (gtb x (of_int 1)), (closes N i); reflexivity.
Qed.

Lemma round_control_updates N smp i g d x :
  control_updates (RpcControlUpdate d :: warning_of x ++ round_reports N smp i g) = [d].
Proof.
  unfold control_updates, warning_of, round_reports.
  destruct (gtb x (of_int 1)), (closes N i); reflexivity.
Qed.

Lemma round_requests N smp i g d x :
  requests (RpcControlUpdate d :: warning_of x ++ round_reports N smp i g) =
    [RpcControlUpdate d].
Proof.
  unfold requests, warning_of, round_reports.
  destruct (gtb x (of_int 1)), (closes N i); reflexivity.
Qed.

Lemma round_tail_requests N smp i g x :
  requests (warning_of x ++ round_reports N smp i g) = [].
Proof.
  unfold requests, warning_of, round_reports.
  destruct (gtb x (of_int 1)), (closes N i); reflexivity.
Qed.

(** ** Invariants of the states the loop passes through *)

Lemma reach_buffer N w seg nd i st tr :
  0 < N -> reach N w seg nd i st tr ->
  0 <= i /\ buffer_inv N (sample w) i (times_taken st).
Proof.
  intros HN Hr. induction Hr as [|i st tr st' evs Hr [Hi Hinv] Hb].
  - split; [lia|apply buffer_inv_start].
  - destruct (body_continue N w seg nd i st st' evs HN Hi Hinv Hb)
      as (_ & _ & Hinv' & _).
    split; [lia|assumption].
Qed.

(** The window reports so far are the statistics of the [N] most recent
    samples at each closure. *)
Lemma reach_windows N w seg nd i st tr :
  0 < N -> reach N w seg nd i st tr ->
  window_reports tr = map (window_summary N (sample w)) (closure_rounds N i).
Proof.
  intros HN Hr. induction Hr as [|i st tr st' evs Hr IH Hb].
  - unfold closure_rounds. rewrite seqZ_nil; [reflexivity|].
    assert ((0 - 1) / N < 0) by (apply Z.div_lt_upper_bound; lia). lia.
  - destruct (reach_buffer N w seg nd i st tr HN Hr) as [Hi Hinv].
    destruct (body_continue N w seg nd i st st' evs HN Hi Hinv Hb)
      as (_ & -> & _ & _).
    rewrite window_reports_app.
    rewrite round_window_reports, closure_rounds_succ, map_app, IH by lia.
    destruct (closes N i); reflexivity.
Qed.

Lemma last_nonempty_default {T} (l : list T) : forall x d d',
  List.last (x :: l) d = List.last (x :: l) d'.
Proof.
  induction l as [|y l IH]; intros x d d'; [reflexivity|].
  change (List.last (y :: l) d = List.last (y :: l) d'). apply IH.
Qed.

Lemma combine_all_snoc (ws : list (stats A)) : forall k g (s0 : stats A),
  combine_all k g (ws ++ [s0]) =
    combine_all k g ws
      ++ [combine (k + Z.of_nat (length ws)) (List.last (combine_all k g ws) g) s0].
Proof.
  induction ws as [|s1 ws IH]; intros k g s0; simpl.
  - rewrite Z.add_0_r. reflexivity.
  - rewrite IH.
    replace (k + 1 + Z.of_nat (length ws)) with (k + Z.of_nat (S (length ws))) by lia.
    do 4 f_equal.
    destruct (combine_all (k + 1) (combine k g s1) ws) as [|y l]; [reflexivity|].
    apply last_nonempty_default.
Qed.

Lemma combine_all_length (ws : list (stats A)) : forall k g,
  length (combine_all k g ws) = length ws.
Proof. induction ws as [|s1 ws IH]; intros k g; simpl; [|rewrite IH]; reflexivity. Qed.

(** The global reports are the window reports combined in order, the
    [k]-th with divisor [k], and the state carries the last of them. *)
Lemma reach_globals N w seg nd i st tr :
  0 < N -> reach N w seg nd i st tr ->
  global_reports tr = combine_all 1 initial_global (window_reports tr) /\
  global st = List.last (global_reports tr) initial_global.
Proof.
  intros HN Hr. induction Hr as [|i st tr st' evs Hr [IH1 IH2] Hb].
  - split; reflexivity.
  - destruct (reach_buffer N w seg nd i st tr HN Hr) as [Hi Hinv].
    pose proof (reach_windows N w seg nd i st tr HN Hr) as Hw.
    destruct (body_continue N w seg nd i st st' evs HN Hi Hinv Hb)
      as (_ & -> & _ & Hg).
    rewrite window_reports_app, global_reports_app.
    rewrite round_window_reports, round_global_reports, Hg.
    destruct (closes N i) eqn:Hc.
    + apply closes_spec in Hc as [Hpos Hmod]; [|lia|lia].
      rewrite combine_all_snoc, <- IH1, <- IH2.
      assert (1 + Z.of_nat (length (window_reports tr)) = i / N) as ->.
      { rewrite Hw, length_map, closure_rounds_length by lia.
        rewrite div_pred_multiple by lia. lia. }
      split; [reflexivity|]. rewrite last_last. reflexivity.
    + rewrite !app_nil_r. split; assumption.
Qed.

(** One warning for each round whose sample exceeds the threshold. *)
Lemma reach_warnings N w seg nd i st tr :
  0 < N -> reach N w seg nd i st tr ->
  warnings tr =
    List.filter (fun x => gtb x (of_int 1)) (map (sample w) (seqZ 0 i)).
Proof.
  intros HN Hr. induction Hr as [|i st tr st' evs Hr IH Hb].
  - reflexivity.
  - destruct (reach_buffer N w seg nd i st tr HN Hr) as [Hi Hinv].
    destruct (body_continue N w seg nd i st st' evs HN Hi Hinv Hb)
      as (_ & -> & _ & _).
    rewrite warnings_app.
    rewrite round_warnings, seqZ_app by lia.
    rewrite (seqZ_cons _ 1) by lia. rewrite (seqZ_nil _ (Z.pred 1)) by lia.
    rewrite map_app, List.filter_app, IH. reflexivity.
Qed.

(** One request for each round, each with the default payload. *)
Lemma reach_requests N w seg nd i st tr :
  0 < N -> reach N w seg nd i st tr ->
  requests tr = replicate (Z.to_nat i) (RpcControlUpdate RobotState_default) /\
  control_updates tr = replicate (Z.to_nat i) RobotState_default.
Proof.
  intros HN Hr. induction Hr as [|i st tr st' evs Hr [IH1 IH2] Hb].
  - split; reflexivity.
  - destruct (reach_buffer N w seg nd i st tr HN Hr) as [Hi Hinv].
    destruct (body_continue N w seg nd i st st' evs HN Hi Hinv Hb)
      as (_ & -> & _ & _).
    replace (Z.to_nat (i + 1)) with (Z.to_nat i + 1)%nat by lia.
    rewrite !replicate_add. simpl. split.
    + rewrite requests_app, round_requests, IH1. reflexivity.
    + rewrite control_updates_app, round_control_updates, IH2. reflexivity.
Qed.

End LoopFacts.

(** * Whole runs *)

Section RunFacts.
Context {A : arith}.
Implicit Types (w : World A) (seg : Z -> Segment A) (st : loop_state A)
  (tr evs : list (event A)) (g : stats A).

(** The loop either runs all its rounds, or stops in the [SendCommand]
    of some round with the state and the trace it had reached. *)
Lemma loop_reach N w seg nd rounds : forall i st tr,
  0 < N -> reach N w seg nd i st tr ->
  let r := loop N w seg nd rounds i st in
  (exit r = Finished /\
   reach N w seg nd (i + Z.of_nat rounds) (final r) (tr ++ trace r)) \/
  (exists k st_k tr_k f evs,
      i <= k < i + Z.of_nat rounds /\
      reach N w seg nd k st_k tr_k /\
      body N w seg nd k st_k = Stop (final r) f evs /\
      exit r = Aborted f /\
      tr ++ trace r = tr_k ++ evs).
Proof.
  induction rounds as [|rounds IH]; intros i st tr HN Hr; simpl.
  - left. split; [reflexivity|]. rewrite Z.add_0_r, app_nil_r. exact Hr.
  - destruct (body N w seg nd i st) as [st' evs|st' f evs] eqn:Hb; simpl.
    + pose proof (reach_step N w seg nd i st tr st' evs Hr Hb) as Hr'.
      destruct (IH (i + 1) st' (tr ++ evs) HN Hr')
        as [[He Hf]|(k & st_k & tr_k & f & evs' & Hk & Hrk & Hbk & He & Ht)].
      * left. split; [assumption|].
        replace (i + Z.of_nat (S rounds)) with (i + 1 + Z.of_nat rounds) by lia.
        rewrite app_assoc. exact Hf.
      * right. exists k, st_k, tr_k, f, evs'.
        repeat split; try assumption; try lia.
        rewrite app_assoc. exact Ht.
    + right. exists i, st, tr, f, evs.
      repeat split; try assumption; try lia.
Qed.

(** The same for the loop as the constructor starts it. *)
Lemma loop_cases N w seg nd rounds :
  0 < N ->
  let r := loop N w seg nd rounds 0 initial_state in
  (exit r = Finished /\ reach N w seg nd (Z.of_nat rounds) (final r) (trace r)) \/
  (exists k tr_k f,
      0 <= k < Z.of_nat rounds /\
      reach N w seg nd k (final r) tr_k /\
      exit r = Aborted f /\
      ((SendCommand w (seg k) nd k = ([], inl f) /\ trace r = tr_k) \/
       (SendCommand w (seg k) nd k =
          ([RpcControlUpdate RobotState_default; OutSendCommandFailed], inr false) /\
        f = AssertSendCommand /\
        trace r = tr_k ++ [RpcControlUpdate RobotState_default; OutSendCommandFailed]))).
Proof.
  intros HN. cbv zeta.
  pose proof (loop_reach N w seg nd rounds 0 initial_state [] HN
                (reach_start N w seg nd)) as H.
  cbv zeta in H.
  destruct H as [[He Hf]|(k & st_k & tr_k & f & evs & Hk & Hrk & Hbk & He & Ht)];
    simpl in *.
  - left. auto.
  - right. destruct (reach_buffer N w seg nd k st_k tr_k HN Hrk) as [Hk0 Hinv].
    destruct (body_stop N w seg nd k st_k _ f evs HN Hk0 Hinv Hbk)
      as [Hst [[Hs ->]|(Hs & -> & ->)]].
    + exists k, tr_k, f. rewrite Hst. rewrite app_nil_r in Ht.
      repeat split; auto; lia.
    + exists k, tr_k, AssertSendCommand. rewrite Hst.
      repeat split; auto; lia.
Qed.

(** Rounds can be run in two batches. *)
Lemma loop_app N w seg nd a b : forall i st,
  loop N w seg nd (a + b) i st =
    let r1 := loop N w seg nd a i st in
    match exit r1 with
    | Finished =>
        let r2 := loop N w seg nd b (i + Z.of_nat a) (final r1) in
        {| final := final r2; trace := trace r1 ++ trace r2; exit := exit r2 |}
    | Aborted _ => r1
    end.
Proof.
  induction a as [|a IH]; intros i st; simpl.
  - rewrite Z.add_0_r. destruct (loop N w seg nd b i st); reflexivity.
  - destruct (body N w seg nd i st) as [st' evs|st' f evs]; simpl; [|reflexivity].
    rewrite IH. cbv zeta.
    replace (i + Z.of_nat (S a)) with (i + 1 + Z.of_nat a) by lia.
    destruct (loop N w seg nd a (i + 1) st') as [fn t [|f]]; simpl; [|reflexivity].
    rewrite app_assoc. reflexivity.
Qed.

(** How the loop ends, and the requests it issues, are decided by the
    calls of [SendCommand] alone. *)
Lemma loop_dispatch N w seg nd rounds : forall i st tr,
  0 < N -> reach N w seg nd i st tr ->
  exit (loop N w seg nd rounds i st) = snd (dispatch w seg nd rounds i) /\
  requests (trace (loop N w seg nd rounds i st)) =
    requests (fst (dispatch w seg nd rounds i)).
Proof.
  induction rounds as [|rounds IH]; intros i st tr HN Hr; simpl; [auto|].
  destruct (reach_buffer N w seg nd i st tr HN Hr) as [Hi Hinv].
  destruct (body N w seg nd i st) as [st' evs|st' f evs] eqn:Hb.
  - destruct (body_continue N w seg nd i st st' evs HN Hi Hinv Hb)
      as (Hs & -> & _ & _).
    rewrite Hs.
    destruct (IH (i + 1) st' _ HN (reach_step N w seg nd i st tr st' _ Hr Hb))
      as [He Hq].
    destruct (dispatch w seg nd rounds (i + 1)) as [t o]. simpl in *.
    split; [assumption|]. f_equal.
    rewrite requests_app, round_tail_requests, Hq. reflexivity.
  - destruct (body_stop N w seg nd i st st' f evs HN Hi Hinv Hb)
      as [_ [[Hs ->]|(Hs & -> & ->)]]; rewrite Hs; simpl; auto.
Qed.

(** The durations have no part in it. *)
Lemma dispatch_with_elapsed w ns seg nd rounds : forall i,
  dispatch (with_elapsed w ns) seg nd rounds i = dispatch w seg nd rounds i.
Proof.
  induction rounds as [|rounds IH]; intros i; simpl; [reflexivity|].
  change (SendCommand (with_elapsed w ns) (seg i) nd i)
    with (SendCommand w (seg i) nd i).
  rewrite IH. reflexivity.
Qed.

(** Two segments on which every call of [SendCommand] does the same
    give the same loop. *)
Lemma loop_same_sends N w seg1 seg2 nd rounds : forall i st,
  (forall k, i <= k < i + Z.of_nat rounds ->
     SendCommand w (seg1 k) nd k = SendCommand w (seg2 k) nd k) ->
  loop N w seg1 nd rounds i st = loop N w seg2 nd rounds i st.
Proof.
  induction rounds as [|rounds IH]; intros i st Hsame; simpl; [reflexivity|].
  unfold body. rewrite (Hsame i) by lia.
  destruct (SendCommand w (seg2 i) nd i) as [evs [f|[|]]]; try reflexivity.
  destruct (measure N i st (sample w i)) as [st' evs'|st' f evs']; [|reflexivity].
  rewrite IH; [reflexivity|]. intros k Hk. apply Hsame. lia.
Qed.

End RunFacts.

(** * The arithmetic at work *)

(** 0.1 ms is [0x1.99999ap-4], 1.5 ms and 1.0 ms are exact, and one
    nanosecond above a millisecond is above [1.0f]. *)
Example ms_of_ns_values :
  f32_ms_of_ns 100000 = S754_finite false 13421773 (-27) /\
  f32_ms_of_ns 1500000 = S754_finite false 12582912 (-23) /\
  f32_ms_of_ns 1000000 = F32.of_Z 1 /\
  f32_ms_of_ns 1000001 = S754_finite false 8388616 (-23) /\
  f32_ms_of_ns 0 = S754_zero false.
Proof. repeat split; vm_compute; reflexivity. Qed.

(** The initial values [-99999.0], [99999.0] and [0.0] are exact in single
    precision. *)
Example initial_global_values :
  @initial_global binary32
    = {| max_time := S754_finite true 12799872 (-7);
         min_time := S754_finite false 12799872 (-7);
         avg_time := S754_zero false |}.
Proof. vm_compute. reflexivity. Qed.

(** The run of the third scenario of the specification: the server fails
    in round 5 of 100. *)
Example failing_run :
  trace (TestGrpcClient (A:=binary32) failing_world 7 100)
    = RpcInitRobotClient {| metadata_bytes := "franka" |}
        :: replicate 6 (RpcControlUpdate RobotState_default)
        ++ [OutSendCommandFailed] /\
  exit (TestGrpcClient (A:=binary32) failing_world 7 100) = Aborted AssertSendCommand.
Proof. split; vm_compute; reflexivity. Qed.

(** A vector shorter than [num_dofs] is indexed past its end in the first
    round. *)
Example short_vector_run :
  exit (TestGrpcClient (A:=binary32) steady_world 8 100)
    = Aborted (VectorIndex "joint_positions").
Proof. vm_compute. reflexivity. Qed.

(** * The order on [float] values and on rationals *)

Section FloatOrder.

(** ** Rounding never produces a NaN *)

Lemma shr_1_nonneg mrs : 0 <= shr_m mrs -> 0 <= shr_m (shr_1 mrs).
Proof.
  destruct mrs as [m r s]. simpl.
  destruct m as [|p|p]; [simpl; lia| |lia].
  destruct p; simpl; lia.
Qed.

Lemma iter_shr_1_nonneg p : forall mrs,
  0 <= shr_m mrs -> 0 <= shr_m (SpecFloat.iter_pos shr_1 p mrs).
Proof.
  induction p as [p IH|p IH|]; intros mrs H; simpl.
  - apply IH, IH, shr_1_nonneg, H.
  - apply IH, IH, H.
  - apply shr_1_nonneg, H.
Qed.

Lemma shr_fexp_nonneg prec emax m e l :
  0 <= m -> 0 <= shr_m (fst (shr_fexp prec emax m e l)).
Proof.
  intros Hm. unfold shr_fexp, shr.
  assert (0 <= shr_m (shr_record_of_loc m l)) as H0.
  { destruct l as [|[]]; simpl; exact Hm. }
  destruct (fexp prec emax (Zdigits2 m + e) - e) as [|p|p]; simpl; try exact H0.
  apply iter_shr_1_nonneg, H0.
Qed.

Lemma round_nearest_even_nonneg m l : 0 <= m -> 0 <= round_nearest_even m l.
Proof.
  intros Hm. unfold round_nearest_even.
  destruct l as [|[]]; try lia. destruct (Z.even m); lia.
Qed.

Lemma binary_round_aux_not_nan prec emax s m e l :
  0 <= m -> not_nan (binary_round_aux prec emax s m e l).
Proof.
  intros Hm. unfold binary_round_aux, not_nan.
  pose proof (shr_fexp_nonneg prec emax m e l Hm) as H1.
  destruct (shr_fexp prec emax m e l) as [mrs' e']. simpl in H1.
  pose proof (shr_fexp_nonneg prec emax
                (round_nearest_even (shr_m mrs') (loc_of_shr_record mrs')) e'
                loc_Exact (round_nearest_even_nonneg _ _ H1)) as H2.
  destruct (shr_fexp prec emax _ e' loc_Exact) as [mrs'' e'']. simpl in H2.
  destruct (shr_m mrs'') as [|p|p]; [discriminate| |lia].
  destruct (e'' <=? emax - prec); discriminate.
Qed.

Lemma binary_round_not_nan prec emax s m e :
  not_nan (binary_round prec emax s m e).
Proof.
  unfold binary_round.
  destruct (shl_align m e _) as [mz ez].
  apply binary_round_aux_not_nan. lia.
Qed.

Lemma binary_normalize_not_nan prec emax m e s :
  not_nan (binary_normalize prec emax m e s).
Proof.
  destruct m; simpl; [discriminate| |]; apply binary_round_not_nan.
Qed.

Lemma convert_not_nan prec emax x : not_nan x -> not_nan (convert prec emax x).
Proof.
  intros Hx. destruct x; simpl; try exact Hx. apply binary_round_not_nan.
Qed.

Lemma SFdiv_finite_not_nan prec emax x s m e :
  not_nan x -> not_nan (SFdiv prec emax x (S754_finite s m e)).
Proof.
  intros Hx. destruct x as [sx|sx| |sx mx ex]; simpl; try discriminate.
  - exfalso. apply Hx. reflexivity.
  - unfold SFdiv_core_binary.
    set (m' := match _ with Z0 => _ | Zpos _ => _ | Zneg _ => _ end).
    assert (0 <= m') as Hm'.
    { subst m'. destruct (_ - _ - _) as [|p|p]; try lia.
      apply Z.shiftl_nonneg. lia. }
    pose proof (Z.div_pos m' (Z.pos m) Hm' (Pos2Z.is_pos m)) as Hq.
    unfold Z.div in Hq.
    destruct (Z.div_eucl m' (Z.pos m)) as [q r].
    apply binary_round_aux_not_nan, Hq.
Qed.

Lemma f32_ms_of_ns_not_nan count : not_nan (f32_ms_of_ns count).
Proof.
  unfold f32_ms_of_ns, narrow, widen.
  apply convert_not_nan.
  assert (exists s m e, F64.of_Z 1000000 = S754_finite s m e) as (s & m & e & ->)
    by (vm_compute; eauto).
  apply SFdiv_finite_not_nan, convert_not_nan, binary_normalize_not_nan.
Qed.

(** ** [SFcompare] is the order of the ranks *)

Local Ltac decide_rank :=
  split;
  [ first [discriminate | intros _; simpl; lia]
  | first [intros _; reflexivity | simpl; intros ?; exfalso; lia] ].

Lemma SFltb_rank x y :
  not_nan x -> not_nan y -> SFltb x y = true <-> rank_lt (rank x) (rank y).
Proof.
  intros Hx Hy. unfold SFltb, rank_lt.
  destruct x as [sx|sx| |sx mx ex]; [| |exfalso; apply Hx; reflexivity|];
  (destruct y as [sy|sy| |sy my ey]; [| |exfalso; apply Hy; reflexivity|]);
    simpl; try (destruct sx); try (destruct sy); simpl; try decide_rank.
  - destruct (Z.compare_spec ex ey); simpl; try decide_rank.
    change (Pos.compare_cont Eq mx my) with (Pos.compare mx my).
    destruct (Pos.compare_spec mx my); simpl; decide_rank.
  - destruct (Z.compare_spec ex ey); simpl; try decide_rank.
    change (Pos.compare_cont Eq mx my) with (Pos.compare mx my).
    destruct (Pos.compare_spec mx my); simpl; decide_rank.
Qed.

Lemma SFleb_negb_SFltb x y :
  not_nan x -> not_nan y -> SFleb x y = negb (SFltb y x).
Proof.
  intros Hx Hy. unfold SFleb, SFltb.
  destruct x as [sx|sx| |sx mx ex]; [| |exfalso; apply Hx; reflexivity|];
  (destruct y as [sy|sy| |sy my ey]; [| |exfalso; apply Hy; reflexivity|]);
    simpl; try (destruct sx); try (destruct sy); simpl; try reflexivity.
  - rewrite (Z.compare_antisym ex ey).
    destruct (Z.compare ex ey); simpl; try reflexivity.
    change (Pos.compare_cont Eq mx my) with (Pos.compare mx my).
    change (Pos.compare_cont Eq my mx) with (Pos.compare my mx).
    rewrite (Pos.compare_antisym mx my).
    destruct (Pos.compare mx my); reflexivity.
  - rewrite (Z.compare_antisym ex ey).
    destruct (Z.compare ex ey); simpl; try reflexivity.
    change (Pos.compare_cont Eq mx my) with (Pos.compare mx my).
    change (Pos.compare_cont Eq my mx) with (Pos.compare my mx).
    rewrite (Pos.compare_antisym mx my).
    destruct (Pos.compare mx my); reflexivity.
Qed.

Lemma rank_lt_irrefl a : ~ rank_lt a a.
Proof. destruct a as [[c e] m]. unfold rank_lt. lia. Qed.

Lemma rank_lt_trans a b c : rank_lt a b -> rank_lt b c -> rank_lt a c.
Proof.
  destruct a as [[c1 e1] m1], b as [[c2 e2] m2], c as [[c3 e3] m3].
  unfold rank_lt. lia.
Qed.

Lemma rank_lt_cotrans a b c : rank_lt a c -> rank_lt a b \/ rank_lt b c.
Proof.
  destruct a as [[c1 e1] m1], b as [[c2 e2] m2], c as [[c3 e3] m3].
  unfold rank_lt. lia.
Qed.

Theorem binary32_ordered : ordered binary32 not_nan.
Proof.
  split; simpl.
  - intros x Hx. destruct (SFltb x x) eqn:E; [|reflexivity].
    apply SFltb_rank in E; [|assumption|assumption].
    exfalso. exact (rank_lt_irrefl _ E).
  - intros x y z Hx Hy Hz Hxy Hyz.
    apply SFltb_rank in Hxy; [|assumption|assumption].
    apply SFltb_rank in Hyz; [|assumption|assumption].
    apply SFltb_rank; [assumption|assumption|].
    exact (rank_lt_trans _ _ _ Hxy Hyz).
  - intros x y z Hx Hy Hz Hxz.
    apply SFltb_rank in Hxz; [|assumption|assumption].
    destruct (rank_lt_cotrans _ (rank y) _ Hxz) as [H|H];
      [left|right]; apply SFltb_rank; assumption.
  - intros x y Hx Hy. apply SFleb_negb_SFltb; assumption.
  - apply f32_ms_of_ns_not_nan.
Qed.

(** ** The rationals *)

Lemma Qltb_lt x y : Qltb x y = true <-> (x < y)%Q.
Proof.
  unfold Qltb. rewrite negb_true_iff, <- not_true_iff_false, Qle_bool_iff.
  split; [apply Qnot_le_lt|apply Qlt_not_le].
Qed.

Theorem exact_ordered : ordered exact always.
Proof.
  split; simpl.
  - intros x _. destruct (Qltb x x) eqn:E; [|reflexivity].
    apply Qltb_lt in E. exfalso. exact (Qlt_irrefl _ E).
  - intros x y z _ _ _ Hxy Hyz. apply Qltb_lt in Hxy, Hyz.
    apply Qltb_lt. exact (Qlt_trans _ _ _ Hxy Hyz).
  - intros x y z _ _ _ Hxz. apply Qltb_lt in Hxz.
    destruct (Qlt_le_dec x y) as [H|H].
    + left. apply Qltb_lt, H.
    + right. apply Qltb_lt. exact (Qle_lt_trans _ _ _ H Hxz).
  - intros x y _ _. unfold Qltb. rewrite negb_involutive. reflexivity.
  - intros count. exact I.
Qed.

End FloatOrder.

(** * Extremes *)

Section StatsFacts.
Context {A : arith} {ok : A -> Prop}.
Hypothesis O : ordered A ok.
Implicit Types (x y z : A) (l : list A) (g s : stats A).

Lemma leb_refl x : ok x -> leb x x = true.
Proof using O.
  intros Hx. rewrite (leb_not_ltb A ok O) by assumption.
  rewrite (ltb_irrefl A ok O) by assumption. reflexivity.
Qed.

Lemma ltb_asym x y : ok x -> ok y -> ltb x y = true -> ltb y x = false.
Proof using O.
  intros Hx Hy Hxy. destruct (ltb y x) eqn:E; [|reflexivity].
  pose proof (ltb_trans A ok O x y x Hx Hy Hx Hxy E) as Hxx.
  rewrite (ltb_irrefl A ok O) in Hxx by assumption. discriminate.
Qed.

Lemma ltb_leb x y : ok x -> ok y -> ltb x y = true -> leb x y = true.
Proof using O.
  intros Hx Hy Hxy. rewrite (leb_not_ltb A ok O) by assumption.
  rewrite (ltb_asym x y) by assumption. reflexivity.
Qed.

Lemma nltb_leb x y : ok x -> ok y -> ltb x y = false -> leb y x = true.
Proof using O.
  intros Hx Hy Hxy. rewrite (leb_not_ltb A ok O) by assumption.
  rewrite Hxy. reflexivity.
Qed.

Lemma leb_trans x y z :
  ok x -> ok y -> ok z -> leb x y = true -> leb y z = true -> leb x z = true.
Proof using O.
  intros Hx Hy Hz Hxy Hyz.
  rewrite (leb_not_ltb A ok O) in * by assumption.
  destruct (ltb z x) eqn:E; [|reflexivity].
  destruct (ltb_cotrans A ok O z y x Hz Hy Hx E) as [H|H]; rewrite H in *; discriminate.
Qed.

(** [std::max_element] returns an element that no element exceeds. *)
Lemma max_from_spec l : forall x,
  ok x -> Forall ok l ->
  ok (max_from x l) /\ max_from x l ∈ x :: l /\
  Forall (fun y => leb y (max_from x l) = true) (x :: l).
Proof using O.
  induction l as [|y l IH]; intros x Hx Hl; simpl.
  - split; [assumption|]. split; [left|]. repeat constructor. apply leb_refl, Hx.
  - inversion Hl as [|? ? Hy Hl']; subst.
    set (x' := if ltb x y then y else x).
    assert (ok x') as Hx' by (subst x'; destruct (ltb x y); assumption).
    assert (leb x x' = true /\ leb y x' = true /\ x' ∈ [x; y]) as (Hxx' & Hyx' & Hin).
    { subst x'. destruct (ltb x y) eqn:E.
      - split; [apply ltb_leb; assumption|]. split; [apply leb_refl, Hy|].
        right. left.
      - split; [apply leb_refl, Hx|]. split; [apply nltb_leb; assumption|]. left. }
    destruct (IH x' Hx' Hl') as (Hm & Hmem & Hall).
    split; [assumption|]. split.
    + apply elem_of_cons in Hmem as [->|Hmem].
      * apply elem_of_cons in Hin as [->|Hin]; [left|].
        apply list_elem_of_singleton in Hin as ->. right. left.
      * right. right. exact Hmem.
    + inversion Hall as [|? ? Hx'm Hrest]; subst.
      constructor; [exact (leb_trans x x' _ Hx Hx' Hm Hxx' Hx'm)|].
      constructor; [exact (leb_trans y x' _ Hy Hx' Hm Hyx' Hx'm)|assumption].
Qed.

(** [std::min_element] returns an element that exceeds no element. *)
Lemma min_from_spec l : forall x,
  ok x -> Forall ok l ->
  ok (min_from x l) /\ min_from x l ∈ x :: l /\
  Forall (fun y => leb (min_from x l) y = true) (x :: l).
Proof using O.
  induction l as [|y l IH]; intros x Hx Hl; simpl.
  - split; [assumption|]. split; [left|]. repeat constructor. apply leb_refl, Hx.
  - inversion Hl as [|? ? Hy Hl']; subst.
    set (x' := if ltb y x then y else x).
    assert (ok x') as Hx' by (subst x'; destruct (ltb y x); assumption).
    assert (leb x' x = true /\ leb x' y = true /\ x' ∈ [x; y]) as (Hxx' & Hyx' & Hin).
    { subst x'. destruct (ltb y x) eqn:E.
      - split; [apply ltb_leb; assumption|]. split; [apply leb_refl, Hy|].
        right. left.
      - split; [apply leb_refl, Hx|]. split; [apply nltb_leb; assumption|]. left. }
    destruct (IH x' Hx' Hl') as (Hm & Hmem & Hall).
    split; [assumption|]. split.
    + apply elem_of_cons in Hmem as [->|Hmem].
      * apply elem_of_cons in Hin as [->|Hin]; [left|].
        apply list_elem_of_singleton in Hin as ->. right. left.
      * right. right. exact Hmem.
    + inversion Hall as [|? ? Hx'm Hrest]; subst.
      constructor; [exact (leb_trans _ x' x Hm Hx' Hx Hx'm Hxx')|].
      constructor; [exact (leb_trans _ x' y Hm Hx' Hy Hx'm Hyx')|assumption].
Qed.

(** The extremes of a window are samples of it, the minimum below the
    maximum. *)
Lemma window_summary_extremes N (smp : Z -> A) i :
  (forall k, ok (smp k)) ->
  let s := window_summary N smp i in
  stats_ok ok s /\
  max_time s ∈ window_samples N smp i /\
  min_time s ∈ window_samples N smp i /\
  Forall (fun y => leb y (max_time s) = true) (window_samples N smp i) /\
  Forall (fun y => leb (min_time s) y = true) (window_samples N smp i) /\
  leb (min_time s) (max_time s) = true.
Proof using O.
  intros Hok. simpl. unfold window_samples.
  set (rest := map smp (seqZ (i - N + 1) (N - 1))).
  assert (Forall ok rest) as Hrest.
  { subst rest. apply Forall_forall. intros y Hy.
    apply list_elem_of_fmap in Hy as (k & -> & _). apply Hok. }
  destruct (max_from_spec rest (smp i) (Hok i) Hrest) as (Hm1 & Hm2 & Hm3).
  destruct (min_from_spec rest (smp i) (Hok i) Hrest) as (Hn1 & Hn2 & Hn3).
  repeat split; try assumption.
  rewrite Forall_forall in Hm3. apply Hm3, Hn2.
Qed.

(** ** Combining *)

Lemma combine_widens k g s :
  stats_ok ok g -> stats_ok ok s ->
  stats_ok ok (combine k g s) /\ widens g (combine k g s) /\ covers (combine k g s) s.
Proof using O.
  intros [Hg1 Hg2] [Hs1 Hs2]. unfold stats_ok, widens, covers, combine, gtb. simpl.
  destruct (ltb (max_time g) (max_time s)) eqn:E1;
  destruct (ltb (min_time s) (min_time g)) eqn:E2;
  repeat split; auto using leb_refl, ltb_leb, nltb_leb.
Qed.

Lemma widens_trans g1 g2 g3 :
  stats_ok ok g1 -> stats_ok ok g2 -> stats_ok ok g3 ->
  widens g1 g2 -> widens g2 g3 -> widens g1 g3.
Proof using O.
  intros [A1 B1] [A2 B2] [A3 B3] [X1 Y1] [X2 Y2]. split.
  - exact (leb_trans _ _ _ A1 A2 A3 X1 X2).
  - exact (leb_trans _ _ _ B3 B2 B1 Y2 Y1).
Qed.

Lemma covers_widens g g' s :
  stats_ok ok g -> stats_ok ok g' -> stats_ok ok s ->
  covers g s -> widens g g' -> covers g' s.
Proof using O.
  intros [A1 B1] [A2 B2] [A3 B3] [X1 Y1] [X2 Y2]. split.
  - exact (leb_trans _ _ _ A3 A1 A2 X1 X2).
  - exact (leb_trans _ _ _ B2 B1 B3 Y2 Y1).
Qed.

(** Every global report widens the statistics the combining started
    from. *)
Lemma combine_all_widens (ws : list (stats A)) : forall k g n g',
  stats_ok ok g -> Forall (stats_ok ok) ws ->
  combine_all k g ws !! n = Some g' ->
  stats_ok ok g' /\ widens g g'.
Proof using O.
  induction ws as [|s ws IH]; intros k g n g' Hg Hws Hn; simpl in Hn; [discriminate|].
  inversion Hws as [|? ? Hs Hws']; subst.
  destruct (combine_widens k g s Hg Hs) as (Hc & Hw & _).
  destruct n as [|n]; simpl in Hn.
  - injection Hn as <-. auto.
  - destruct (IH _ _ _ _ Hc Hws' Hn) as [Hg' Hw'].
    split; [assumption|]. exact (widens_trans _ _ _ Hg Hc Hg' Hw Hw').
Qed.

(** Successive global reports widen. *)
Lemma combine_all_step (ws : list (stats A)) : forall k g n g1 g2,
  stats_ok ok g -> Forall (stats_ok ok) ws ->
  (g :: combine_all k g ws) !! n = Some g1 ->
  (g :: combine_all k g ws) !! S n = Some g2 ->
  widens g1 g2.
Proof using O.
  induction ws as [|s ws IH]; intros k g n g1 g2 Hg Hws H1 H2; simpl in *.
  - destruct n; discriminate.
  - inversion Hws as [|? ? Hs Hws']; subst.
    destruct (combine_widens k g s Hg Hs) as (Hc & Hw & _).
    destruct n as [|n]; simpl in *.
    + injection H1 as <-. injection H2 as <-. exact Hw.
    + exact (IH _ _ n g1 g2 Hc Hws' H1 H2).
Qed.

(** A global report encloses every window reported up to it. *)
Lemma combine_all_covers (ws : list (stats A)) : forall k g j n s g',
  stats_ok ok g -> Forall (stats_ok ok) ws ->
  (j <= n)%nat -> ws !! j = Some s -> combine_all k g ws !! n = Some g' ->
  covers g' s.
Proof using O.
  induction ws as [|s0 ws IH]; intros k g j n s g' Hg Hws Hjn Hj Hn;
    simpl in *; [discriminate|].
  inversion Hws as [|? ? Hs0 Hws']; subst.
  destruct (combine_widens k g s0 Hg Hs0) as (Hc & _ & Hcov).
  destruct j as [|j]; simpl in Hj.
  - injection Hj as <-. destruct n as [|n]; simpl in Hn.
    + injection Hn as <-. exact Hcov.
    + destruct (combine_all_widens ws _ _ _ _ Hc Hws' Hn) as [Hg' Hw].
      exact (covers_widens _ _ _ Hc Hg' Hs0 Hcov Hw).
  - destruct n as [|n]; [lia|]. simpl in Hn.
    exact (IH _ _ j n s g' Hc Hws' ltac:(lia) Hj Hn).
Qed.

End StatsFacts.

(** * The constructor *)

Section ClientFacts.
Context {A : arith}.
Implicit Types (w : World A) (seg : Z -> Segment A) (st : loop_state A)
  (tr evs : list (event A)) (g : stats A).

Lemma store_fault name (v : list A) i x f :
  name <> "times_taken" -> snd (store name v i x) = inl f -> send_fault f.
Proof.
  intros Hn. unfold store. destruct (decide _); simpl; intros H; [discriminate|].
  injection H as <-. exact Hn.
Qed.

Lemma zero_fill_fault fuel : forall i (l : locals A) f,
  snd (zero_fill fuel i l) = inl f -> send_fault f.
Proof.
  induction fuel as [|fuel IH]; intros i l f; simpl; [discriminate|].
  unfold bind.
  destruct (store "joint_positions" _ _ _) as [e1 [f1|v1]] eqn:E1; simpl.
  { intros H. injection H as <-.
    apply (store_fault "joint_positions" (joint_positions l) i (of_int 0));
      [discriminate|rewrite E1; reflexivity]. }
  destruct (store "joint_velocities" _ _ _) as [e2 [f2|v2]] eqn:E2; simpl.
  { intros H. injection H as <-.
    apply (store_fault "joint_velocities" (joint_velocities l) i (of_int 0));
      [discriminate|rewrite E2; reflexivity]. }
  destruct (store "joint_torques_measured" _ _ _) as [e3 [f3|v3]] eqn:E3; simpl.
  { intros H. injection H as <-.
    apply (store_fault "joint_torques_measured" (joint_torques_measured l) i (of_int 0));
      [discriminate|rewrite E3; reflexivity]. }
  destruct (store "joint_torques_external" _ _ _) as [e4 [f4|v4]] eqn:E4; simpl.
  { intros H. injection H as <-.
    apply (store_fault "joint_torques_external" (joint_torques_external l) i (of_int 0));
      [discriminate|rewrite E4; reflexivity]. }
  match goal with |- context [zero_fill fuel ?j ?m] =>
    specialize (IH j m f); destruct (zero_fill fuel j m) as [e5 r5] end.
  simpl in *. exact IH.
Qed.

Lemma SendCommand_fault w (sg : Segment A) nd i evs f :
  SendCommand w sg nd i = (evs, inl f) -> send_fault f.
Proof.
  unfold SendCommand.
  destruct (timestamps sg !! "shm_timestamp"); simpl;
    [|intros H; injection H as _ <-; exact I].
  destruct (vectors sg !! "joint_positions"); simpl;
    [|intros H; injection H as _ <-; exact I].
  destruct (vectors sg !! "joint_velocities"); simpl;
    [|intros H; injection H as _ <-; exact I].
  destruct (vectors sg !! "joint_torques_measured"); simpl;
    [|intros H; injection H as _ <-; exact I].
  destruct (vectors sg !! "joint_torques_external"); simpl;
    [|intros H; injection H as _ <-; exact I].
  match goal with |- context [zero_fill ?fu ?j ?m] =>
    pose proof (zero_fill_fault fu j m) as Hz;
    destruct (zero_fill fu j m) as [e [f0|l']] end; simpl in *.
  - intros H. injection H as _ <-. apply Hz. reflexivity.
  - destruct (ControlUpdate_ok w i); simpl; discriminate.
Qed.

(** What every run looks like: [m] rounds ran to their end, and the
    trace and the final state are those of [m] rounds. *)
Lemma run_structure N w nd n :
  0 < N ->
  let r := TestGrpcClient_with N w nd n in
  exists m,
    0 <= m <= Z.max 0 n /\
    window_reports (trace r) = map (window_summary N (sample w)) (closure_rounds N m) /\
    global_reports (trace r) = combine_all 1 initial_global (window_reports (trace r)) /\
    warnings (trace r) =
      List.filter (fun x => gtb x (of_int 1)) (map (sample w) (seqZ 0 m)) /\
    global (final r) = List.last (global_reports (trace r)) initial_global /\
    buffer_inv N (sample w) m (times_taken (final r)) /\
    Forall (fun s => s = RobotState_default) (control_updates (trace r)) /\
    (exit r = Finished -> m = Z.max 0 n) /\
    exit r <> Aborted EmptyRange /\
    exit r <> Aborted (VectorIndex "times_taken").
Proof.
  intros HN. cbv zeta. unfold TestGrpcClient_with.
  assert (closure_rounds N 0 = []) as Hc0.
  { unfold closure_rounds. rewrite seqZ_nil; [reflexivity|].
    assert ((0 - 1) / N < 0) by (apply Z.div_lt_upper_bound; lia). lia. }
  assert (forall f tr0,
    window_reports tr0 = [] -> global_reports tr0 = [] -> warnings tr0 = [] ->
    control_updates tr0 = [] ->
    f <> EmptyRange -> f <> VectorIndex "times_taken" ->
    let r := {| final := @initial_state A; trace := tr0; exit := Aborted f |} in
    exists m,
      0 <= m <= Z.max 0 n /\
      window_reports (trace r) = map (window_summary N (sample w)) (closure_rounds N m) /\
      global_reports (trace r) = combine_all 1 initial_global (window_reports (trace r)) /\
      warnings (trace r) =
        List.filter (fun x => gtb x (of_int 1)) (map (sample w) (seqZ 0 m)) /\
      global (final r) = List.last (global_reports (trace r)) initial_global /\
      buffer_inv N (sample w) m (times_taken (final r)) /\
      Forall (fun s => s = RobotState_default) (control_updates (trace r)) /\
      (exit r = Finished -> m = Z.max 0 n) /\
      exit r <> Aborted EmptyRange /\
      exit r <> Aborted (VectorIndex "times_taken")) as Hstart.
  { intros f tr0 H1 H2 H3 H4 H5 H6. exists 0. simpl.
    rewrite H1, H2, H3, H4, Hc0.
    split; [lia|]. do 4 (split; [reflexivity|]).
    split; [apply buffer_inv_start|]. split; [constructor|].
    split; [discriminate|]. split; congruence. }
  destruct (metadata_file w) as [bytes|];
    [|apply Hstart; reflexivity || discriminate].
  destruct (ParseFromString w bytes) as [md|];
    [|apply Hstart; reflexivity || discriminate].
  destruct (InitRobotClient_ok w md);
    [|apply Hstart; reflexivity || discriminate].
  destruct (shared_memory w) as [seg|];
    [|apply Hstart; reflexivity || discriminate].
  clear Hstart. simpl.
  pose proof (loop_cases N w seg nd (Z.to_nat n) HN) as Hcases. cbv zeta in Hcases.
  set (r := loop N w seg nd (Z.to_nat n) 0 initial_state) in *.
  assert (forall m tr_k extra,
    reach N w seg nd m (final r) tr_k ->
    trace r = tr_k ++ extra ->
    window_reports extra = [] -> global_reports extra = [] -> warnings extra = [] ->
    Forall (fun s => s = RobotState_default) (control_updates extra) ->
    window_reports (RpcInitRobotClient md :: trace r)
      = map (window_summary N (sample w)) (closure_rounds N m) /\
    global_reports (RpcInitRobotClient md :: trace r)
      = combine_all 1 initial_global (window_reports (RpcInitRobotClient md :: trace r)) /\
    warnings (RpcInitRobotClient md :: trace r) =
      List.filter (fun x => gtb x (of_int 1)) (map (sample w) (seqZ 0 m)) /\
    global (final r)
      = List.last (global_reports (RpcInitRobotClient md :: trace r)) initial_global /\
    buffer_inv N (sample w) m (times_taken (final r)) /\
    Forall (fun s => s = RobotState_default)
      (control_updates (RpcInitRobotClient md :: trace r))) as Hmain.
  { intros m tr_k extra Hr Ht E1 E2 E3 E4.
    change (window_reports (RpcInitRobotClient md :: trace r)) with (window_reports (trace r)).
    change (global_reports (RpcInitRobotClient md :: trace r)) with (global_reports (trace r)).
    change (warnings (RpcInitRobotClient md :: trace r)) with (warnings (trace r)).
    change (control_updates (RpcInitRobotClient md :: trace r))
      with (control_updates (trace r)).
    rewrite Ht, window_reports_app, global_reports_app, warnings_app,
      control_updates_app, E1, E2, E3, !app_nil_r.
    destruct (reach_globals N w seg nd m _ tr_k HN Hr) as [G1 G2].
    destruct (reach_requests N w seg nd m _ tr_k HN Hr) as [_ R2].
    destruct (reach_buffer N w seg nd m _ tr_k HN Hr) as [_ B].
    split; [exact (reach_windows N w seg nd m _ tr_k HN Hr)|].
    split; [assumption|].
    split; [exact (reach_warnings N w seg nd m _ tr_k HN Hr)|].
    split; [assumption|]. split; [assumption|].
    apply Forall_app. split; [|assumption].
    rewrite R2. apply Forall_forall. intros x Hx.
    apply elem_of_replicate in Hx as [-> _]. reflexivity. }
  destruct Hcases as [[He Hr]|(k & tr_k & f & Hk & Hr & He & Hsend)].
  - exists (Z.of_nat (Z.to_nat n)).
    destruct (Hmain _ (trace r) [] Hr) as (M1 & M2 & M3 & M4 & M5 & M6);
      try reflexivity; [rewrite app_nil_r; reflexivity|constructor|].
    split; [lia|]. do 6 (split; [assumption|]).
    split; [lia|]. rewrite He. split; discriminate.
  - exists k. destruct Hsend as [[Hs Ht]|(Hs & -> & Ht)].
    + destruct (Hmain _ tr_k [] Hr) as (M1 & M2 & M3 & M4 & M5 & M6);
        try reflexivity; [rewrite app_nil_r; exact Ht|constructor|].
      pose proof (SendCommand_fault _ _ _ _ _ _ Hs) as Hf.
      split; [lia|]. do 6 (split; [assumption|]).
      rewrite He. split; [discriminate|].
      split; intros E; injection E as ->; simpl in Hf; [contradiction|].
      apply Hf. reflexivity.
    + destruct (Hmain _ tr_k _ Hr Ht) as (M1 & M2 & M3 & M4 & M5 & M6);
        try reflexivity; [repeat constructor|].
      split; [lia|]. do 6 (split; [assumption|]).
      rewrite He. split; [discriminate|]. split; discriminate.
Qed.

End ClientFacts.

(** * Healthy runs and runs that differ in one collaborator *)

Section WorldFacts.
Context {A : arith}.
Implicit Types (w : World A) (seg : Z -> Segment A) (st : loop_state A)
  (tr evs : list (event A)).

(** The region a world carries plays no part in the loop itself: the
    loop works on the segment it was handed. *)
Lemma loop_with_region N w s seg nd rounds : forall i st,
  loop N (with_region w s) seg nd rounds i st = loop N w seg nd rounds i st.
Proof.
  induction rounds as [|rounds IH]; intros i st; simpl; [reflexivity|].
  change (body N (with_region w s) seg nd i st) with (body N w seg nd i st).
  destruct (body N w seg nd i st); [rewrite IH|]; reflexivity.
Qed.

(** While the fields are well-formed and the server answers with
    success, the loop runs all its rounds. *)
Lemma loop_finishes N w seg nd rounds :
  0 < N ->
  (forall i, 0 <= i < Z.of_nat rounds ->
     fields_ok (seg i) nd /\ ControlUpdate_ok w i = true) ->
  exit (loop N w seg nd rounds 0 initial_state) = Finished.
Proof.
  intros HN Hok.
  destruct (loop_cases N w seg nd rounds HN)
    as [[He _]|(k & tr_k & f & Hk & _ & _ & Hsend)]; [exact He|].
  destruct (Hok k Hk) as [Hf Hc].
  pose proof (SendCommand_ok w (seg k) nd k Hf) as Hs. rewrite Hc in Hs.
  destruct Hsend as [[Hs' _]|(Hs' & _)]; rewrite Hs in Hs'; discriminate.
Qed.

Lemma healthy_finishes N w nd n :
  0 < N -> healthy w nd n -> exit (TestGrpcClient_with N w nd n) = Finished.
Proof.
  intros HN (bytes & md & seg & H1 & H2 & H3 & H4 & Hok).
  unfold TestGrpcClient_with. rewrite H1, H2, H3, H4. simpl.
  apply loop_finishes; [assumption|]. intros i Hi. apply Hok. lia.
Qed.

(** The rounds in which a window closed before round [m]. *)
Lemma closure_rounds_elem N m i :
  0 < N -> i ∈ closure_rounds N m <-> 0 < i < m /\ i mod N = 0.
Proof.
  intros HN. unfold closure_rounds. rewrite list_elem_of_fmap. split.
  - intros (k & -> & Hk). apply elem_of_seqZ in Hk.
    assert (k <= (m - 1) / N) as Hle by lia.
    assert (N * ((m - 1) / N) <= m - 1) by (apply Z.mul_div_le; lia).
    split; [nia|]. apply Z.mod_mul. lia.
  - intros [Hi Hm]. exists (i / N).
    pose proof (Z.div_mod i N ltac:(lia)) as Hd. rewrite Hm in Hd.
    split; [lia|]. apply elem_of_seqZ.
    assert (0 < i / N) by nia.
    assert (i / N <= (m - 1) / N) by (apply Z.div_le_mono; lia).
    lia.
Qed.

End WorldFacts.

(** * Startup and the shared-memory fields *)

Ltac concrete_fields :=
  repeat match goal with
  | |- _ /\ _ => split
  | |- is_Some _ => eexists; reflexivity
  | |- has_vector _ _ _ => eexists; split; [reflexivity|simpl; lia]
  end.

(** C1, as stated, fails: with the region absent a request has reached the
    RPC boundary all the same, the [InitRobotClient] request that the
    constructor issues before it opens the region. The same holds with the
    region present and the field [joint_velocities] absent; and when no
    round is asked for, that run ends normally, the field never being
    looked up. *)
Lemma C1_init_request_precedes_region :
  region_or_field_absent no_region_world /\
  requests (trace (TestGrpcClient (A:=binary32) no_region_world 7 100))
    = [RpcInitRobotClient {| metadata_bytes := "franka" |}] /\
  exit (TestGrpcClient (A:=binary32) no_region_world 7 100) = Aborted OpenSharedMemory /\
  requests
    (trace (TestGrpcClient (A:=binary32)
              (with_region steady_world (fun _ => segment_without_velocities 7)) 7 100))
    = [RpcInitRobotClient {| metadata_bytes := "franka" |}] /\
  exit (TestGrpcClient (A:=binary32)
          (with_region steady_world (fun _ => segment_without_velocities 7)) 7 0)
    = Finished.
Proof.
  split; [exact I|]. split; [reflexivity|]. split; [reflexivity|].
  split; vm_compute; reflexivity.
Qed.

(** C1, amended: when the region or one of the five named fields is absent
    at startup, no [ControlUpdate] request reaches the RPC boundary. The
    one [InitRobotClient] request is issued whenever the metadata loads and
    parses, since it precedes the opening of the region, and nothing is
    issued otherwise. The run ends normally only if the region exists and
    no round is asked for. *)
Theorem C1_absent_field_no_control_update (A : arith) (w : World A) (nd n : Z) :
  region_or_field_absent w ->
  let r := TestGrpcClient w nd n in
  control_updates (trace r) = [] /\
  (forall bytes md,
      metadata_file w = Some bytes -> ParseFromString w bytes = Some md ->
      requests (trace r) = [RpcInitRobotClient md]) /\
  (metadata_file w = None \/
   (exists bytes, metadata_file w = Some bytes /\ ParseFromString w bytes = None) ->
   requests (trace r) = []) /\
  (exit r = Finished -> shared_memory w <> None /\ n <= 0).
Proof.
  unfold region_or_field_absent, TestGrpcClient, TestGrpcClient_with.
  intros Habs. cbv zeta.
  assert (forall seg, ~ fields_present (seg 0) ->
            trace (loop log_iters w seg nd (Z.to_nat n) 0 initial_state) = [] /\
            (exit (loop log_iters w seg nd (Z.to_nat n) 0 initial_state) = Finished ->
             n <= 0)) as Hloop.
  { intros seg Hseg. destruct (Z.to_nat n) as [|rounds] eqn:Hn; simpl.
    - split; [reflexivity|lia].
    - apply (SendCommand_null_iff w (seg 0) nd 0) in Hseg as [name Hname].
      unfold body.
      destruct (SendCommand_shape w (seg 0) nd 0) as [[f Hs]|[[Hs _]|[Hs _]]];
        rewrite Hs in *; simpl in Hname; try discriminate.
      simpl. split; [reflexivity|discriminate]. }
  destruct (metadata_file w) as [bytes|]; simpl.
  2:{ split; [reflexivity|]. split; [discriminate|]. split; [reflexivity|discriminate]. }
  destruct (ParseFromString w bytes) as [md|] eqn:Hp; simpl.
  2:{ split; [reflexivity|]. split; [intros b m Hb; injection Hb as <-; congruence|].
      split; [reflexivity|discriminate]. }
  assert (forall P : Prop,
    Some bytes = None \/ (exists b, Some bytes = Some b /\ ParseFromString w b = None) -> P)
    as Hnone.
  { intros P [H|(b & Hb & Hn)]; [discriminate|]. injection Hb as <-. congruence. }
  assert (forall b m, Some bytes = Some b -> ParseFromString w b = Some m -> m = md)
    as Hsome.
  { intros b m Hb Hm. injection Hb as <-. congruence. }
  destruct (InitRobotClient_ok w md); simpl.
  2:{ split; [reflexivity|].
      split; [intros b m Hb Hm; rewrite (Hsome b m Hb Hm); reflexivity|].
      split; [apply Hnone|discriminate]. }
  destruct (shared_memory w) as [seg|]; simpl.
  2:{ split; [reflexivity|].
      split; [intros b m Hb Hm; rewrite (Hsome b m Hb Hm); reflexivity|].
      split; [apply Hnone|discriminate]. }
  destruct (Hloop seg Habs) as [Ht He]. rewrite Ht.
  split; [reflexivity|].
  split; [intros b m Hb Hm; rewrite (Hsome b m Hb Hm); reflexivity|].
  split; [apply Hnone|]. intros Hfin. split; [discriminate|auto].
Qed.

Lemma C1_absent_field_witness :
  region_or_field_absent
    (with_region steady_world (fun _ => segment_without_velocities 7)) /\
  control_updates
    (trace (TestGrpcClient (A:=binary32)
              (with_region steady_world (fun _ => segment_without_velocities 7)) 7 100))
    = [].
Proof.
  assert (region_or_field_absent
            (with_region steady_world (fun _ => segment_without_velocities 7))) as H.
  { simpl. intros (_ & _ & [v Hv] & _). vm_compute in Hv. discriminate. }
  split; [exact H|].
  exact (proj1 (C1_absent_field_no_control_update binary32 _ 7 100 H)).
Defined.

(** C10: [SendCommand] dereferences what the five lookups return without a
    check, so it meets a null pointer whenever a named field is absent;
    when the five named fields exist no dereference is of a null pointer,
    in a single call and in a whole run. *)
Theorem C10_fields_present_no_null_deref (A : arith) (w : World A) (nd : Z) :
  (forall sg i, ~ fields_present sg ->
     exists name, SendCommand w sg nd i = ([], inl (NullDeref name))) /\
  (forall sg i name, fields_present sg ->
     snd (SendCommand w sg nd i) <> inl (NullDeref name)) /\
  (forall n seg name,
     shared_memory w = Some seg ->
     (forall i, 0 <= i < n -> fields_present (seg i)) ->
     exit (TestGrpcClient w nd n) <> Aborted (NullDeref name)).
Proof.
  split; [|split].
  - intros sg i Habs.
    apply (SendCommand_null_iff w sg nd i) in Habs as [name Hname].
    exists name.
    destruct (SendCommand_shape w sg nd i) as [[f Hs]|[[Hs _]|[Hs _]]];
      rewrite Hs in *; simpl in Hname; try discriminate.
    congruence.
  - intros sg i name Hp Hs.
    assert (~ fields_present sg) as Habs
      by (apply (SendCommand_null_iff w sg nd i); eauto).
    contradiction.
  - intros n seg name Hseg Hp.
    unfold TestGrpcClient, TestGrpcClient_with.
    destruct (metadata_file w) as [bytes|]; simpl; [|discriminate].
    destruct (ParseFromString w bytes) as [md|]; simpl; [|discriminate].
    destruct (InitRobotClient_ok w md); simpl; [|discriminate].
    rewrite Hseg. simpl.
    destruct (loop_cases log_iters w seg nd (Z.to_nat n) ltac:(unfold log_iters; lia))
      as [[He _]|(k & tr_k & f & Hk & _ & He & Hsend)]; rewrite He; [discriminate|].
    intros E. injection E as ->.
    destruct Hsend as [[Hs _]|(_ & Hf & _)]; [|discriminate].
    assert (~ fields_present (seg k)) as Habs.
    { apply (SendCommand_null_iff w (seg k) nd k). exists name. rewrite Hs. reflexivity. }
    apply Habs, Hp. lia.
Qed.

Lemma C10_fields_present_witness :
  shared_memory steady_world = Some (fun _ => robot_segment 7) /\
  (forall i, 0 <= i < 3 -> fields_present (robot_segment 7)) /\
  exit (TestGrpcClient (A:=binary32) steady_world 7 3)
    <> Aborted (NullDeref "joint_positions").
Proof.
  assert (forall i : Z, 0 <= i < 3 -> fields_present (robot_segment 7)) as H
    by (intros i _; unfold fields_present; concrete_fields).
  split; [reflexivity|]. split; [exact H|].
  exact (proj2 (proj2 (C10_fields_present_no_null_deref binary32 steady_world 7))
           3 (fun _ => robot_segment 7) "joint_positions" eq_refl H).
Defined.

(** C9: the [ControlUpdate] request of every round carries the
    default-constructed [RobotState]; two runs that differ only in the
    contents of the shared-memory region, well-formed in both, are the same
    run, request for request. *)
Theorem C9_request_independent_of_region (A : arith) (w : World A) (nd n : Z) :
  Forall (fun s => s = RobotState_default)
    (control_updates (trace (TestGrpcClient w nd n))) /\
  (forall seg1 seg2,
     (forall i, 0 <= i < n -> fields_ok (seg1 i) nd /\ fields_ok (seg2 i) nd) ->
     TestGrpcClient (with_region w seg1) nd n = TestGrpcClient (with_region w seg2) nd n /\
     requests (trace (TestGrpcClient (with_region w seg1) nd n))
       = requests (trace (TestGrpcClient (with_region w seg2) nd n))).
Proof.
  split.
  - destruct (run_structure log_iters w nd n ltac:(unfold log_iters; lia))
      as (m & _ & _ & _ & _ & _ & _ & H & _). exact H.
  - intros seg1 seg2 Hok.
    assert (TestGrpcClient (with_region w seg1) nd n
            = TestGrpcClient (with_region w seg2) nd n) as E; [|rewrite E; auto].
    unfold TestGrpcClient, TestGrpcClient_with. simpl.
    destruct (metadata_file w) as [bytes|]; [|reflexivity].
    destruct (ParseFromString w bytes) as [md|]; [|reflexivity].
    destruct (InitRobotClient_ok w md); [|reflexivity].
    rewrite !loop_with_region.
    rewrite (loop_same_sends log_iters w seg1 seg2 nd (Z.to_nat n) 0 initial_state);
      [reflexivity|].
    intros k Hk. destruct (Hok k ltac:(lia)) as [H1 H2].
    rewrite !SendCommand_ok by assumption. reflexivity.
Qed.

Lemma C9_request_independent_witness :
  (forall i, 0 <= i < 3 ->
     fields_ok (robot_segment 7) 7 /\ fields_ok (robot_segment 9) 7) /\
  requests (trace (TestGrpcClient (A:=binary32)
                     (with_region steady_world (fun _ => robot_segment 7)) 7 3))
  = requests (trace (TestGrpcClient (A:=binary32)
                       (with_region steady_world (fun _ => robot_segment 9)) 7 3)).
Proof.
  assert (forall i : Z, 0 <= i < 3 ->
            fields_ok (robot_segment 7) 7 /\ fields_ok (robot_segment 9) 7) as H
    by (intros i _; unfold fields_ok; concrete_fields).
  split; [exact H|].
  exact (proj2 (proj2 (C9_request_independent_of_region binary32 steady_world 7 3)
                  (fun _ => robot_segment 7) (fun _ => robot_segment 9) H)).
Defined.

(** * A failing round *)

(** C5: when the round trip of round [k] reports non-success, the run is
    the run of [k] rounds followed by the one failed request and the line
    that reports it, and it ends there: the state is the one [k] rounds
    leave (no sample of round [k] in the buffer), nothing is reported after
    the request, and the request is not repeated. *)
Theorem C5_failure_ends_run (A : arith) (w : World A) (nd n k : Z)
    (seg : Z -> Segment A) :
  healthy w nd k ->
  shared_memory w = Some seg ->
  fields_ok (seg k) nd ->
  ControlUpdate_ok w k = false ->
  0 <= k < n ->
  let r := TestGrpcClient w nd n in
  let r_k := TestGrpcClient w nd k in
  exit r_k = Finished /\
  exit r = Aborted AssertSendCommand /\
  final r = final r_k /\
  trace r = trace r_k ++ [RpcControlUpdate RobotState_default; OutSendCommandFailed] /\
  length (times_taken (final r)) = Z.to_nat (Z.min k log_iters) /\
  length (control_updates (trace r)) = Z.to_nat (k + 1).
Proof.
  intros (bytes & md & seg' & H1 & H2 & H3 & H4 & Hok) Hseg Hfk Hck Hk.
  rewrite Hseg in H4. injection H4 as <-.
  assert (0 < log_iters) as HN by (unfold log_iters; lia).
  cbv zeta. unfold TestGrpcClient, TestGrpcClient_with.
  rewrite H1, H2, H3, Hseg. simpl.
  pose proof (loop_cases log_iters w seg nd (Z.to_nat k) HN) as Hcases.
  cbv zeta in Hcases.
  replace (Z.to_nat n) with (Z.to_nat k + S (Z.to_nat (n - k - 1)))%nat by lia.
  rewrite loop_app. cbv zeta.
  remember (loop log_iters w seg nd (Z.to_nat k) 0 initial_state) as r1 eqn:Er1.
  assert (exit r1 = Finished) as He1.
  { rewrite Er1. apply loop_finishes; [assumption|]. intros i Hi. apply Hok. lia. }
  rewrite He1. simpl.
  replace (0 + Z.of_nat (Z.to_nat k)) with k by lia.
  unfold body. rewrite (SendCommand_ok w (seg k) nd k Hfk), Hck. simpl.
  destruct Hcases as [[_ Hr]|(j & tr_j & f & _ & _ & He & _)]; [|congruence].
  replace (Z.of_nat (Z.to_nat k)) with k in Hr by lia.
  destruct (reach_buffer log_iters w seg nd k _ _ HN Hr) as [_ [Hlen _]].
  destruct (reach_requests log_iters w seg nd k _ _ HN Hr) as [_ Hcu].
  do 4 (split; [reflexivity|]). split; [exact Hlen|].
  rewrite control_updates_app, Hcu, length_app, length_replicate. simpl. lia.
Qed.

Lemma C5_failure_witness :
  healthy failing_world 7 5 /\
  exit (TestGrpcClient (A:=binary32) failing_world 7 100) = Aborted AssertSendCommand /\
  length (control_updates (trace (TestGrpcClient (A:=binary32) failing_world 7 100)))
    = 6%nat.
Proof.
  assert (healthy failing_world 7 5) as H.
  { exists "franka", {| metadata_bytes := "franka" |}, (fun _ => robot_segment 7).
    do 4 (split; [reflexivity|]). intros i Hi. split.
    - unfold fields_ok. concrete_fields.
    - simpl. destruct (Z.eqb_spec i 5); [lia|reflexivity]. }
  assert (fields_ok (robot_segment 7) 7) as Hf by (unfold fields_ok; concrete_fields).
  pose proof (C5_failure_ends_run binary32 failing_world 7 100 5
                (fun _ => robot_segment 7) H eq_refl Hf eq_refl ltac:(lia)) as HC.
  cbv zeta in HC. destruct HC as (_ & He & _ & _ & _ & Hc).
  split; [exact H|]. split; [exact He|exact Hc].
Defined.

(** * Windows *)

Lemma closure_rounds_none (N m : Z) : 0 < N -> m <= N -> closure_rounds N m = [].
Proof.
  intros HN Hm. unfold closure_rounds. rewrite seqZ_nil; [reflexivity|].
  assert ((m - 1) / N < 1) by (apply Z.div_lt_upper_bound; lia). lia.
Qed.

Lemma closure_rounds_max (N n : Z) :
  0 < N -> closure_rounds N (Z.max 0 n) = closure_rounds N n.
Proof.
  intros HN. destruct (Z.le_gt_cases 0 n) as [H|H].
  - rewrite Z.max_r by lia. reflexivity.
  - rewrite Z.max_l by lia. rewrite !closure_rounds_none by lia. reflexivity.
Qed.

(** C2: every window report is the statistics of the source over the
    buffer as it stands at a closure, which holds exactly the samples of
    the [N] most recent rounds, [i - N + 1] through [i]: [min (i+1) N = N]
    of them, none missing, none left from an earlier wrap. The run never
    dereferences the end of an empty buffer nor reads a slot that was not
    written. *)
Theorem C2_window_over_latest_samples (A : arith) (N : Z) (w : World A) (nd n : Z) :
  0 < N ->
  let r := TestGrpcClient_with N w nd n in
  (exists m,
      0 <= m <= Z.max 0 n /\
      (exit r = Finished -> m = Z.max 0 n) /\
      window_reports (trace r)
        = map (window_summary N (sample w)) (closure_rounds N m) /\
      (forall i, i ∈ closure_rounds N m <-> 0 < i < m /\ i mod N = 0) /\
      length (times_taken (final r)) = Z.to_nat (Z.min m N)) /\
  (forall i, 0 < i -> i mod N = 0 ->
      window_stats N (window_samples N (sample w) i)
        = inr (window_summary N (sample w) i) /\
      window_samples N (sample w) i ≡ₚ map (sample w) (seqZ (i - N + 1) N) /\
      Z.of_nat (length (window_samples N (sample w) i)) = Z.min (i + 1) N) /\
  exit r <> Aborted EmptyRange /\
  exit r <> Aborted (VectorIndex "times_taken").
Proof.
  intros HN. cbv zeta.
  destruct (run_structure N w nd n HN)
    as (m & Hm & Hw & _ & _ & _ & [Hlen _] & _ & Hfin & He1 & He2).
  split; [|split; [|split; assumption]].
  - exists m. split; [assumption|]. split; [assumption|]. split; [assumption|].
    split; [|assumption]. intros i. apply closure_rounds_elem, HN.
  - intros i Hi Hmod.
    split; [apply window_stats_at_close, HN|].
    split; [apply window_samples_perm, HN|].
    rewrite window_samples_length by assumption.
    assert (N <= i).
    { pose proof (Z.div_mod i N ltac:(lia)). assert (0 < i / N) by nia. nia. }
    lia.
Qed.

Lemma C2_window_witness :
  0 < log_iters /\
  exit (TestGrpcClient (A:=binary32) steady_world 7 3001)
    <> Aborted (VectorIndex "times_taken").
Proof.
  assert (0 < log_iters) as H by (unfold log_iters; lia).
  split; [exact H|].
  exact (proj2 (proj2 (proj2
    (C2_window_over_latest_samples binary32 log_iters steady_world 7 3001 H)))).
Defined.

(** C4: a window closes in round [i] exactly when [i > 0] and
    [i mod 3000 = 0]. A run of 3000 rounds reports no window and combines
    nothing: the global statistics are as initialized. A run of 3001 rounds
    that meets no obstacle reports exactly one window, the one that closes
    in round 3000, and combines once. In general the windows of a run of
    [n] rounds are those of the positive multiples of 3000 below [n]. *)
Theorem C4_window_closes_at_multiples (A : arith) (w : World A) (nd : Z) :
  (let r := TestGrpcClient w nd 3000 in
   window_reports (trace r) = [] /\
   global_reports (trace r) = [] /\
   global (final r) = initial_global) /\
  (healthy w nd 3001 ->
   let r := TestGrpcClient w nd 3001 in
   exit r = Finished /\
   window_reports (trace r) = [window_summary log_iters (sample w) 3000] /\
   global_reports (trace r)
     = [combine 1 initial_global (window_summary log_iters (sample w) 3000)]) /\
  (forall n, healthy w nd n ->
   let r := TestGrpcClient w nd n in
   exit r = Finished /\
   window_reports (trace r)
     = map (window_summary log_iters (sample w)) (closure_rounds log_iters n) /\
   length (global_reports (trace r)) = length (window_reports (trace r)) /\
   (forall i, i ∈ closure_rounds log_iters n <-> 0 < i < n /\ i mod log_iters = 0)).
Proof.
  assert (0 < log_iters) as HN by (unfold log_iters; lia).
  assert (forall n, healthy w nd n ->
    exit (TestGrpcClient w nd n) = Finished /\
    window_reports (trace (TestGrpcClient w nd n))
      = map (window_summary log_iters (sample w)) (closure_rounds log_iters n) /\
    global_reports (trace (TestGrpcClient w nd n))
      = combine_all 1 initial_global (window_reports (trace (TestGrpcClient w nd n))))
    as Hgen.
  { intros n Hh. pose proof (healthy_finishes log_iters w nd n HN Hh) as He.
    destruct (run_structure log_iters w nd n HN)
      as (m & _ & Hw & Hg & _ & _ & _ & _ & Hfin & _).
    fold (TestGrpcClient w nd n) in *.
    rewrite (Hfin He), closure_rounds_max in Hw by assumption. auto. }
  split; [|split].
  - cbv zeta.
    destruct (run_structure log_iters w nd 3000 HN)
      as (m & Hm & Hw & Hg & _ & Hgl & _).
    fold (TestGrpcClient w nd 3000) in *.
    rewrite closure_rounds_none in Hw by (unfold log_iters in *; lia).
    simpl in Hw. rewrite Hw in Hg. simpl in Hg. rewrite Hg in Hgl.
    auto.
  - intros Hh. cbv zeta. destruct (Hgen 3001 Hh) as (He & Hw & Hg).
    assert (closure_rounds log_iters 3001 = [3000]) as Hc by reflexivity.
    rewrite Hc in Hw. simpl in Hw. rewrite Hw in Hg. simpl in Hg. auto.
  - intros n Hh. cbv zeta. destruct (Hgen n Hh) as (He & Hw & Hg).
    split; [assumption|]. split; [assumption|].
    split; [rewrite Hg; apply combine_all_length|].
    intros i. apply closure_rounds_elem, HN.
Qed.

Lemma C4_window_closes_witness :
  healthy steady_world 7 3001 /\
  length (window_reports (trace (TestGrpcClient (A:=binary32) steady_world 7 3000))) = 0%nat /\
  length (window_reports (trace (TestGrpcClient (A:=binary32) steady_world 7 3001))) = 1%nat.
Proof.
  assert (healthy steady_world 7 3001) as H.
  { exists "franka", {| metadata_bytes := "franka" |}, (fun _ => robot_segment 7).
    do 4 (split; [reflexivity|]). intros i Hi. split; [|reflexivity].
    unfold fields_ok. concrete_fields. }
  destruct (C4_window_closes_at_multiples binary32 steady_world 7) as (H0 & H1 & _).
  cbv zeta in H0, H1.
  destruct H0 as (W0 & _). destruct (H1 H) as (_ & W1 & _).
  split; [exact H|]. split; [rewrite W0|rewrite W1]; reflexivity.
Defined.

(** * The running mean *)

Lemma avg_combine_all (A : arith) (ws : list (stats A)) : forall k (g : stats A),
  map avg_time (combine_all k g ws)
    = running_means A k (avg_time g) (map avg_time ws).
Proof.
  induction ws as [|s ws IH]; intros k g; simpl; [reflexivity|].
  rewrite IH. reflexivity.
Qed.

Lemma inject_Z_pred (k : Z) : (inject_Z (k - 1) == inject_Z k - 1)%Q.
Proof. unfold Qeq, Qminus, Qplus, Qopp, inject_Z. simpl. lia. Qed.

Lemma inject_Z_succ (k : Z) : (inject_Z (k + 1) == inject_Z k + 1)%Q.
Proof. unfold Qeq, Qplus, inject_Z. simpl. lia. Qed.

Lemma inject_Z_nonzero (k : Z) : 1 <= k -> ~ (inject_Z k == 0)%Q.
Proof. intros Hk. unfold Qeq, inject_Z. simpl. lia. Qed.

(** In exact arithmetic the update of the source is the update the
    specification words. *)
Lemma running_means_spec (ms : list Q) : forall k (g g' : Q),
  1 <= k -> (g == g')%Q ->
  Forall2 Qeq (running_means exact k g ms) (spec_running_means k g' ms).
Proof.
  induction ms as [|m ms IH]; intros k g g' Hk Hg; simpl; [constructor|].
  assert ((inject_Z (k - 1) * g + m) / inject_Z k
          == (inject_Z k - 1) / inject_Z k * g' + m / inject_Z k)%Q as Hstep.
  { rewrite inject_Z_pred, Hg. field. apply inject_Z_nonzero, Hk. }
  constructor; [exact Hstep|]. apply IH; [lia|exact Hstep].
Qed.

(** In exact arithmetic the running mean is the arithmetic mean of the
    window means so far. *)
Lemma running_means_arithmetic (ms : list Q) : forall k (g sum : Q),
  1 <= k -> (inject_Z (k - 1) * g == sum)%Q ->
  Forall2 Qeq (running_means exact k g ms) (arithmetic_means k sum ms).
Proof.
  induction ms as [|m ms IH]; intros k g sum Hk Hg; simpl; [constructor|].
  assert ((inject_Z (k - 1) * g + m) / inject_Z k == (sum + m) / inject_Z k)%Q
    as Hstep by (rewrite Hg; reflexivity).
  constructor; [exact Hstep|]. apply IH; [lia|].
  replace (k + 1 - 1) with k by lia. rewrite Hstep. field.
  apply inject_Z_nonzero, Hk.
Qed.

(** C3: the global mean reported after the [k]-th combine is
    [((k-1) * mean + m_k) / k], the divisor [k] being [i / log_iters] at
    the [k]-th closure. In exact arithmetic this is
    [((k-1)/k) * mean + m_k / k], and it is the unweighted arithmetic mean
    of the window means [m_1 .. m_k]. *)
Theorem C3_running_mean_of_window_means (N : Z) :
  0 < N ->
  (forall (w : World Q) (nd n : Z),
     let tr := trace (TestGrpcClient_with (A:=exact) N w nd n) in
     Forall2 Qeq (map avg_time (global_reports tr))
       (spec_running_means 1 0 (map avg_time (window_reports tr))) /\
     Forall2 Qeq (map avg_time (global_reports tr))
       (arithmetic_means 1 0 (map avg_time (window_reports tr)))) /\
  (forall (A : arith) (w : World A) (nd n : Z),
     let tr := trace (TestGrpcClient_with N w nd n) in
     map avg_time (global_reports tr)
       = running_means A 1 (of_int 0) (map avg_time (window_reports tr))).
Proof.
  intros HN.
  assert (forall (A : arith) (w : World A) (nd n : Z),
     map avg_time (global_reports (trace (TestGrpcClient_with N w nd n)))
       = running_means A 1 (of_int 0)
           (map avg_time (window_reports (trace (TestGrpcClient_with N w nd n)))))
    as Hcode.
  { intros A w nd n.
    destruct (run_structure N w nd n HN) as (m & _ & _ & Hg & _).
    rewrite Hg at 1. apply avg_combine_all. }
  split; [|exact Hcode].
  intros w nd n. cbv zeta. rewrite (Hcode exact w nd n). split.
  - apply running_means_spec; [lia|reflexivity].
  - apply running_means_arithmetic; [lia|]. simpl. ring.
Qed.

Lemma C3_running_mean_witness :
  0 < log_iters /\
  Forall2 Qeq
    (map avg_time
       (global_reports
          (trace (TestGrpcClient (A:=exact) (exact_world (fun i => (i + 1) * 100000)) 7 9001))))
    (arithmetic_means 1 0
       (map avg_time
          (window_reports
             (trace (TestGrpcClient (A:=exact) (exact_world (fun i => (i + 1) * 100000)) 7 9001))))).
Proof.
  assert (0 < log_iters) as H by (unfold log_iters; lia).
  split; [exact H|].
  exact (proj2 (proj1 (C3_running_mean_of_window_means log_iters H)
                  (exact_world (fun i => (i + 1) * 100000)) 7 9001)).
Defined.

(** In single precision the two forms of the update can differ in the
    last bit: from the mean 0.1 and the window mean 0.25, at the third
    combine. *)
Remark rearranged_update_rounds_differently :
  F32.fdiv (F32.fadd (F32.fmul (F32.of_Z 2) (f32_ms_of_ns 100000)) (f32_ms_of_ns 250000))
           (F32.of_Z 3)
    = S754_finite false 10066329 (-26) /\
  F32.fadd (F32.fmul (F32.fdiv (F32.of_Z 2) (F32.of_Z 3)) (f32_ms_of_ns 100000))
           (F32.fdiv (f32_ms_of_ns 250000) (F32.of_Z 3))
    = S754_finite false 10066330 (-26).
Proof. split; vm_compute; reflexivity. Qed.

(** * Extremes of the reports *)

Lemma initial_global_ok : stats_ok not_nan (@initial_global binary32).
Proof. split; vm_compute; discriminate. Qed.

(** In single precision every window report has extremes that are not
    NaN, and they are the largest and the smallest sample of the window of
    some round. *)
Lemma window_reports_ok (N : Z) (w : World spec_float) (nd n : Z) :
  0 < N ->
  Forall (fun s =>
            stats_ok not_nan s /\
            SFleb (min_time s) (max_time s) = true /\
            exists i,
              max_time s ∈ window_samples (A:=binary32) N (sample (A:=binary32) w) i /\
              min_time s ∈ window_samples (A:=binary32) N (sample (A:=binary32) w) i /\
              Forall (fun y => SFleb (min_time s) y = true /\ SFleb y (max_time s) = true)
                (window_samples (A:=binary32) N (sample (A:=binary32) w) i))
    (window_reports (trace (TestGrpcClient_with (A:=binary32) N w nd n))).
Proof.
  intros HN.
  destruct (run_structure (A:=binary32) N w nd n HN) as (m & _ & Hw & _).
  rewrite Hw. apply Forall_forall. intros s Hs.
  apply list_elem_of_fmap in Hs as (i & -> & _).
  destruct (window_summary_extremes binary32_ordered N (sample (A:=binary32) w) i
              (fun k => f32_ms_of_ns_not_nan _))
    as (Hok & Hmax_in & Hmin_in & Hmax & Hmin & Hle).
  split; [assumption|]. split; [assumption|]. exists i.
  split; [assumption|]. split; [assumption|].
  rewrite Forall_forall in *. intros y Hy. split; [apply Hmin|apply Hmax]; exact Hy.
Qed.

(** C6: from each global report to the next, and from the initial values
    to the first, the global maximum does not go down and the global
    minimum does not go up; and after each combine the global maximum is at
    least the maximum, and the global minimum at most the minimum, of every
    window reported so far. *)
Theorem C6_global_extremes_monotone (N : Z) (w : World spec_float) (nd n : Z) :
  0 < N ->
  let tr := trace (TestGrpcClient_with (A:=binary32) N w nd n) in
  (forall k g g',
      (initial_global :: global_reports tr) !! k = Some g ->
      (initial_global :: global_reports tr) !! S k = Some g' ->
      widens (A:=binary32) g g') /\
  (forall j k s g,
      (j <= k)%nat ->
      window_reports tr !! j = Some s ->
      global_reports tr !! k = Some g ->
      covers (A:=binary32) g s).
Proof.
  intros HN. cbv zeta.
  destruct (run_structure (A:=binary32) N w nd n HN) as (m & _ & _ & Hg & _).
  assert (Forall (stats_ok not_nan)
            (window_reports (trace (TestGrpcClient_with (A:=binary32) N w nd n)))) as Hok.
  { eapply Forall_impl; [apply window_reports_ok, HN|]. intros s [H _]. exact H. }
  rewrite Hg. split.
  - intros k g g'.
    apply (combine_all_step binary32_ordered _ 1 initial_global k g g'
             initial_global_ok Hok).
  - intros j k s g.
    apply (combine_all_covers binary32_ordered _ 1 initial_global j k s g
             initial_global_ok Hok).
Qed.

Lemma C6_global_extremes_witness :
  0 < 2 /\
  exists s g,
    window_reports (trace (TestGrpcClient_with (A:=binary32) 2
                             (spike_world 1) 7 5)) !! 0%nat = Some s /\
    global_reports (trace (TestGrpcClient_with (A:=binary32) 2
                             (spike_world 1) 7 5)) !! 1%nat = Some g /\
    covers (A:=binary32) g s.
Proof.
  split; [lia|]. eexists. eexists.
  split; [vm_compute; reflexivity|]. split; [vm_compute; reflexivity|].
  refine (proj2 (C6_global_extremes_monotone 2 (spike_world 1) 7 5 _) 0%nat 1%nat _ _ _ _ _).
  - lia.
  - lia.
  - vm_compute. reflexivity.
  - vm_compute. reflexivity.
Defined.

(** What a run that meets no obstacle reports. *)
Lemma healthy_run (A : arith) (N : Z) (w : World A) (nd n : Z) :
  0 < N -> healthy w nd n ->
  let r := TestGrpcClient_with N w nd n in
  exit r = Finished /\
  window_reports (trace r) = map (window_summary N (sample w)) (closure_rounds N n) /\
  warnings (trace r)
    = List.filter (fun x => gtb x (of_int 1)) (map (sample w) (seqZ 0 n)).
Proof.
  intros HN Hh. cbv zeta.
  pose proof (healthy_finishes N w nd n HN Hh) as He.
  destruct (run_structure N w nd n HN)
    as (m & _ & Hw & _ & Hwarn & _ & _ & _ & Hfin & _).
  rewrite (Hfin He) in Hw, Hwarn. rewrite closure_rounds_max in Hw by assumption.
  split; [assumption|]. split; [assumption|].
  rewrite Hwarn. destruct (Z.le_gt_cases 0 n) as [H|H].
  - rewrite Z.max_r by lia. reflexivity.
  - rewrite Z.max_l by lia. rewrite !seqZ_nil by lia. reflexivity.
Qed.

Lemma steady_world_healthy (n : Z) : healthy steady_world 7 n.
Proof.
  exists "franka", {| metadata_bytes := "franka" |}, (fun _ => robot_segment 7).
  do 4 (split; [reflexivity|]). intros i Hi. split; [|reflexivity].
  unfold fields_ok. concrete_fields.
Qed.

(** C7, as stated, fails on the mean: over a window of 3000 samples of
    0.1 ms each, the maximum and the minimum are the sample, 0.1 rounded to
    single precision, and the mean, the rounded sum divided by 3000, comes
    out above it. *)
Lemma C7_mean_above_max :
  window_reports (trace (TestGrpcClient (A:=binary32) steady_world 7 3001))
    = [ {| max_time := S754_finite false 13421773 (-27);
           min_time := S754_finite false 13421773 (-27);
           avg_time := S754_finite false 13422180 (-27) |} ] /\
  SFleb (S754_finite false 13422180 (-27)) (S754_finite false 13421773 (-27)) = false.
Proof.
  split; [|reflexivity].
  destruct (healthy_run binary32 log_iters steady_world 7 3001
              ltac:(unfold log_iters; lia) (steady_world_healthy 3001))
    as (_ & Hw & _).
  unfold TestGrpcClient. rewrite Hw.
  vm_compute. reflexivity.
Qed.

Lemma foldl_Qplus_bounds (l : list Q) : forall (a lo hi : Q),
  Forall (fun y => lo <= y /\ y <= hi)%Q l ->
  (a + inject_Z (Z.of_nat (length l)) * lo <= foldl Qplus a l /\
   foldl Qplus a l <= a + inject_Z (Z.of_nat (length l)) * hi)%Q.
Proof.
  induction l as [|y l IH]; intros a lo hi Hl; simpl foldl.
  - change (inject_Z (Z.of_nat (length (@nil Q)))) with 0%Q. split; lra.
  - inversion Hl as [|? ? [Hlo Hhi] Hl']; subst.
    destruct (IH (a + y)%Q lo hi Hl') as [IH1 IH2].
    change (length (y :: l)) with (S (length l)).
    rewrite Nat2Z.inj_succ. unfold Z.succ. rewrite inject_Z_succ.
    split; lra.
Qed.

(** In exact arithmetic the mean of a window lies between its extremes. *)
Lemma exact_window_mean_between (N : Z) (smp : Z -> Q) (i : Z) :
  0 < N ->
  let s := window_summary (A:=exact) N smp i in
  (min_time s <= avg_time s /\ avg_time s <= max_time s)%Q.
Proof.
  intros HN.
  destruct (window_summary_extremes exact_ordered N smp i (fun _ => I))
    as (_ & _ & _ & Hmax & Hmin & _).
  cbv zeta in *.
  set (s := window_summary (A:=exact) N smp i) in *.
  assert (Forall (fun y => min_time s <= y /\ y <= max_time s)%Q
            (window_samples (A:=exact) N smp i)) as Hb.
  { rewrite Forall_forall in *. intros y Hy.
    split; apply Qle_bool_iff; [apply Hmin|apply Hmax]; exact Hy. }
  destruct (foldl_Qplus_bounds _ 0%Q _ _ Hb) as [H1 H2].
  rewrite (window_samples_length (A:=exact)) in H1, H2 by assumption.
  rewrite Z2Nat.id in H1, H2 by lia.
  assert (0 < inject_Z N)%Q as HNq by (unfold Qlt, inject_Z; simpl; lia).
  change (avg_time s)
    with (foldl Qplus 0 (window_samples (A:=exact) N smp i) / inject_Z N)%Q.
  split.
  - apply Qle_shift_div_l; [exact HNq|]. lra.
  - apply Qle_shift_div_r; [exact HNq|]. lra.
Qed.

(** * The warning monitor *)

Lemma filter_map_none {T U} (f : U -> bool) (g : T -> U) (l : list T) :
  (forall x, x ∈ l -> f (g x) = false) -> List.filter f (map g l) = [].
Proof.
  induction l as [|x l IH]; intros H; simpl; [reflexivity|].
  rewrite (H x) by left. apply IH. intros y Hy. apply H. right. exact Hy.
Qed.

(** How a run ends and what it requests do not depend on the durations. *)
Lemma run_with_elapsed (A : arith) (N : Z) (w : World A) (ns : Z -> Z) (nd n : Z) :
  0 < N ->
  exit (TestGrpcClient_with N (with_elapsed w ns) nd n)
    = exit (TestGrpcClient_with N w nd n) /\
  requests (trace (TestGrpcClient_with N (with_elapsed w ns) nd n))
    = requests (trace (TestGrpcClient_with N w nd n)).
Proof.
  intros HN. unfold TestGrpcClient_with. simpl.
  destruct (metadata_file w) as [bytes|]; [|split; reflexivity].
  destruct (ParseFromString w bytes) as [md|]; [|split; reflexivity].
  destruct (InitRobotClient_ok w md); [|split; reflexivity].
  destruct (shared_memory w) as [seg|]; [|split; reflexivity].
  simpl.
  destruct (loop_dispatch N (with_elapsed w ns) seg nd (Z.to_nat n) 0 initial_state []
              HN (reach_start N (with_elapsed w ns) seg nd)) as [E1 R1].
  destruct (loop_dispatch N w seg nd (Z.to_nat n) 0 initial_state []
              HN (reach_start N w seg nd)) as [E2 R2].
  rewrite dispatch_with_elapsed in E1, R1.
  split; [congruence|]. f_equal. congruence.
Qed.

(** C8: a warning is written for a sample exactly when the sample is above
    1.0 ms, one line per such round, with the sample in it; the check has
    no part in how the run goes on: whatever the durations, the run ends
    the same way after the same requests. With one round of 1.5 ms among
    rounds of 0.1 ms, a run of 3001 rounds writes exactly one warning, and
    the window that holds the round reports 1.5 as its maximum. The round
    is one of rounds 1 to 3000: the sample of round 0 is overwritten in
    round 3000 before the first window is reported. *)
Theorem C8_warning_iff_above_threshold (w : World spec_float) (nd n : Z) :
  let r := TestGrpcClient (A:=binary32) w nd n in
  (exists m,
      0 <= m <= Z.max 0 n /\
      (exit r = Finished -> m = Z.max 0 n) /\
      warnings (trace r)
        = List.filter (fun ms_taken => gtb (A:=binary32) ms_taken (F32.of_Z 1))
            (map (sample (A:=binary32) w) (seqZ 0 m))) /\
  (forall ns,
      exit (TestGrpcClient (A:=binary32) (with_elapsed w ns) nd n) = exit r /\
      requests (trace (TestGrpcClient (A:=binary32) (with_elapsed w ns) nd n))
        = requests (trace r)) /\
  (forall p,
      1 <= p <= 3000 -> n = 3001 -> healthy w nd 3001 ->
      (forall i, elapsed_ns w i = if i =? p then 1500000 else 100000) ->
      f32_ms_of_ns 1500000 = S754_finite false 12582912 (-23) /\
      warnings (trace r) = [f32_ms_of_ns 1500000] /\
      exists avg,
        window_reports (trace r)
          = [ {| max_time := f32_ms_of_ns 1500000;
                 min_time := f32_ms_of_ns 100000;
                 avg_time := avg |} ]).
Proof.
  assert (0 < log_iters) as HN by (unfold log_iters; lia).
  cbv zeta. split; [|split].
  - destruct (run_structure (A:=binary32) log_iters w nd n HN)
      as (m & Hm & _ & _ & Hwarn & _ & _ & _ & Hfin & _).
    exists m. auto.
  - intros ns. apply run_with_elapsed, HN.
  - intros p Hp -> Hh Hns.
    split; [vm_compute; reflexivity|].
    destruct (healthy_run binary32 log_iters w nd 3001 HN Hh) as (_ & Hw & Hwarn).
    fold (TestGrpcClient (A:=binary32) w nd 3001) in *.
    set (hi := f32_ms_of_ns 1500000). set (lo := f32_ms_of_ns 100000).
    assert (sample (A:=binary32) w p = hi) as Sp.
    { unfold sample. rewrite Hns, Z.eqb_refl. reflexivity. }
    assert (forall i, i <> p -> sample (A:=binary32) w i = lo) as So.
    { intros i Hi. unfold sample. rewrite Hns.
      destruct (Z.eqb_spec i p); [contradiction|reflexivity]. }
    assert (gtb (A:=binary32) hi (of_int 1) = true) as Ghi by (vm_compute; reflexivity).
    assert (gtb (A:=binary32) lo (of_int 1) = false) as Glo by (vm_compute; reflexivity).
    assert (SFleb hi lo = false) as Hhl by (vm_compute; reflexivity).
    split.
    + rewrite Hwarn.
      replace 3001 with (p + (1 + (3000 - p))) by lia.
      rewrite seqZ_app, (seqZ_app _ 1) by lia. rewrite !map_app, !List.filter_app.
      rewrite (filter_map_none _ _ (seqZ 0 p)).
      2:{ intros i Hi. apply elem_of_seqZ in Hi. rewrite So by lia. exact Glo. }
      rewrite (filter_map_none _ _ (seqZ (0 + p + 1) (3000 - p))).
      2:{ intros i Hi. apply elem_of_seqZ in Hi. rewrite So by lia. exact Glo. }
      rewrite (seqZ_cons _ 1) by lia. rewrite (seqZ_nil _ (Z.pred 1)) by lia.
      replace (0 + p) with p by lia.
      cbn [map List.filter app]. rewrite Sp, Ghi. reflexivity.
    + assert (closure_rounds log_iters 3001 = [3000]) as Hc by reflexivity.
      rewrite Hc in Hw. cbn [map] in Hw. rewrite Hw.
      destruct (window_summary_extremes binary32_ordered log_iters
                  (sample (A:=binary32) w) 3000 (fun k => f32_ms_of_ns_not_nan _))
        as (_ & Hmax_in & Hmin_in & Hmax & Hmin & _).
      cbv zeta in *.
      set (s := window_summary (A:=binary32) log_iters (sample (A:=binary32) w) 3000) in *.
      assert (forall y, y ∈ window_samples (A:=binary32) log_iters (sample (A:=binary32) w) 3000
                <-> exists j, 1 <= j <= 3000 /\ y = sample (A:=binary32) w j) as Hmem.
      { intros y. rewrite (window_samples_perm (A:=binary32)) by assumption.
        rewrite list_elem_of_fmap. unfold log_iters. split.
        - intros (j & -> & Hj). apply elem_of_seqZ in Hj. exists j. split; [lia|reflexivity].
        - intros (j & Hj & ->). exists j. split; [reflexivity|].
          apply elem_of_seqZ. lia. }
      assert (forall y, y ∈ window_samples (A:=binary32) log_iters (sample (A:=binary32) w) 3000
                -> y = hi \/ y = lo) as Htwo.
      { intros y Hy. apply Hmem in Hy as (j & _ & ->).
        destruct (decide (j = p)) as [->|Hne]; [left; exact Sp|right; apply So, Hne]. }
      assert (hi ∈ window_samples (A:=binary32) log_iters (sample (A:=binary32) w) 3000)
        as Hhi_in by (apply Hmem; exists p; auto).
      assert (lo ∈ window_samples (A:=binary32) log_iters (sample (A:=binary32) w) 3000)
        as Hlo_in.
      { apply Hmem. exists (if decide (p = 1) then 2 else 1).
        destruct (decide (p = 1)); (split; [lia|symmetry; apply So; lia]). }
      rewrite Forall_forall in Hmax, Hmin.
      assert (max_time s = hi) as Emax.
      { destruct (Htwo _ Hmax_in) as [E|E]; [exact E|].
        pose proof (Hmax hi Hhi_in) as Hle. rewrite E in Hle.
        simpl in Hle. congruence. }
      assert (min_time s = lo) as Emin.
      { destruct (Htwo _ Hmin_in) as [E|E]; [|exact E].
        pose proof (Hmin lo Hlo_in) as Hle. rewrite E in Hle.
        simpl in Hle. congruence. }
      exists (avg_time s). rewrite <- Emax, <- Emin. destruct s; reflexivity.
Qed.

Lemma spike_world_healthy (p n : Z) : healthy (spike_world p) 7 n.
Proof.
  exists "franka", {| metadata_bytes := "franka" |}, (fun _ => robot_segment 7).
  do 4 (split; [reflexivity|]). intros i Hi. split; [|reflexivity].
  unfold fields_ok. concrete_fields.
Qed.

Lemma C8_warning_witness :
  1 <= 1234 <= 3000 /\
  healthy (spike_world 1234) 7 3001 /\
  warnings (trace (TestGrpcClient (A:=binary32) (spike_world 1234) 7 3001))
    = [S754_finite false 12582912 (-23)].
Proof.
  split; [lia|]. split; [apply spike_world_healthy|].
  destruct (proj2 (proj2 (C8_warning_iff_above_threshold (spike_world 1234) 7 3001))
              1234 ltac:(lia) eq_refl (spike_world_healthy 1234 3001)
              (fun i => eq_refl)) as (E & Hwarn & _).
  rewrite Hwarn, E. reflexivity.
Defined.

(** * Further properties of [SendCommand] *)

Section ZeroFillFacts.
Context {A : arith}.
Implicit Types (w : World A) (seg : Segment A) (l : locals A) (v : list A).

Lemma zero_span_nothing (a : nat) v : zero_span a 0 v = v.
Proof. unfold zero_span. simpl. rewrite Nat.add_0_r. apply take_drop. Qed.

Lemma zero_span_insert (a n : nat) v :
  (a < length v)%nat ->
  zero_span (S a) n (<[a := of_int 0]> v) = zero_span a (S n) v.
Proof.
  intros Ha. unfold zero_span.
  rewrite (take_S_r _ a (of_int 0)) by (apply list_lookup_insert_eq; lia).
  rewrite take_insert_ge by lia. rewrite drop_insert_lt by lia.
  replace (a + S n)%nat with (S a + n)%nat by lia.
  rewrite <- app_assoc. reflexivity.
Qed.

Lemma zero_span_length (a n : nat) v :
  (a + n <= length v)%nat -> length (zero_span a n v) = length v.
Proof.
  intros H. unfold zero_span.
  rewrite !length_app, length_take, length_replicate, length_drop. lia.
Qed.

Lemma zero_span_lookup (n : nat) v (j : nat) :
  (n <= length v)%nat ->
  zero_span 0 n v !! j = if decide (j < n)%nat then Some (of_int 0) else v !! j.
Proof.
  intros Hn. unfold zero_span. simpl.
  destruct (decide (j < n)%nat) as [Hj|Hj].
  - rewrite lookup_app_l by (rewrite length_replicate; lia).
    apply lookup_replicate_2, Hj.
  - rewrite lookup_app_r by (rewrite length_replicate; lia).
    rewrite length_replicate, lookup_drop. f_equal. lia.
Qed.

(** With an entry for each index, the zero-fill loop ends with the
    entries it went through set to [0.0] and the rest as it was. *)
Lemma zero_fill_result fuel : forall i l,
  0 <= i ->
  i + Z.of_nat fuel <= Z.of_nat (length (joint_positions l)) ->
  i + Z.of_nat fuel <= Z.of_nat (length (joint_velocities l)) ->
  i + Z.of_nat fuel <= Z.of_nat (length (joint_torques_measured l)) ->
  i + Z.of_nat fuel <= Z.of_nat (length (joint_torques_external l)) ->
  zero_fill fuel i l =
    ([], inr {| timestamp := timestamp l;
                joint_positions := zero_span (Z.to_nat i) fuel (joint_positions l);
                joint_velocities := zero_span (Z.to_nat i) fuel (joint_velocities l);
                joint_torques_measured :=
                  zero_span (Z.to_nat i) fuel (joint_torques_measured l);
                joint_torques_external :=
                  zero_span (Z.to_nat i) fuel (joint_torques_external l) |}).
Proof.
  induction fuel as [|fuel IH]; intros i l Hi H1 H2 H3 H4.
  - simpl. rewrite !zero_span_nothing. destruct l; reflexivity.
  - simpl. rewrite !store_in_range by lia. simpl.
    rewrite IH by (simpl; rewrite ?length_insert; lia). simpl.
    replace (Z.to_nat (i + 1)) with (S (Z.to_nat i)) by lia.
    rewrite !zero_span_insert by lia. reflexivity.
Qed.

Local Ltac in_sizes :=
  unfold vector_sizes;
  first [ left | right; left | right; right; left | right; right; right; left ].

(** When a vector has no entry for one of the indices, the loop stops at
    the first such index, in the first of the four vectors that is that
    short. *)
Lemma zero_fill_short fuel : forall i l,
  0 <= i ->
  i <= Z.of_nat (length (joint_positions l)) ->
  i <= Z.of_nat (length (joint_velocities l)) ->
  i <= Z.of_nat (length (joint_torques_measured l)) ->
  i <= Z.of_nat (length (joint_torques_external l)) ->
  (exists name len, (name, len) ∈ vector_sizes l /\ len < i + Z.of_nat fuel) ->
  exists name len,
    zero_fill fuel i l = ([], inl (VectorIndex name)) /\
    (name, len) ∈ vector_sizes l /\ len < i + Z.of_nat fuel.
Proof.
  induction fuel as [|fuel IH]; intros i l Hi H1 H2 H3 H4 (name & len & Hin & Hlt).
  - exfalso. unfold vector_sizes in Hin.
    repeat (apply elem_of_cons in Hin as [Hin|Hin]; [injection Hin as -> ->; lia|]).
    inversion Hin.
  - simpl. unfold store at 1.
    destruct (decide (0 <= i < Z.of_nat (length (joint_positions l)))); simpl;
      [|eexists _, _; split; [reflexivity|split; [in_sizes|lia]]].
    unfold store at 1.
    destruct (decide (0 <= i < Z.of_nat (length (joint_velocities l)))); simpl;
      [|eexists _, _; split; [reflexivity|split; [in_sizes|lia]]].
    unfold store at 1.
    destruct (decide (0 <= i < Z.of_nat (length (joint_torques_measured l)))); simpl;
      [|eexists _, _; split; [reflexivity|split; [in_sizes|lia]]].
    unfold store at 1.
    destruct (decide (0 <= i < Z.of_nat (length (joint_torques_external l)))); simpl;
      [|eexists _, _; split; [reflexivity|split; [in_sizes|lia]]].
    match goal with |- context [zero_fill fuel ?j ?m] =>
      assert (vector_sizes m = vector_sizes l) as Hsz
        by (unfold vector_sizes; simpl; rewrite !length_insert; reflexivity);
      destruct (IH j m) as (name' & len' & Hz & Hin' & Hlt')
    end; try (simpl; rewrite ?length_insert; lia).
    { exists name, len. rewrite Hsz. split; [assumption|lia]. }
    rewrite Hz. exists name', len'. rewrite <- Hsz.
    split; [reflexivity|]. split; [assumption|lia].
Qed.

(** With the five fields present and a vector shorter than [num_dofs],
    the method stops at an index past the end of such a vector, before
    its request. *)
Lemma SendCommand_short w seg nd i :
  fields_present seg -> ~ fields_ok seg nd ->
  exists name v,
    SendCommand w seg nd i = ([], inl (VectorIndex name)) /\
    vectors seg !! name = Some v /\ Z.of_nat (length v) < nd.
Proof.
  intros ([ts Hts] & [jp Hjp] & [jv Hjv] & [jm Hjm] & [je Hje]) Hnok.
  set (l := {| timestamp := setTimestampToNow (now w i) ts;
               joint_positions := jp; joint_velocities := jv;
               joint_torques_measured := jm; joint_torques_external := je |}).
  assert (exists name len, (name, len) ∈ vector_sizes l /\ len < nd) as Hshort.
  { destruct (decide (nd <= Z.of_nat (length jp))) as [L1|L1];
      [|exists "joint_positions", (Z.of_nat (length jp)); split; [in_sizes|lia]].
    destruct (decide (nd <= Z.of_nat (length jv))) as [L2|L2];
      [|exists "joint_velocities", (Z.of_nat (length jv)); split; [in_sizes|lia]].
    destruct (decide (nd <= Z.of_nat (length jm))) as [L3|L3];
      [|exists "joint_torques_measured", (Z.of_nat (length jm)); split; [in_sizes|lia]].
    destruct (decide (nd <= Z.of_nat (length je))) as [L4|L4];
      [|exists "joint_torques_external", (Z.of_nat (length je)); split; [in_sizes|lia]].
    exfalso. apply Hnok. unfold fields_ok, has_vector.
    split; [eauto|]. split; [exists jp; auto|]. split; [exists jv; auto|].
    split; [exists jm; auto|exists je; auto]. }
  destruct Hshort as (name & len & Hin & Hlt).
  assert (0 <= len) as Hlen.
  { unfold vector_sizes in Hin.
    repeat (apply elem_of_cons in Hin as [Hin|Hin]; [injection Hin as -> ->; lia|]).
    inversion Hin. }
  destruct (zero_fill_short (Z.to_nat nd) 0 l) as (name' & len' & Hz & Hin' & Hlt');
    try (simpl; lia).
  { exists name, len. split; [assumption|lia]. }
  assert (exists v, vectors seg !! name' = Some v /\ Z.of_nat (length v) = len')
    as (v & Hv & Hvl).
  { unfold vector_sizes in Hin'. simpl in Hin'.
    repeat (apply elem_of_cons in Hin' as [Hin'|Hin'];
            [injection Hin' as -> ->; eauto|]).
    inversion Hin'. }
  exists name', v. split; [|split; [assumption|lia]].
  unfold SendCommand. rewrite Hts, Hjp, Hjv, Hjm, Hje. simpl.
  fold l. rewrite Hz. reflexivity.
Qed.

(** A call either finds the segment well-formed, or stops before its
    request. *)
Lemma SendCommand_cases w seg nd i :
  fields_ok seg nd \/
  (~ fields_ok seg nd /\ exists f, SendCommand w seg nd i = ([], inl f)).
Proof.
  assert (fields_present seg \/ ~ fields_present seg) as [Hp|Hp].
  { unfold fields_present.
    destruct (timestamps seg !! "shm_timestamp");
      [|right; intros (H & _); destruct H; discriminate].
    destruct (vectors seg !! "joint_positions");
      [|right; intros (_ & H & _); destruct H; discriminate].
    destruct (vectors seg !! "joint_velocities");
      [|right; intros (_ & _ & H & _); destruct H; discriminate].
    destruct (vectors seg !! "joint_torques_measured");
      [|right; intros (_ & _ & _ & H & _); destruct H; discriminate].
    destruct (vectors seg !! "joint_torques_external");
      [|right; intros (_ & _ & _ & _ & H); destruct H; discriminate].
    left. repeat split; eauto. }
  - assert (fields_ok seg nd \/ ~ fields_ok seg nd) as [Hok|Hok].
    { destruct Hp as (Hts & [jp Hjp] & [jv Hjv] & [jm Hjm] & [je Hje]).
      unfold fields_ok, has_vector. rewrite Hjp, Hjv, Hjm, Hje.
      destruct (decide (nd <= Z.of_nat (length jp)));
        [|right; intros (_ & (v & Hv & ?) & _); injection Hv as <-; lia].
      destruct (decide (nd <= Z.of_nat (length jv)));
        [|right; intros (_ & _ & (v & Hv & ?) & _); injection Hv as <-; lia].
      destruct (decide (nd <= Z.of_nat (length jm)));
        [|right; intros (_ & _ & _ & (v & Hv & ?) & _); injection Hv as <-; lia].
      destruct (decide (nd <= Z.of_nat (length je)));
        [|right; intros (_ & _ & _ & _ & (v & Hv & ?)); injection Hv as <-; lia].
      left. split; [assumption|]. split; [exists jp; auto|]. split; [exists jv; auto|].
      split; [exists jm; auto|exists je; auto]. }
    + left. exact Hok.
    + right. split; [exact Hok|].
      destruct (SendCommand_short w seg nd i Hp Hok) as (name & v & Hs & _).
      eauto.
  - right. split.
    + intros (H1 & (v2 & H2 & _) & (v3 & H3 & _) & (v4 & H4 & _) & (v5 & H5 & _)).
      apply Hp. repeat split; eauto.
    + apply (SendCommand_null_iff w seg nd i) in Hp as [name Hname].
      destruct (SendCommand_shape w seg nd i) as [[f Hs]|[[Hs _]|[Hs _]]];
        rewrite Hs in Hname; simpl in Hname; try discriminate.
      eauto.
Qed.

(** The call returns [true] exactly on a well-formed segment whose
    request the server answers with success. *)
Lemma SendCommand_true_iff w seg nd i :
  snd (SendCommand w seg nd i) = inr true <->
  fields_ok seg nd /\ ControlUpdate_ok w i = true.
Proof.
  split.
  - intros Hs. destruct (SendCommand_cases w seg nd i) as [Hok|[_ [f Hf]]].
    + split; [exact Hok|]. rewrite (SendCommand_ok w seg nd i Hok) in Hs.
      simpl in Hs. congruence.
    + rewrite Hf in Hs. discriminate.
  - intros [Hok Hc]. rewrite (SendCommand_ok w seg nd i Hok), Hc. reflexivity.
Qed.

End ZeroFillFacts.

(** X1: [SendCommand] issues its [ControlUpdate] request exactly when the
    segment is well-formed, that is, the five named fields exist and each
    of the four vectors has at least [num_dofs] entries. With the fields
    present and a vector shorter than [num_dofs], the call stops at an
    index past the end of a vector that is too short, and nothing has been
    requested or printed. For [num_dofs <= 0] the loop body is never
    entered, and the presence of the fields is enough. *)
Theorem SendCommand_request_iff_fields_ok (A : arith) (w : World A)
    (seg : Segment A) (nd i : Z) :
  (fields_ok seg nd <->
   RpcControlUpdate RobotState_default ∈ fst (SendCommand w seg nd i)) /\
  (fields_present seg -> ~ fields_ok seg nd ->
   exists name v,
     SendCommand w seg nd i = ([], inl (VectorIndex name)) /\
     vectors seg !! name = Some v /\ Z.of_nat (length v) < nd) /\
  (nd <= 0 -> fields_present seg -> fields_ok seg nd).
Proof.
  split; [|split].
  - split.
    + intros Hok. rewrite (SendCommand_ok w seg nd i Hok). left.
    + intros Hin. destruct (SendCommand_cases w seg nd i) as [Hok|[_ [f Hf]]];
        [exact Hok|].
      rewrite Hf in Hin. inversion Hin.
  - apply SendCommand_short.
  - intros Hnd (Hts & [jp Hjp] & [jv Hjv] & [jm Hjm] & [je Hje]).
    unfold fields_ok, has_vector.
    split; [assumption|]. split; [exists jp; split; [assumption|lia]|].
    split; [exists jv; split; [assumption|lia]|].
    split; [exists jm; split; [assumption|lia]|exists je; split; [assumption|lia]].
Qed.

Lemma SendCommand_request_witness :
  fields_present (robot_segment 7) /\
  ~ fields_ok (robot_segment 7) 8 /\
  exists name v,
    SendCommand (A:=binary32) steady_world (robot_segment 7) 8 0
      = ([], inl (VectorIndex name)) /\
    vectors (robot_segment 7) !! name = Some v /\ Z.of_nat (length v) < 8.
Proof.
  assert (fields_present (robot_segment 7)) as Hp
    by (unfold fields_present; concrete_fields).
  assert (~ fields_ok (robot_segment 7) 8) as Hn.
  { intros (_ & (v & Hv & Hl) & _). vm_compute in Hv. injection Hv as <-.
    simpl in Hl. lia. }
  split; [exact Hp|]. split; [exact Hn|].
  exact (proj1 (proj2 (SendCommand_request_iff_fields_ok binary32 steady_world
                         (robot_segment 7) 8 0)) Hp Hn).
Defined.

(** X2: on local copies whose four vectors have at least [num_dofs]
    entries, the zero-fill loop of lines 145-150 runs to its end without a
    trace: in each vector the first [num_dofs] entries are [0.0], the
    entries after them and the sizes are as they were, and the timestamp
    is untouched. *)
Theorem zero_fill_sets_first_entries (A : arith) (nd : Z) (l : locals A) :
  nd <= Z.of_nat (length (joint_positions l)) ->
  nd <= Z.of_nat (length (joint_velocities l)) ->
  nd <= Z.of_nat (length (joint_torques_measured l)) ->
  nd <= Z.of_nat (length (joint_torques_external l)) ->
  exists l',
    zero_fill (Z.to_nat nd) 0 l = ([], inr l') /\
    timestamp l' = timestamp l /\
    Forall2 (fun v' v =>
               length v' = length v /\
               forall j : nat,
                 v' !! j = if decide (Z.of_nat j < nd) then Some (of_int 0) else v !! j)
      [joint_positions l'; joint_velocities l';
       joint_torques_measured l'; joint_torques_external l']
      [joint_positions l; joint_velocities l;
       joint_torques_measured l; joint_torques_external l].
Proof.
  intros H1 H2 H3 H4.
  eexists. split; [apply zero_fill_result; lia|]. simpl.
  split; [reflexivity|].
  assert (forall v : list A, nd <= Z.of_nat (length v) ->
            length (zero_span 0 (Z.to_nat nd) v) = length v /\
            forall j : nat,
              zero_span 0 (Z.to_nat nd) v !! j
                = if decide (Z.of_nat j < nd) then Some (of_int 0) else v !! j) as Hv.
  { intros v Hl. split; [apply zero_span_length; lia|].
    intros j. rewrite zero_span_lookup by lia.
    destruct (decide (j < Z.to_nat nd)%nat), (decide (Z.of_nat j < nd));
      try reflexivity; lia. }
  repeat constructor; apply Hv; assumption.
Qed.

Lemma zero_fill_witness :
  exists l',
    zero_fill (A:=binary32) (Z.to_nat 2) 0
      {| timestamp := {| ts_seconds := 0; ts_nanos := 0 |};
         joint_positions := replicate 3 (F32.of_Z 1);
         joint_velocities := replicate 3 (F32.of_Z 2);
         joint_torques_measured := replicate 3 (F32.of_Z 3);
         joint_torques_external := replicate 2 (F32.of_Z 4) |} = ([], inr l') /\
    joint_positions l' = [S754_zero false; S754_zero false; F32.of_Z 1].
Proof.
  destruct (zero_fill_sets_first_entries binary32 2
              {| timestamp := {| ts_seconds := 0; ts_nanos := 0 |};
                 joint_positions := replicate 3 (F32.of_Z 1);
                 joint_velocities := replicate 3 (F32.of_Z 2);
                 joint_torques_measured := replicate 3 (F32.of_Z 3);
                 joint_torques_external := replicate 2 (F32.of_Z 4) |})
    as (l' & Hz & _ & _); try (simpl; lia).
  exists l'. split; [exact Hz|].
  vm_compute in Hz. injection Hz as <-. reflexivity.
Defined.

(** * The trace of a run in closed form *)

Section TraceFacts.
Context {A : arith}.
Implicit Types (w : World A) (seg : Z -> Segment A) (st : loop_state A)
  (tr evs : list (event A)) (g : stats A) (smp : Z -> A).

Lemma rounds_completed_bounds w seg nd rounds : forall i,
  0 <= rounds_completed w seg nd rounds i <= Z.of_nat rounds.
Proof.
  induction rounds as [|rounds IH]; intros i; cbn [rounds_completed]; [lia|].
  specialize (IH (i + 1)).
  destruct (SendCommand w (seg i) nd i) as [evs [f|[|]]]; lia.
Qed.

(** Every round counted as completed has returned [true]. *)
Lemma rounds_completed_true w seg nd rounds : forall i j,
  i <= j < i + rounds_completed w seg nd rounds i ->
  snd (SendCommand w (seg j) nd j) = inr true.
Proof.
  induction rounds as [|rounds IH]; intros i j; cbn [rounds_completed]; [lia|].
  destruct (SendCommand w (seg i) nd i) as [evs [f|[|]]] eqn:Hs; try lia.
  intros Hj. destruct (decide (j = i)) as [->|Hne].
  - rewrite Hs. reflexivity.
  - apply (IH (i + 1)). lia.
Qed.

Lemma rounds_completed_with_elapsed w ns seg nd rounds : forall i,
  rounds_completed (with_elapsed w ns) seg nd rounds i
    = rounds_completed w seg nd rounds i.
Proof.
  induction rounds as [|rounds IH]; intros i; cbn [rounds_completed]; [reflexivity|].
  change (SendCommand (with_elapsed w ns) (seg i) nd i)
    with (SendCommand w (seg i) nd i).
  rewrite IH. reflexivity.
Qed.

(** The loop, from a state that satisfies the buffer invariant: the
    rounds that are completed leave the trace of as many healthy rounds,
    and the loop ends after all its rounds, or in the [SendCommand] of the
    first round that is not completed. *)
Lemma loop_trace N w seg nd rounds : forall i st,
  0 < N -> 0 <= i -> buffer_inv N (sample w) i (times_taken st) ->
  let r := loop N w seg nd rounds i st in
  let m := rounds_completed w seg nd rounds i in
  (exit r = Finished /\ m = Z.of_nat rounds /\
   trace r = healthy_trace N (sample w) rounds i (global st)) \/
  (m < Z.of_nat rounds /\
   (exists f, SendCommand w (seg (i + m)) nd (i + m) = ([], inl f) /\
              exit r = Aborted f) /\
   trace r = healthy_trace N (sample w) (Z.to_nat m) i (global st)) \/
  (m < Z.of_nat rounds /\
   SendCommand w (seg (i + m)) nd (i + m)
     = ([RpcControlUpdate RobotState_default; OutSendCommandFailed], inr false) /\
   exit r = Aborted AssertSendCommand /\
   trace r = healthy_trace N (sample w) (Z.to_nat m) i (global st)
               ++ [RpcControlUpdate RobotState_default; OutSendCommandFailed]).
Proof.
  induction rounds as [|rounds IH]; intros i st HN Hi Hinv; cbv zeta.
  - left. split; [reflexivity|]. split; reflexivity.
  - cbn [loop rounds_completed].
    destruct (SendCommand_shape w (seg i) nd i) as [[f Hs]|[[Hs Hc]|[Hs Hc]]].
    + unfold body. rewrite Hs. cbn [final trace exit Z.to_nat healthy_trace].
      rewrite Z.add_0_r. right. left.
      split; [lia|]. split; [eauto|reflexivity].
    + destruct (measure_spec N w i st HN Hi Hinv) as (st1 & Hm & Hinv' & Hg).
      unfold body. rewrite Hs, Hm. cbn [final trace exit].
      pose proof (rounds_completed_bounds w seg nd rounds (i + 1)) as Hb.
      specialize (IH (i + 1) st1 HN ltac:(lia) Hinv'). cbv zeta in IH.
      set (m' := rounds_completed w seg nd rounds (i + 1)) in *.
      rewrite Hg in IH.
      replace (i + (1 + m')) with (i + 1 + m') by lia.
      replace (Z.to_nat (1 + m')) with (S (Z.to_nat m')) by lia.
      cbn [healthy_trace].
      destruct IH as [(He & Hm' & Ht)|[(Hm' & Hf & Ht)|(Hm' & Hs' & He & Ht)]].
      * left. split; [assumption|]. split; [lia|]. rewrite Ht. reflexivity.
      * right. left. split; [lia|]. split; [assumption|]. rewrite Ht. reflexivity.
      * right. right. split; [lia|]. split; [assumption|]. split; [assumption|].
        rewrite Ht. cbn [app]. rewrite <- !app_assoc. reflexivity.
    + unfold body. rewrite Hs. cbn [final trace exit Z.to_nat healthy_trace].
      rewrite Z.add_0_r. right. right.
      split; [lia|]. split; [exact Hs|]. split; reflexivity.
Qed.

Lemma startup_requests_readings w :
  window_reports (startup_requests w) = [] /\
  global_reports (startup_requests w) = [] /\
  warnings (startup_requests w) = [] /\
  control_updates (startup_requests w) = [] /\
  requests (startup_requests w) = startup_requests w /\
  OutSendCommandFailed ∉ startup_requests w.
Proof.
  unfold startup_requests.
  destruct (metadata_file w) as [bytes|];
    [destruct (ParseFromString w bytes) as [md|]|];
    (do 5 (split; [reflexivity|])); intros H.
  - apply elem_of_cons in H as [H|H]; [discriminate|inversion H].
  - inversion H.
  - inversion H.
Qed.

Local Ltac startup_abort :=
  cbn [final trace exit Z.to_nat healthy_trace app];
  split; [lia|]; split; [discriminate|]; exists [];
  split; [reflexivity|left; split; [reflexivity|discriminate]].

(** Every run: the startup requests, the trace of the completed rounds,
    and, when the run ends on a failed request, that request and the line
    that reports the failure. *)
Lemma run_trace N w nd n :
  0 < N ->
  let r := TestGrpcClient_with N w nd n in
  let m := completed w nd n in
  0 <= m <= Z.max 0 n /\
  (exit r = Finished -> m = Z.max 0 n) /\
  exists tail,
    trace r = startup_requests w
                ++ healthy_trace N (sample w) (Z.to_nat m) 0 initial_global ++ tail /\
    ((tail = [] /\ exit r <> Aborted AssertSendCommand) \/
     (tail = [RpcControlUpdate RobotState_default; OutSendCommandFailed] /\
      exit r = Aborted AssertSendCommand /\ m < n)).
Proof.
  intros HN. cbv zeta. unfold TestGrpcClient_with, completed, startup_requests.
  destruct (metadata_file w) as [bytes|]; [|startup_abort].
  destruct (ParseFromString w bytes) as [md|]; [|startup_abort].
  destruct (InitRobotClient_ok w md); [|startup_abort].
  destruct (shared_memory w) as [seg|]; [|startup_abort].
  pose proof (loop_trace N w seg nd (Z.to_nat n) 0 initial_state HN ltac:(lia)
                (buffer_inv_start N (sample w))) as H.
  cbv zeta in H. cbn [final trace exit].
  pose proof (rounds_completed_bounds w seg nd (Z.to_nat n) 0) as Hb.
  set (m := rounds_completed w seg nd (Z.to_nat n) 0) in *.
  change (global initial_state) with (@initial_global A) in H.
  destruct H as [(He & Hm & Ht)|[(Hm & (f & Hs & He) & Ht)|(Hm & Hs & He & Ht)]].
  - split; [lia|]. split; [lia|]. exists [].
    rewrite Ht, Hm, Nat2Z.id, app_nil_r.
    split; [reflexivity|]. left. split; [reflexivity|]. rewrite He. discriminate.
  - split; [lia|]. split; [rewrite He; discriminate|]. exists [].
    rewrite Ht, app_nil_r. split; [reflexivity|]. left. split; [reflexivity|].
    rewrite He. intros E. injection E as ->.
    exact (SendCommand_fault _ _ _ _ _ _ Hs).
  - split; [lia|]. split; [rewrite He; discriminate|].
    exists [RpcControlUpdate RobotState_default; OutSendCommandFailed].
    rewrite Ht. split; [reflexivity|]. right.
    split; [reflexivity|]. split; [assumption|lia].
Qed.

(** How the loop can end. *)
Lemma loop_exit_cases N w seg nd rounds :
  0 < N ->
  let r := loop N w seg nd rounds 0 initial_state in
  exit r = Finished \/
  (exists f, exit r = Aborted f /\ send_fault f) \/
  exit r = Aborted AssertSendCommand.
Proof.
  intros HN. cbv zeta.
  destruct (loop_trace N w seg nd rounds 0 initial_state HN ltac:(lia)
              (buffer_inv_start N (sample w)))
    as [(He & _)|[(_ & (f & Hs & He) & _)|(_ & _ & He & _)]].
  - left. exact He.
  - right. left. exists f. split; [exact He|].
    exact (SendCommand_fault _ _ _ _ _ _ Hs).
  - right. right. exact He.
Qed.

(** ** Readings of the trace of healthy rounds *)

Lemma healthy_trace_requests N smp rounds : forall i g,
  requests (healthy_trace N smp rounds i g)
    = replicate rounds (RpcControlUpdate RobotState_default).
Proof.
  induction rounds as [|rounds IH]; intros i g; cbn [healthy_trace]; [reflexivity|].
  rewrite requests_app, round_requests, IH. reflexivity.
Qed.

Lemma healthy_trace_no_failure N smp rounds : forall i g,
  OutSendCommandFailed ∉ healthy_trace N smp rounds i g.
Proof.
  induction rounds as [|rounds IH]; intros i g; cbn [healthy_trace];
    [intros H; inversion H|].
  intros H. apply elem_of_app in H as [H|H]; [|exact (IH _ _ H)].
  apply elem_of_cons in H as [H|H]; [discriminate|].
  apply elem_of_app in H as [H|H].
  - unfold warning_of in H. destruct (gtb _ _).
    + apply elem_of_cons in H as [H|H]; [discriminate|inversion H].
    + inversion H.
  - unfold round_reports in H. destruct (closes N i).
    + apply elem_of_cons in H as [H|H]; [discriminate|].
      apply elem_of_cons in H as [H|H]; [discriminate|inversion H].
    + inversion H.
Qed.

(** The reports of healthy rounds depend on the samples of the windows
    that close in them only. *)
Lemma healthy_trace_reports_ext N smp smp' rounds : forall i g,
  0 < N ->
  (forall c, i <= c < i + Z.of_nat rounds -> closes N c = true ->
     forall t, c - N + 1 <= t <= c -> smp t = smp' t) ->
  window_reports (healthy_trace N smp rounds i g)
    = window_reports (healthy_trace N smp' rounds i g) /\
  global_reports (healthy_trace N smp rounds i g)
    = global_reports (healthy_trace N smp' rounds i g).
Proof.
  induction rounds as [|rounds IH]; intros i g HN Hsame; cbn [healthy_trace];
    [split; reflexivity|].
  assert (closes N i = true -> window_summary N smp i = window_summary N smp' i)
    as Hws.
  { intros Hc. unfold window_summary.
    assert (map smp (seqZ (i - N + 1) (N - 1)) = map smp' (seqZ (i - N + 1) (N - 1)))
      as ->.
    { apply map_ext_in. intros t Ht. apply list_elem_of_In, elem_of_seqZ in Ht.
      apply (Hsame i); [lia|exact Hc|lia]. }
    rewrite (Hsame i ltac:(lia) Hc i ltac:(lia)). reflexivity. }
  rewrite !window_reports_app, !global_reports_app.
  rewrite !round_window_reports, !round_global_reports.
  destruct (closes N i) eqn:Hc.
  - rewrite <- (Hws eq_refl).
    destruct (IH (i + 1) (combine (i / N) g (window_summary N smp i)) HN)
      as [IH1 IH2].
    { intros c Hrange. apply Hsame. lia. }
    rewrite IH1, IH2. split; reflexivity.
  - destruct (IH (i + 1) g HN) as [IH1 IH2].
    { intros c Hrange. apply Hsame. lia. }
    rewrite IH1, IH2. split; reflexivity.
Qed.

End TraceFacts.

(** A run that ends normally has met no obstacle. *)
Lemma finished_healthy {A : arith} (N : Z) (w : World A) (nd n : Z) :
  0 < N -> exit (TestGrpcClient_with N w nd n) = Finished -> healthy w nd n.
Proof.
  intros HN. unfold TestGrpcClient_with, healthy.
  destruct (metadata_file w) as [bytes|]; [|discriminate].
  destruct (ParseFromString w bytes) as [md|] eqn:Hp; [|discriminate].
  destruct (InitRobotClient_ok w md) eqn:Hi; [|discriminate].
  destruct (shared_memory w) as [seg|]; [|discriminate].
  cbn [exit]. intros He. exists bytes, md, seg.
  do 4 (split; [reflexivity || assumption|]).
  intros i Hrange. apply SendCommand_true_iff.
  destruct (loop_trace N w seg nd (Z.to_nat n) 0 initial_state HN
              ltac:(lia) (buffer_inv_start N (sample w)))
    as [(_ & Hm & _)|[(_ & (f & _ & He') & _)|(_ & _ & He' & _)]];
    try congruence.
  apply (rounds_completed_true w seg nd (Z.to_nat n) 0 i). lia.
Qed.

(** X3: a run ends normally exactly when it meets no obstacle: the
    metadata file loads and parses, the initialization round trip
    succeeds, the region exists, and in each of the rounds
    [0 .. num_requests - 1] the segment is well-formed (the five fields
    exist, the vectors have [num_dofs] entries) and the server answers the
    request with success. In particular a run that is asked for no round
    ends normally whatever the region holds. *)
Theorem run_finishes_iff_healthy (A : arith) (w : World A) (nd n : Z) :
  (exit (TestGrpcClient w nd n) = Finished <-> healthy w nd n) /\
  (n <= 0 ->
   exit (TestGrpcClient w nd n) = Finished <->
   exists bytes md,
     metadata_file w = Some bytes /\ ParseFromString w bytes = Some md /\
     InitRobotClient_ok w md = true /\ shared_memory w <> None).
Proof.
  assert (0 < log_iters) as HN by (unfold log_iters; lia).
  assert (exit (TestGrpcClient w nd n) = Finished <-> healthy w nd n) as Hiff.
  { split; [apply finished_healthy, HN|apply healthy_finishes, HN]. }
  split; [exact Hiff|].
  intros Hn. rewrite Hiff. unfold healthy. split.
  - intros (bytes & md & seg & H1 & H2 & H3 & H4 & _).
    exists bytes, md. rewrite H4. repeat split; auto; discriminate.
  - intros (bytes & md & H1 & H2 & H3 & H4).
    destruct (shared_memory w) as [seg|]; [|contradiction].
    exists bytes, md, seg. repeat split; auto; lia.
Qed.

Lemma run_finishes_witness :
  0 <= 0 /\
  exit (TestGrpcClient (A:=binary32)
          (with_region steady_world (fun _ => segment_without_velocities 7)) 7 0)
    = Finished.
Proof.
  split; [lia|].
  apply (proj2 (run_finishes_iff_healthy binary32
                  (with_region steady_world (fun _ => segment_without_velocities 7)) 7 0)
           ltac:(lia)).
  exists "franka", {| metadata_bytes := "franka" |}.
  repeat split; discriminate.
Defined.

(** X4: the startup failures. The run ends on the assertion of line 56
    exactly when the metadata file does not open, on that of line 61
    exactly when its contents do not parse, on that of line 67 exactly
    when the initialization round trip does not succeed, and on the
    exception of line 70 exactly when the region does not exist. In each
    of these cases no round has run: the trace holds the startup requests
    only (none at all in the first two cases), no [ControlUpdate] request
    is among them, and nothing has been measured. *)
Theorem startup_failures (A : arith) (w : World A) (nd n : Z) :
  let r := TestGrpcClient w nd n in
  (exit r = Aborted AssertFile <-> metadata_file w = None) /\
  (exit r = Aborted AssertParse <->
   exists bytes, metadata_file w = Some bytes /\ ParseFromString w bytes = None) /\
  (exit r = Aborted AssertInitStatus <->
   exists bytes md,
     metadata_file w = Some bytes /\ ParseFromString w bytes = Some md /\
     InitRobotClient_ok w md = false) /\
  (exit r = Aborted OpenSharedMemory <->
   exists bytes md,
     metadata_file w = Some bytes /\ ParseFromString w bytes = Some md /\
     InitRobotClient_ok w md = true /\ shared_memory w = None) /\
  (forall f,
     exit r = Aborted f ->
     f = AssertFile \/ f = AssertParse \/ f = AssertInitStatus \/ f = OpenSharedMemory ->
     trace r = startup_requests w /\
     final r = initial_state /\
     control_updates (trace r) = [] /\
     (f = AssertFile \/ f = AssertParse -> trace r = [])).
Proof.
  assert (0 < log_iters) as HN by (unfold log_iters; lia).
  cbv zeta. unfold TestGrpcClient, TestGrpcClient_with, startup_requests.
  destruct (metadata_file w) as [bytes|] eqn:Hfile; cbn [final trace exit].
  2:{ split; [split; reflexivity|].
      split; [split; [discriminate|intros (b & H & _); discriminate]|].
      split; [split; [discriminate|intros (b & m & H & _); discriminate]|].
      split; [split; [discriminate|intros (b & m & H & _); discriminate]|].
      intros f _ _. repeat split; reflexivity. }
  destruct (ParseFromString w bytes) as [md|] eqn:Hparse; cbn [final trace exit].
  2:{ split; [split; discriminate|].
      split; [split; [eauto|reflexivity]|].
      split; [split; [discriminate|intros (b & m & H & H' & _); congruence]|].
      split; [split; [discriminate|intros (b & m & H & H' & _); congruence]|].
      intros f _ _. repeat split; reflexivity. }
  destruct (InitRobotClient_ok w md) eqn:Hinit; cbn [final trace exit].
  2:{ split; [split; discriminate|].
      split; [split; [discriminate|intros (b & H & H'); congruence]|].
      split; [split; [eauto 6|reflexivity]|].
      split; [split; [discriminate|intros (b & m & H & H' & H'' & _); congruence]|].
      intros f E [-> | [-> | [-> | ->]]]; try discriminate.
      repeat split; try reflexivity. intros [H|H]; discriminate. }
  destruct (shared_memory w) as [seg|] eqn:Hshm; cbn [final trace exit].
  2:{ split; [split; discriminate|].
      split; [split; [discriminate|intros (b & H & H'); congruence]|].
      split; [split; [discriminate|intros (b & m & H & H' & H''); congruence]|].
      split; [split; [eauto 8|reflexivity]|].
      intros f E [-> | [-> | [-> | ->]]]; try discriminate.
      repeat split; try reflexivity. intros [H|H]; discriminate. }
  assert (forall f,
            exit (loop log_iters w seg nd (Z.to_nat n) 0 initial_state) = Aborted f ->
            f = AssertFile \/ f = AssertParse \/ f = AssertInitStatus \/
            f = OpenSharedMemory -> False) as Hnot.
  { intros f He Hf.
    destruct (loop_exit_cases log_iters w seg nd (Z.to_nat n) HN)
      as [H|[(f' & H & Hsf)|H]]; rewrite H in He; try discriminate.
    - injection He as ->. destruct Hf as [-> | [-> | [-> | ->]]]; exact Hsf.
    - injection He as <-. destruct Hf as [H'|[H'|[H'|H']]]; discriminate. }
  split; [split; [intros E; exfalso; eapply Hnot; eauto|discriminate]|].
  split; [split; [intros E; exfalso; eapply Hnot; eauto
                 |intros (b & H & H'); congruence]|].
  split; [split; [intros E; exfalso; eapply Hnot; eauto
                 |intros (b & m & H & H' & H''); congruence]|].
  split; [split; [intros E; exfalso; eapply Hnot; eauto 6
                 |intros (b & m & H & H' & H'' & H3); congruence]|].
  intros f E Hf. exfalso. exact (Hnot f E Hf).
Qed.

(** X5: the trace of every run in closed form. With [m] the number of
    rounds before the first one whose [SendCommand] does not return
    [true] (at most [num_requests], and [num_requests] when the run ends
    normally), the trace is: the startup requests; then for each of the
    rounds [0 .. m - 1] its request, its warning when the sample is above
    [1.0], and at a closure the line of the window and the line of the
    global statistics; then, exactly when the run ends on the failed
    assertion of line 76, the request of round [m] and the line
    [SendCommand failed.]. Nothing else is requested or printed. *)
Theorem run_trace_closed_form (A : arith) (w : World A) (nd n : Z) :
  let r := TestGrpcClient w nd n in
  let m := completed w nd n in
  0 <= m <= Z.max 0 n /\
  (exit r = Finished -> m = Z.max 0 n) /\
  (exit r = Aborted AssertSendCommand ->
   trace r = startup_requests w
               ++ healthy_trace log_iters (sample w) (Z.to_nat m) 0 initial_global
               ++ [RpcControlUpdate RobotState_default; OutSendCommandFailed]) /\
  (exit r <> Aborted AssertSendCommand ->
   trace r = startup_requests w
               ++ healthy_trace log_iters (sample w) (Z.to_nat m) 0 initial_global).
Proof.
  cbv zeta.
  destruct (run_trace log_iters w nd n ltac:(unfold log_iters; lia))
    as (Hm & Hfin & tail & Ht & Htail).
  fold (TestGrpcClient w nd n) in *.
  split; [exact Hm|]. split; [exact Hfin|].
  destruct Htail as [[-> Hne]|(-> & He & _)].
  - rewrite app_nil_r in Ht. split; [intros He; contradiction|intros _; exact Ht].
  - split; [intros _; exact Ht|intros Hne; contradiction].
Qed.

Lemma run_trace_witness :
  exit (TestGrpcClient (A:=binary32) failing_world 7 100) = Aborted AssertSendCommand /\
  trace (TestGrpcClient (A:=binary32) failing_world 7 100)
    = startup_requests failing_world
        ++ healthy_trace log_iters (sample (A:=binary32) failing_world)
             (Z.to_nat (completed (A:=binary32) failing_world 7 100)) 0 initial_global
        ++ [RpcControlUpdate RobotState_default; OutSendCommandFailed].
Proof.
  assert (exit (TestGrpcClient (A:=binary32) failing_world 7 100)
          = Aborted AssertSendCommand) as He by (vm_compute; reflexivity).
  split; [exact He|].
  exact (proj1 (proj2 (proj2 (run_trace_closed_form binary32 failing_world 7 100))) He).
Defined.

(** X6: the requests of a run are the startup requests followed by
    [ControlUpdate] requests alone, each with the default payload: one for
    each completed round, and one more when the run ends on a failed
    request. There are never more of them than [num_requests], and exactly
    [num_requests] when the run ends normally. *)
Theorem requests_of_run (A : arith) (w : World A) (nd n : Z) :
  let r := TestGrpcClient w nd n in
  exists k : nat,
    requests (trace r)
      = startup_requests w ++ replicate k (RpcControlUpdate RobotState_default) /\
    Z.of_nat k <= Z.max 0 n /\
    (exit r = Finished -> Z.of_nat k = Z.max 0 n) /\
    (exit r = Aborted AssertSendCommand -> Z.of_nat k = completed w nd n + 1) /\
    (exit r <> Aborted AssertSendCommand -> Z.of_nat k = completed w nd n).
Proof.
  cbv zeta.
  destruct (run_trace log_iters w nd n ltac:(unfold log_iters; lia))
    as (Hm & Hfin & tail & Ht & Htail).
  fold (TestGrpcClient w nd n) in *.
  destruct (startup_requests_readings w) as (_ & _ & _ & _ & Hreq & _).
  rewrite Ht, !requests_app, Hreq, healthy_trace_requests.
  destruct Htail as [[-> Hne]|(-> & He & Hlt)].
  - exists (Z.to_nat (completed w nd n)). rewrite app_nil_r.
    split; [reflexivity|]. split; [lia|]. split; [intros E; rewrite (Hfin E); lia|].
    split; [intros E; contradiction|intros _; lia].
  - exists (S (Z.to_nat (completed w nd n))).
    split; [rewrite replicate_S_end; reflexivity|]. split; [lia|].
    split; [intros E; congruence|]. split; [intros _; lia|intros E; contradiction].
Qed.

Lemma requests_of_run_witness :
  exit (TestGrpcClient (A:=binary32) failing_world 7 100) = Aborted AssertSendCommand /\
  exists k : nat,
    requests (trace (TestGrpcClient (A:=binary32) failing_world 7 100))
      = startup_requests failing_world
          ++ replicate k (RpcControlUpdate RobotState_default) /\
    Z.of_nat k = completed (A:=binary32) failing_world 7 100 + 1.
Proof.
  assert (exit (TestGrpcClient (A:=binary32) failing_world 7 100)
          = Aborted AssertSendCommand) as He by (vm_compute; reflexivity).
  split; [exact He|].
  destruct (requests_of_run binary32 failing_world 7 100)
    as (k & Hk & _ & _ & Hf & _).
  exists k. split; [exact Hk|exact (Hf He)].
Defined.

(** X7: the line [SendCommand failed.] is in the trace exactly when the
    run ends on the failed assertion of line 76. It is then the last
    event, it follows the request that failed, and it occurs once. *)
Theorem failure_line (A : arith) (w : World A) (nd n : Z) :
  let r := TestGrpcClient w nd n in
  (OutSendCommandFailed ∈ trace r <-> exit r = Aborted AssertSendCommand) /\
  (exit r = Aborted AssertSendCommand ->
   exists tr0,
     trace r = tr0 ++ [RpcControlUpdate RobotState_default; OutSendCommandFailed] /\
     OutSendCommandFailed ∉ tr0).
Proof.
  cbv zeta.
  destruct (run_trace log_iters w nd n ltac:(unfold log_iters; lia))
    as (Hm & Hfin & tail & Ht & Htail).
  fold (TestGrpcClient w nd n) in *.
  destruct (startup_requests_readings w) as (_ & _ & _ & _ & _ & Hs).
  pose proof (healthy_trace_no_failure log_iters (sample w)
                (Z.to_nat (completed w nd n)) 0 initial_global) as Hh.
  assert (OutSendCommandFailed ∉
            startup_requests w
              ++ healthy_trace log_iters (sample w) (Z.to_nat (completed w nd n)) 0
                   initial_global) as Hno.
  { apply not_elem_of_app. split; assumption. }
  destruct Htail as [[-> Hne]|(-> & He & _)].
  - rewrite app_nil_r in Ht. rewrite Ht. split.
    + split; [intros H; contradiction|intros H; contradiction].
    + intros H. contradiction.
  - split.
    + split; [intros _; exact He|]. intros _. rewrite Ht.
      apply elem_of_app. right. apply elem_of_app. right. right. left.
    + intros _. eexists. split; [rewrite Ht, app_assoc; reflexivity|exact Hno].
Qed.

Lemma failure_line_witness :
  exit (TestGrpcClient (A:=binary32) failing_world 7 100) = Aborted AssertSendCommand /\
  OutSendCommandFailed ∈ trace (TestGrpcClient (A:=binary32) failing_world 7 100).
Proof.
  assert (exit (TestGrpcClient (A:=binary32) failing_world 7 100)
          = Aborted AssertSendCommand) as He by (vm_compute; reflexivity).
  split; [exact He|].
  exact (proj2 (proj1 (failure_line binary32 failing_world 7 100)) He).
Defined.

(** X8: asking for more rounds only extends a run. The trace of the run
    of [n] rounds is the beginning of the trace of the run of [n'] rounds
    for [n <= n'], so the lines printed up to round [n] do not depend on
    [num_requests]; and a run that is aborted is the same run whatever
    larger number of rounds is asked for. *)
Theorem longer_run_extends (A : arith) (w : World A) (nd n n' : Z) :
  n <= n' ->
  let r := TestGrpcClient w nd n in
  let r' := TestGrpcClient w nd n' in
  (exists rest, trace r' = trace r ++ rest) /\
  (forall f, exit r = Aborted f -> r' = r).
Proof.
  intros Hn. cbv zeta. unfold TestGrpcClient, TestGrpcClient_with.
  destruct (metadata_file w) as [bytes|];
    [|split; [exists []; reflexivity|reflexivity]].
  destruct (ParseFromString w bytes) as [md|];
    [|split; [exists []; reflexivity|reflexivity]].
  destruct (InitRobotClient_ok w md);
    [|split; [exists []; reflexivity|reflexivity]].
  destruct (shared_memory w) as [seg|];
    [|split; [exists []; reflexivity|reflexivity]].
  cbn [final trace exit].
  replace (Z.to_nat n') with (Z.to_nat n + (Z.to_nat n' - Z.to_nat n))%nat by lia.
  rewrite loop_app. cbv zeta.
  destruct (loop log_iters w seg nd (Z.to_nat n) 0 initial_state) as [fn t [|f]];
    cbn [final trace exit].
  - split; [|discriminate]. eexists. rewrite app_comm_cons. reflexivity.
  - split; [exists []; rewrite app_nil_r; reflexivity|reflexivity].
Qed.

Lemma longer_run_witness :
  3 <= 5 /\
  exists rest,
    trace (TestGrpcClient (A:=binary32) steady_world 7 5)
      = trace (TestGrpcClient (A:=binary32) steady_world 7 3) ++ rest.
Proof.
  split; [lia|].
  exact (proj1 (longer_run_extends binary32 steady_world 7 3 5 ltac:(lia))).
Defined.

Lemma completed_with_elapsed {A : arith} (w : World A) (ns : Z -> Z) (nd n : Z) :
  completed (with_elapsed w ns) nd n = completed w nd n.
Proof.
  unfold completed. cbn [metadata_file ParseFromString InitRobotClient_ok
                         shared_memory with_elapsed].
  destruct (metadata_file w) as [bytes|]; [|reflexivity].
  destruct (ParseFromString w bytes) as [md|]; [|reflexivity].
  destruct (InitRobotClient_ok w md); [|reflexivity].
  destruct (shared_memory w) as [seg|]; [|reflexivity].
  apply rounds_completed_with_elapsed.
Qed.

(** X9: the reports ignore the rounds that lie in no closed window. The
    sample of round 0 is overwritten in round 3000 before the first window
    is evaluated, and the samples after the last closure are never
    evaluated: two runs whose durations agree on the rounds
    [1 .. 3000 * ((num_requests - 1) / 3000)] print the same window lines
    and the same global lines. *)
Theorem reports_ignore_unwindowed_rounds (A : arith) (w : World A)
    (ns : Z -> Z) (nd n : Z) :
  (forall i, 1 <= i <= log_iters * ((n - 1) / log_iters) -> ns i = elapsed_ns w i) ->
  window_reports (trace (TestGrpcClient (with_elapsed w ns) nd n))
    = window_reports (trace (TestGrpcClient w nd n)) /\
  global_reports (trace (TestGrpcClient (with_elapsed w ns) nd n))
    = global_reports (trace (TestGrpcClient w nd n)).
Proof.
  intros Hsame.
  assert (0 < log_iters) as HN by (unfold log_iters; lia).
  destruct (run_trace log_iters w nd n HN) as (Hm & _ & tail & Ht & Htail).
  destruct (run_trace log_iters (with_elapsed w ns) nd n HN)
    as (_ & _ & tail' & Ht' & Htail').
  fold (TestGrpcClient w nd n) in *.
  fold (TestGrpcClient (with_elapsed w ns) nd n) in *.
  rewrite completed_with_elapsed in Ht'.
  change (startup_requests (with_elapsed w ns)) with (startup_requests w) in Ht'.
  destruct (startup_requests_readings w) as (Hs1 & Hs2 & _).
  assert (window_reports tail = [] /\ global_reports tail = []) as [T1 T2]
    by (destruct Htail as [[-> _]|(-> & _)]; split; reflexivity).
  assert (window_reports tail' = [] /\ global_reports tail' = []) as [T1' T2']
    by (destruct Htail' as [[-> _]|(-> & _)]; split; reflexivity).
  rewrite Ht, Ht', !window_reports_app, !global_reports_app.
  rewrite Hs1, Hs2, T1, T2, T1', T2', !app_nil_r. cbn [app].
  apply healthy_trace_reports_ext; [exact HN|].
  intros c Hc Hcl t Htr.
  apply closes_spec in Hcl as [Hpos Hmod]; [|exact HN|lia].
  unfold sample. cbn [elapsed_ns with_elapsed]. f_equal. apply Hsame.
  pose proof (Z.div_mod c log_iters ltac:(lia)) as Hd. rewrite Hmod in Hd.
  assert (0 < c / log_iters) by nia.
  assert (c / log_iters <= (n - 1) / log_iters) by (apply Z.div_le_mono; lia).
  nia.
Qed.

Lemma reports_ignore_witness :
  (forall i, 1 <= i <= log_iters * ((3001 - 1) / log_iters) ->
     (if i =? 0 then 5000000 else 100000) = elapsed_ns steady_world i) /\
  window_reports
    (trace (TestGrpcClient (A:=binary32)
              (with_elapsed steady_world (fun i => if i =? 0 then 5000000 else 100000))
              7 3001))
    = window_reports (trace (TestGrpcClient (A:=binary32) steady_world 7 3001)).
Proof.
  assert (forall i, 1 <= i <= log_iters * ((3001 - 1) / log_iters) ->
            (if i =? 0 then 5000000 else 100000) = elapsed_ns steady_world i) as H.
  { intros i Hi. destruct (Z.eqb_spec i 0); [lia|reflexivity]. }
  split; [exact H|].
  exact (proj1 (reports_ignore_unwindowed_rounds binary32 steady_world
                  (fun i => if i =? 0 then 5000000 else 100000) 7 3001 H)).
Defined.

(** * Extremes that are attained *)

Section AttainedFacts.
Context {A : arith}.
Implicit Types (w : World A) (smp : Z -> A) (g s : stats A) (l : list A).

(** [std::max_element] and [std::min_element] return an element of the
    range, whatever the order. *)
Lemma max_from_elem l : forall x, max_from x l ∈ x :: l.
Proof.
  induction l as [|y l IH]; intros x; simpl; [left|].
  specialize (IH (if ltb x y then y else x)).
  apply elem_of_cons in IH as [IH|IH].
  - rewrite IH. destruct (ltb x y); [right; left|left].
  - right. right. exact IH.
Qed.

Lemma min_from_elem l : forall x, min_from x l ∈ x :: l.
Proof.
  induction l as [|y l IH]; intros x; simpl; [left|].
  specialize (IH (if ltb y x then y else x)).
  apply elem_of_cons in IH as [IH|IH].
  - rewrite IH. destruct (ltb y x); [right; left|left].
  - right. right. exact IH.
Qed.

(** The extremes of a window are the samples of two of its rounds. *)
Lemma window_summary_attained N smp i :
  0 < N ->
  (exists t, i - N + 1 <= t <= i /\ max_time (window_summary N smp i) = smp t) /\
  (exists t, i - N + 1 <= t <= i /\ min_time (window_summary N smp i) = smp t).
Proof.
  intros HN. unfold window_summary. cbn [max_time min_time].
  assert (forall y, y ∈ smp i :: map smp (seqZ (i - N + 1) (N - 1)) ->
            exists t, i - N + 1 <= t <= i /\ y = smp t) as Hmem.
  { intros y Hy. apply elem_of_cons in Hy as [->|Hy].
    - exists i. split; [lia|reflexivity].
    - apply list_elem_of_fmap in Hy as (t & -> & Ht). apply elem_of_seqZ in Ht.
      exists t. split; [lia|reflexivity]. }
  split; apply Hmem; [apply max_from_elem|apply min_from_elem].
Qed.

(** A global report carries the extremes it started from or those of a
    window combined so far. *)
Lemma combine_all_pick (ws : list (stats A)) : forall k g n g',
  combine_all k g ws !! n = Some g' ->
  (max_time g' = max_time g \/
   exists j s, (j <= n)%nat /\ ws !! j = Some s /\ max_time g' = max_time s) /\
  (min_time g' = min_time g \/
   exists j s, (j <= n)%nat /\ ws !! j = Some s /\ min_time g' = min_time s).
Proof.
  induction ws as [|s0 ws IH]; intros k g n g' Hn; simpl in Hn; [discriminate|].
  assert ((max_time (combine k g s0) = max_time g \/
           max_time (combine k g s0) = max_time s0) /\
          (min_time (combine k g s0) = min_time g \/
           min_time (combine k g s0) = min_time s0)) as [Hmax0 Hmin0].
  { unfold combine. cbn [max_time min_time].
    destruct (gtb _ _), (ltb _ _); auto. }
  destruct n as [|n]; simpl in Hn.
  - injection Hn as <-. split.
    + destruct Hmax0 as [E|E]; [left; exact E|].
      right. exists 0%nat, s0. auto.
    + destruct Hmin0 as [E|E]; [left; exact E|].
      right. exists 0%nat, s0. auto.
  - destruct (IH _ _ _ _ Hn) as [Hmax Hmin]. split.
    + destruct Hmax as [E|(j & s & Hj & Hs & E)].
      * rewrite E. destruct Hmax0 as [E0|E0]; [left; exact E0|].
        right. exists 0%nat, s0. split; [lia|]. auto.
      * right. exists (S j), s. split; [lia|]. auto.
    + destruct Hmin as [E|(j & s & Hj & Hs & E)].
      * rewrite E. destruct Hmin0 as [E0|E0]; [left; exact E0|].
        right. exists 0%nat, s0. split; [lia|]. auto.
      * right. exists (S j), s. split; [lia|]. auto.
Qed.

(** When the first window beats the values the combining starts from,
    these never show in a report. *)
Lemma combine_all_attained (ws : list (stats A)) k g n g' :
  (forall s0, ws !! 0%nat = Some s0 ->
     gtb (max_time s0) (max_time g) = true /\ ltb (min_time s0) (min_time g) = true) ->
  combine_all k g ws !! n = Some g' ->
  (exists j s, (j <= n)%nat /\ ws !! j = Some s /\ max_time g' = max_time s) /\
  (exists j s, (j <= n)%nat /\ ws !! j = Some s /\ min_time g' = min_time s).
Proof.
  intros Hfirst Hn. destruct ws as [|s0 ws]; [discriminate|].
  destruct (Hfirst s0 eq_refl) as [Hgt Hlt].
  assert (max_time (combine k g s0) = max_time s0 /\
          min_time (combine k g s0) = min_time s0) as [E1 E2].
  { unfold combine. cbn [max_time min_time]. rewrite Hgt, Hlt. auto. }
  simpl in Hn. destruct n as [|n]; simpl in Hn.
  - injection Hn as <-. split; exists 0%nat, s0; auto.
  - destruct (combine_all_pick ws _ _ _ _ Hn) as [Hmax Hmin]. split.
    + destruct Hmax as [E|(j & s & Hj & Hs & E)].
      * exists 0%nat, s0. split; [lia|]. split; [reflexivity|congruence].
      * exists (S j), s. split; [lia|]. auto.
    + destruct Hmin as [E|(j & s & Hj & Hs & E)].
      * exists 0%nat, s0. split; [lia|]. split; [reflexivity|congruence].
      * exists (S j), s. split; [lia|]. auto.
Qed.

End AttainedFacts.

(** X10: the maximum of a window that is above the threshold has been
    warned about: whenever a window line reports a maximum above [1.0], a
    warning line with that value is in the trace. So a run without a
    warning reports no window maximum above [1.0]. *)
Theorem window_max_above_threshold_warned (A : arith) (w : World A) (nd n : Z) :
  let tr := trace (TestGrpcClient w nd n) in
  Forall (fun s => gtb (max_time s) (of_int 1) = true -> max_time s ∈ warnings tr)
    (window_reports tr) /\
  (warnings tr = [] ->
   Forall (fun s => gtb (max_time s) (of_int 1) = false) (window_reports tr)).
Proof.
  assert (0 < log_iters) as HN by (unfold log_iters; lia).
  cbv zeta.
  assert (Forall (fun s => gtb (max_time s) (of_int 1) = true ->
                           max_time s ∈ warnings (trace (TestGrpcClient w nd n)))
            (window_reports (trace (TestGrpcClient w nd n)))) as Hall.
  { destruct (run_structure log_iters w nd n HN)
      as (m & Hm & Hw & _ & Hwarn & _).
    fold (TestGrpcClient w nd n) in *.
    rewrite Hw, Hwarn. apply Forall_forall. intros s Hs Hgt.
    apply list_elem_of_fmap in Hs as (i & -> & Hi).
    apply closure_rounds_elem in Hi as [Hi Hmod]; [|exact HN].
    destruct (window_summary_attained log_iters (sample w) i HN)
      as [(t & Ht & E) _].
    rewrite E in *.
    assert (log_iters <= i).
    { pose proof (Z.div_mod i log_iters ltac:(lia)) as Hd. rewrite Hmod in Hd.
      assert (0 < i / log_iters) by nia. nia. }
    apply list_elem_of_In, filter_In. split; [|exact Hgt].
    apply list_elem_of_In, list_elem_of_fmap. exists t. split; [reflexivity|].
    apply elem_of_seqZ. lia. }
  split; [exact Hall|].
  intros Hnone. eapply Forall_impl; [exact Hall|].
  intros s Hs. cbv beta in Hs. rewrite Hnone in Hs.
  destruct (gtb (max_time s) (of_int 1)); [|reflexivity].
  specialize (Hs eq_refl). inversion Hs.
Qed.

(** X11: the initial values [-99999.0] and [99999.0] of the global
    extremes never show in a report when every sample lies strictly
    between them: the maximum of each global line is then the maximum of
    one of the windows reported up to it, and its minimum the minimum of
    one of them. *)
Theorem global_extremes_attained (A : arith) (w : World A) (nd n : Z) :
  (forall i, ltb (of_int (-99999)) (sample w i) = true /\
             ltb (sample w i) (of_int 99999) = true) ->
  let tr := trace (TestGrpcClient w nd n) in
  forall k g,
    global_reports tr !! k = Some g ->
    (exists j s, (j <= k)%nat /\ window_reports tr !! j = Some s /\
                 max_time g = max_time s) /\
    (exists j s, (j <= k)%nat /\ window_reports tr !! j = Some s /\
                 min_time g = min_time s).
Proof.
  intros Hbounds. cbv zeta. intros k g Hk.
  assert (0 < log_iters) as HN by (unfold log_iters; lia).
  destruct (run_structure log_iters w nd n HN) as (m & _ & Hw & Hg & _).
  fold (TestGrpcClient w nd n) in *.
  rewrite Hg in Hk.
  apply (combine_all_attained _ 1 initial_global k g); [|exact Hk].
  intros s0 Hs0. rewrite Hw in Hs0.
  rewrite list_lookup_fmap in Hs0.
  destruct (closure_rounds log_iters m !! 0%nat) as [i|]; [|discriminate].
  injection Hs0 as <-.
  destruct (window_summary_attained log_iters (sample w) i HN)
    as [(t1 & _ & E1) (t2 & _ & E2)].
  rewrite E1, E2. unfold gtb, initial_global. cbn [max_time min_time].
  split; apply Hbounds.
Qed.

Lemma global_extremes_witness :
  (forall i, SFltb (F32.of_Z (-99999)) (sample (A:=binary32) steady_world i) = true /\
             SFltb (sample (A:=binary32) steady_world i) (F32.of_Z 99999) = true) /\
  forall k g,
    global_reports (trace (TestGrpcClient (A:=binary32) steady_world 7 6001)) !! k = Some g ->
    exists j s, (j <= k)%nat /\
      window_reports (trace (TestGrpcClient (A:=binary32) steady_world 7 6001)) !! j = Some s /\
      max_time g = max_time s.
Proof.
  assert (forall i,
            SFltb (F32.of_Z (-99999)) (sample (A:=binary32) steady_world i) = true /\
            SFltb (sample (A:=binary32) steady_world i) (F32.of_Z 99999) = true)
    as H by (intros i; split; vm_compute; reflexivity).
  split; [exact H|].
  intros k g Hk.
  exact (proj1 (global_extremes_attained binary32 steady_world 7 6001 H k g Hk)).
Defined.

(** Without the bound the initial value shows: when every round takes
    200 seconds, the global minimum that is reported is [99999.0], below
    every sample. *)
Example sentinel_in_global_minimum :
  global_reports
    (trace (TestGrpcClient_with (A:=binary32) 2
              (with_elapsed steady_world (fun _ => 200000000000)) 7 3))
    = [ {| max_time := F32.of_Z 200000;
           min_time := F32.of_Z 99999;
           avg_time := F32.of_Z 200000 |} ].
Proof. vm_compute. reflexivity. Qed.

(** * The global mean in exact arithmetic *)

Lemma Qsum_app (l1 l2 : list Q) : (Qsum (l1 ++ l2) == Qsum l1 + Qsum l2)%Q.
Proof.
  induction l1 as [|x l1 IH].
  - change (Qsum l2 == 0 + Qsum l2)%Q. ring.
  - change (x + Qsum (l1 ++ l2) == (x + Qsum l1) + Qsum l2)%Q.
    rewrite IH. ring.
Qed.

Lemma foldl_Qplus_Qsum (l : list Q) : forall a : Q,
  (foldl Qplus a l == a + Qsum l)%Q.
Proof.
  induction l as [|x l IH]; intros a.
  - change (a == a + 0)%Q. ring.
  - change (foldl Qplus (a + x)%Q l == a + (x + Qsum l))%Q.
    rewrite IH. ring.
Qed.

(** The samples of rounds [1 .. i] are those of rounds [1 .. i - N] and
    those of the window that closes in round [i]. *)
Lemma Qsum_window (N : Z) (smp : Z -> Q) (i : Z) :
  0 < N -> N <= i ->
  (Qsum (map smp (seqZ 1 i))
   == Qsum (map smp (seqZ 1 (i - N)))
      + foldl Qplus 0 (smp i :: map smp (seqZ (i - N + 1) (N - 1))))%Q.
Proof.
  intros HN Hi.
  assert (seqZ 1 i = seqZ 1 (i - N) ++ seqZ (i - N + 1) (N - 1) ++ [i]) as ->.
  { replace i with ((i - N) + ((N - 1) + 1)) at 1 by lia.
    rewrite seqZ_app by lia. f_equal.
    rewrite seqZ_app by lia. replace (1 + (i - N)) with (i - N + 1) by lia.
    f_equal. rewrite (seqZ_cons _ 1) by lia. rewrite (seqZ_nil _ (Z.pred 1)) by lia.
    f_equal. lia. }
  rewrite !map_app, !Qsum_app, foldl_Qplus_Qsum.
  change (Qsum (smp i :: map smp (seqZ (i - N + 1) (N - 1))))
    with (smp i + Qsum (map smp (seqZ (i - N + 1) (N - 1))))%Q.
  change (Qsum (map smp [i])) with (smp i + 0)%Q. ring.
Qed.

(** In exact arithmetic the running mean over the first closures is the
    mean of all the samples of the rounds up to the closure. *)
Lemma exact_running_means (N : Z) (smp : Z -> Q) (c : nat) : forall (k : Z) (g : Q),
  0 < N -> 1 <= k ->
  (inject_Z (k - 1) * g == Qsum (map smp (seqZ 1 ((k - 1) * N))) / inject_Z N)%Q ->
  Forall2 Qeq
    (running_means exact k g
       (map (fun i => avg_time (window_summary (A:=exact) N smp i))
          (map (fun q => q * N) (seqZ k (Z.of_nat c)))))
    (map (fun q => sample_mean smp (q * N)) (seqZ k (Z.of_nat c))).
Proof.
  induction c as [|c IH]; intros k g HN Hk Hg; [constructor|].
  rewrite (seqZ_cons k) by lia.
  replace (Z.pred (Z.of_nat (S c))) with (Z.of_nat c) by lia.
  cbn [map running_means].
  assert (~ inject_Z N == 0)%Q as HNq by (apply inject_Z_nonzero; lia).
  assert (~ inject_Z k == 0)%Q as Hkq by (apply inject_Z_nonzero; lia).
  assert (Qsum (map smp (seqZ 1 (k * N)%Z))
          == Qsum (map smp (seqZ 1 ((k - 1) * N)%Z))
             + foldl Qplus 0
                 (smp (k * N)%Z :: map smp (seqZ (k * N - N + 1)%Z (N - 1)%Z)))%Q
    as Hsum.
  { rewrite (Qsum_window N smp (k * N)) by nia.
    replace (k * N - N) with ((k - 1) * N) by lia. reflexivity. }
  assert (Qdiv (Qplus (Qmult (inject_Z (k - 1)) g)
                        (avg_time (window_summary (A:=exact) N smp (k * N))))
               (inject_Z k)
          == sample_mean smp (k * N))%Q as Hstep.
  { assert (avg_time (window_summary (A:=exact) N smp (k * N))
            = Qdiv (foldl Qplus 0%Q
                      (smp (k * N) :: map smp (seqZ (k * N - N + 1) (N - 1))))
                   (inject_Z N)) as -> by reflexivity.
    unfold sample_mean. rewrite Hg, Hsum, inject_Z_mult.
    field. split; assumption. }
  constructor; [exact Hstep|].
  apply IH; [exact HN|lia|].
  replace (Z.succ k - 1) with k by lia.
  replace ((Z.succ k - 1) * N) with (k * N) by lia.
  rewrite Hstep. unfold sample_mean. rewrite inject_Z_mult. field.
  split; assumption.
Qed.

(** X12: computed in exact arithmetic, the global mean printed after the
    [k]-th closure is the mean of all the samples of rounds
    [1 .. 3000 * k]: the windows being of one size, the running mean of
    the window means weights every sample alike. *)
Theorem exact_global_mean_is_sample_mean (w : World Q) (nd n : Z) :
  let tr := trace (TestGrpcClient (A:=exact) w nd n) in
  Forall2 Qeq
    (map avg_time (global_reports tr))
    (map (fun k => sample_mean (sample (A:=exact) w) (k * log_iters))
       (seqZ 1 (Z.of_nat (length (global_reports tr))))).
Proof.
  assert (0 < log_iters) as HN by (unfold log_iters; lia).
  cbv zeta.
  destruct (run_structure (A:=exact) log_iters w nd n HN) as (m & _ & Hw & Hg & _).
  fold (TestGrpcClient (A:=exact) w nd n) in *.
  rewrite Hg at 1. rewrite avg_combine_all.
  rewrite Hg, combine_all_length, Hw. unfold closure_rounds.
  rewrite !length_map, length_seqZ.
  rewrite (map_map (window_summary (A:=exact) log_iters (sample (A:=exact) w))
             avg_time).
  assert (seqZ 1 ((m - 1) / log_iters)
          = seqZ 1 (Z.of_nat (Z.to_nat ((m - 1) / log_iters)))) as ->.
  { destruct (Z.le_gt_cases 0 ((m - 1) / log_iters)) as [H|H].
    - rewrite Z2Nat.id by lia. reflexivity.
    - rewrite !seqZ_nil by lia. reflexivity. }
  apply exact_running_means; [exact HN|lia|].
  change (avg_time (@initial_global exact)) with (inject_Z 0).
  change (seqZ 1 ((1 - 1) * log_iters)) with (@nil Z). unfold Qsum. simpl.
  field. apply inject_Z_nonzero. lia.
Qed.

(** * The process *)

(** X13: the exit codes of [main]. The process returns 1 exactly when it
    is not started with one argument; it then prints the usage line and
    does nothing else. It returns no code other than 0 and 1. When it
    returns 0, the configuration was loaded, the five values were read,
    and the client ran to the end of its [num_requests] rounds with no
    obstacle: it issued the initialization request and then exactly
    [num_requests] [ControlUpdate] requests. *)
Theorem main_exit_code (A : arith) (h : Host A) (argv : list string) :
  let p := main h argv in
  (ended p = Returned 1 <-> length argv <> 2%nat) /\
  (length argv <> 2%nat -> usage_printed p = true /\ client_trace p = []) /\
  (forall code, ended p = Returned code -> code = 0 \/ code = 1) /\
  (ended p = Returned 0 ->
   exists config use_real_time nd n addr path,
     LoadFile h (default "" (argv !! 1%nat)) = Some config /\
     as_bool config "use_real_time" = Some use_real_time /\
     as_int config "num_dofs" = Some nd /\
     as_int config "num_requests" = Some n /\
     as_string config "server_address" = Some addr /\
     as_string config "robot_client_metadata_path" = Some path /\
     client_trace p = trace (TestGrpcClient (client_world h addr path) nd n) /\
     healthy (client_world h addr path) nd n /\
     requests (client_trace p)
       = startup_requests (client_world h addr path)
           ++ replicate (Z.to_nat n) (RpcControlUpdate RobotState_default)).
Proof.
  assert (0 < log_iters) as HN by (unfold log_iters; lia).
  cbv zeta. unfold main.
  destruct (decide (Z.of_nat (length argv) <> 2)) as [Hargc|Hargc];
    cbn [ended usage_printed client_trace].
  { split; [split; [intros _; lia|reflexivity]|].
    split; [intros _; split; reflexivity|].
    split; [intros code E; injection E as <-; right; reflexivity|discriminate]. }
  assert (length argv = 2%nat) as Hlen by lia.
  destruct (LoadFile h (default "" (argv !! 1%nat))) as [config|];
    cbn [ended usage_printed client_trace].
  2:{ split; [split; [discriminate|intros H; contradiction]|].
      split; [intros H; contradiction|]. split; discriminate. }
  destruct (as_bool config "use_real_time") as [use_real_time|] eqn:E0;
    cbn [ended usage_printed client_trace].
  2:{ split; [split; [discriminate|intros H; contradiction]|].
      split; [intros H; contradiction|]. split; discriminate. }
  assert ((if negb use_real_time then RunClient h config
           else create_real_time_thread (RunClient h) config) = RunClient h config)
    as -> by (destruct use_real_time; reflexivity).
  unfold RunClient.
  destruct (as_int config "num_dofs") as [nd|] eqn:E1;
    [|cbn; split; [split; [discriminate|intros H; contradiction]|];
      split; [intros H; contradiction|]; split; discriminate].
  destruct (as_int config "num_requests") as [n|] eqn:E2;
    [|cbn; split; [split; [discriminate|intros H; contradiction]|];
      split; [intros H; contradiction|]; split; discriminate].
  destruct (as_string config "server_address") as [addr|] eqn:E3;
    [|cbn; split; [split; [discriminate|intros H; contradiction]|];
      split; [intros H; contradiction|]; split; discriminate].
  destruct (as_string config "robot_client_metadata_path") as [path|] eqn:E4;
    [|cbn; split; [split; [discriminate|intros H; contradiction]|];
      split; [intros H; contradiction|]; split; discriminate].
  cbv zeta. cbn [ended usage_printed client_trace].
  set (r := TestGrpcClient (client_world h addr path) nd n).
  destruct (exit r) as [|f] eqn:He.
  2:{ split; [split; [discriminate|intros H; contradiction]|].
      split; [intros H; contradiction|]. split; discriminate. }
  split; [split; [discriminate|intros H; contradiction]|].
  split; [intros H; contradiction|].
  split; [intros code E; injection E as <-; left; reflexivity|].
  intros _. exists config, use_real_time, nd, n, addr, path.
  split; [reflexivity|]. split; [exact E0|]. split; [exact E1|].
  split; [exact E2|]. split; [exact E3|]. split; [exact E4|].
  split; [reflexivity|].
  split; [exact (finished_healthy log_iters _ nd n HN He)|].
  destruct (run_trace log_iters (client_world h addr path) nd n HN)
    as (Hm & Hfin & tail & Ht & Htail).
  change (TestGrpcClient_with log_iters (client_world h addr path) nd n)
    with r in Hfin, Ht, Htail.
  destruct (startup_requests_readings (client_world h addr path))
    as (_ & _ & _ & _ & Hreq & _).
  destruct Htail as [[-> _]|(_ & He' & _)]; [|congruence].
  rewrite Ht, app_nil_r, requests_app, Hreq, healthy_trace_requests.
  rewrite (Hfin He). do 2 f_equal. lia.
Qed.

Lemma main_exit_code_witness :
  ended (main (A:=binary32) (lab_host (lab_config true 5) steady_world)
           ["empty_statistics_client"; "cfg.yaml"]) = Returned 0 /\
  length (requests
            (client_trace
               (main (A:=binary32) (lab_host (lab_config true 5) steady_world)
                  ["empty_statistics_client"; "cfg.yaml"]))) = 6%nat.
Proof.
  assert (ended (main (A:=binary32) (lab_host (lab_config true 5) steady_world)
                   ["empty_statistics_client"; "cfg.yaml"]) = Returned 0) as He
    by (vm_compute; reflexivity).
  split; [exact He|].
  destruct (proj2 (proj2 (proj2
              (main_exit_code binary32 (lab_host (lab_config true 5) steady_world)
                 ["empty_statistics_client"; "cfg.yaml"]))) He)
    as (config & rt & nd & n & addr & path & Hc & _ & _ & Hn & _ & _ & _ & _ & Hreq).
  rewrite Hreq. injection Hc as <-. vm_compute in Hn. injection Hn as <-.
  reflexivity.
Defined.

(** X14: no client without a complete configuration. When the process
    is started with one argument and the configuration file does not
    load, or one of the five values is missing or does not convert, the
    process is terminated by the exception before the client is
    constructed: nothing is requested and nothing is printed. *)
Theorem main_no_client_without_config (A : arith) (h : Host A) (argv : list string) :
  let p := main h argv in
  length argv = 2%nat ->
  (LoadFile h (default "" (argv !! 1%nat)) = None ->
   ended p = Terminated ThrowLoadFile /\ client_trace p = [] /\
   usage_printed p = false) /\
  (forall config,
     LoadFile h (default "" (argv !! 1%nat)) = Some config ->
     ~ config_complete config ->
     (exists key, ended p = Terminated (ThrowConversion key)) /\
     client_trace p = [] /\ usage_printed p = false) /\
  (forall e, e ∈ client_trace p ->
     exists config,
       LoadFile h (default "" (argv !! 1%nat)) = Some config /\
       config_complete config).
Proof.
  cbv zeta. intros Hlen. unfold main.
  destruct (decide (Z.of_nat (length argv) <> 2)) as [Hargc|_]; [lia|].
  destruct (LoadFile h (default "" (argv !! 1%nat))) as [config|];
    cbn [ended usage_printed client_trace].
  2:{ split; [auto|]. split; [discriminate|]. intros e He. inversion He. }
  split; [discriminate|].
  assert (forall P : Config -> Prop, P config ->
            forall c, Some config = Some c -> P c) as Hsame
    by (intros P HP c E; injection E as <-; exact HP).
  unfold config_complete.
  destruct (as_bool config "use_real_time") as [use_real_time|] eqn:E0;
    cbn [ended usage_printed client_trace].
  2:{ split.
      - intros c E _. injection E as <-. split; [eauto|]. split; reflexivity.
      - intros e He. inversion He. }
  assert ((if negb use_real_time then RunClient h config
           else create_real_time_thread (RunClient h) config) = RunClient h config)
    as -> by (destruct use_real_time; reflexivity).
  unfold RunClient.
  destruct (as_int config "num_dofs") as [nd|] eqn:E1.
  2:{ cbn. split.
      - intros c E _. injection E as <-. split; [eauto|]. split; reflexivity.
      - intros e He. inversion He. }
  destruct (as_int config "num_requests") as [n|] eqn:E2.
  2:{ cbn. split.
      - intros c E _. injection E as <-. split; [eauto|]. split; reflexivity.
      - intros e He. inversion He. }
  destruct (as_string config "server_address") as [addr|] eqn:E3.
  2:{ cbn. split.
      - intros c E _. injection E as <-. split; [eauto|]. split; reflexivity.
      - intros e He. inversion He. }
  destruct (as_string config "robot_client_metadata_path") as [path|] eqn:E4.
  2:{ cbn. split.
      - intros c E _. injection E as <-. split; [eauto|]. split; reflexivity.
      - intros e He. inversion He. }
  cbv zeta. cbn [ended usage_printed client_trace]. split.
  - intros c E Hnot. injection E as <-. exfalso. apply Hnot.
    rewrite E0, E1, E2, E3, E4. repeat split; eauto.
  - intros e _. exists config. split; [reflexivity|].
    rewrite E0, E1, E2, E3, E4. repeat split; eauto.
Qed.

Lemma main_no_client_witness :
  length ["empty_statistics_client"; "cfg.yaml"] = 2%nat /\
  ~ config_complete {| as_int := as_int (lab_config false 5);
                       as_string := fun _ => None;
                       as_bool := as_bool (lab_config false 5) |} /\
  client_trace
    (main (A:=binary32)
       (lab_host {| as_int := as_int (lab_config false 5);
                    as_string := fun _ => None;
                    as_bool := as_bool (lab_config false 5) |} steady_world)
       ["empty_statistics_client"; "cfg.yaml"]) = [].
Proof.
  assert (~ config_complete {| as_int := as_int (lab_config false 5);
                               as_string := fun _ => None;
                               as_bool := as_bool (lab_config false 5) |}) as Hn.
  { intros (_ & _ & _ & [v Hv] & _). discriminate. }
  split; [reflexivity|]. split; [exact Hn|].
  exact (proj1 (proj2 (proj1 (proj2
           (main_no_client_without_config binary32
              (lab_host {| as_int := as_int (lab_config false 5);
                           as_string := fun _ => None;
                           as_bool := as_bool (lab_config false 5) |} steady_world)
              ["empty_statistics_client"; "cfg.yaml"] eq_refl))
           _ eq_refl Hn))).
Defined.

(** * The buffer at the end of a run *)

Section FinalFacts.
Context {A : arith}.
Implicit Types (w : World A) (seg : Z -> Segment A) (st : loop_state A).

(** The buffer invariant holds of the state the loop ends in, for the
    rounds that were completed. *)
Lemma loop_final_buffer N w seg nd rounds : forall i st,
  0 < N -> 0 <= i -> buffer_inv N (sample w) i (times_taken st) ->
  buffer_inv N (sample w) (i + rounds_completed w seg nd rounds i)
    (times_taken (final (loop N w seg nd rounds i st))).
Proof.
  induction rounds as [|rounds IH]; intros i st HN Hi Hinv;
    cbn [loop rounds_completed final].
  - rewrite Z.add_0_r. exact Hinv.
  - destruct (SendCommand_shape w (seg i) nd i) as [[f Hs]|[[Hs Hc]|[Hs Hc]]].
    + unfold body. rewrite Hs. cbn [final]. rewrite Z.add_0_r. exact Hinv.
    + destruct (measure_spec N w i st HN Hi Hinv) as (st1 & Hm & Hinv' & _).
      unfold body. rewrite Hs, Hm. cbn [final].
      replace (i + (1 + rounds_completed w seg nd rounds (i + 1)))
        with (i + 1 + rounds_completed w seg nd rounds (i + 1)) by lia.
      apply IH; [exact HN|lia|exact Hinv'].
    + unfold body. rewrite Hs. cbn [final]. rewrite Z.add_0_r. exact Hinv.
Qed.

(** The slot a round is recorded in. *)
Lemma latest_round_of_slot (N m j : Z) :
  0 < N -> 0 <= j < Z.min m N ->
  let t := m - 1 - (m - 1 - j) mod N in
  0 <= t /\ m - N <= t < m /\ t mod N = j.
Proof.
  intros HN Hj. cbv zeta.
  pose proof (Z.mod_pos_bound (m - 1 - j) N HN) as Hb.
  pose proof (Z.div_mod (m - 1 - j) N ltac:(lia)) as Hd.
  assert (0 <= (m - 1 - j) / N) as Hq by (apply Z.div_pos; lia).
  split; [nia|]. split; [lia|].
  symmetry. apply (Z.mod_unique_pos _ _ ((m - 1 - j) / N)); lia.
Qed.

(** The timestamp the zero-fill loop is handed has no part in what the
    loop comes to. *)
Lemma zero_fill_any_timestamp fuel : forall i (l1 l2 : locals A),
  joint_positions l1 = joint_positions l2 ->
  joint_velocities l1 = joint_velocities l2 ->
  joint_torques_measured l1 = joint_torques_measured l2 ->
  joint_torques_external l1 = joint_torques_external l2 ->
  fst (zero_fill fuel i l1) = fst (zero_fill fuel i l2) /\
  match snd (zero_fill fuel i l1), snd (zero_fill fuel i l2) with
  | inl f1, inl f2 => f1 = f2
  | inr _, inr _ => True
  | _, _ => False
  end.
Proof.
  induction fuel as [|fuel IH]; intros i l1 l2 H1 H2 H3 H4; cbn [zero_fill].
  - split; [reflexivity|exact I].
  - rewrite H1, H2, H3, H4. unfold bind.
    destruct (store "joint_positions" _ _ _) as [e1 [f1|v1]]; simpl;
      [split; reflexivity|].
    destruct (store "joint_velocities" _ _ _) as [e2 [f2|v2]]; simpl;
      [split; reflexivity|].
    destruct (store "joint_torques_measured" _ _ _) as [e3 [f3|v3]]; simpl;
      [split; reflexivity|].
    destruct (store "joint_torques_external" _ _ _) as [e4 [f4|v4]]; simpl;
      [split; reflexivity|].
    pose proof (IH (i + 1)
                  {| timestamp := timestamp l1; joint_positions := v1;
                     joint_velocities := v2; joint_torques_measured := v3;
                     joint_torques_external := v4 |}
                  {| timestamp := timestamp l2; joint_positions := v1;
                     joint_velocities := v2; joint_torques_measured := v3;
                     joint_torques_external := v4 |}
                  eq_refl eq_refl eq_refl eq_refl) as [Hf Hs].
    destruct (zero_fill fuel (i + 1) {| timestamp := timestamp l1 |}) as [t1 r1].
    destruct (zero_fill fuel (i + 1) {| timestamp := timestamp l2 |}) as [t2 r2].
    simpl in *. subst t2. split; [reflexivity|exact Hs].
Qed.

(** The wall clock has no part in a call of [SendCommand]. *)
Lemma SendCommand_with_now w (clock : Z -> ShmTimestamp) (sg : Segment A) nd i :
  SendCommand (with_now w clock) sg nd i = SendCommand w sg nd i.
Proof.
  unfold SendCommand.
  destruct (timestamps sg !! "shm_timestamp") as [ts|]; [|reflexivity].
  destruct (vectors sg !! "joint_positions") as [jp|]; [|reflexivity].
  destruct (vectors sg !! "joint_velocities") as [jv|]; [|reflexivity].
  destruct (vectors sg !! "joint_torques_measured") as [jm|]; [|reflexivity].
  destruct (vectors sg !! "joint_torques_external") as [je|]; [|reflexivity].
  cbn [deref bind ret app now with_now ControlUpdate_ok].
  pose proof (zero_fill_any_timestamp (Z.to_nat nd) 0
                {| timestamp := setTimestampToNow (clock i) ts; joint_positions := jp;
                   joint_velocities := jv; joint_torques_measured := jm;
                   joint_torques_external := je |}
                {| timestamp := setTimestampToNow (now w i) ts; joint_positions := jp;
                   joint_velocities := jv; joint_torques_measured := jm;
                   joint_torques_external := je |}
                eq_refl eq_refl eq_refl eq_refl) as [Hf Hs].
  destruct (zero_fill (Z.to_nat nd) 0
              {| timestamp := setTimestampToNow (clock i) ts |}) as [t1 r1].
  destruct (zero_fill (Z.to_nat nd) 0
              {| timestamp := setTimestampToNow (now w i) ts |}) as [t2 r2].
  simpl in Hf, Hs. subst t2.
  destruct r1 as [f1|l1], r2 as [f2|l2]; try contradiction; [subst f2|]; reflexivity.
Qed.

Lemma loop_with_now N w (clock : Z -> ShmTimestamp) seg nd rounds : forall i st,
  loop N (with_now w clock) seg nd rounds i st = loop N w seg nd rounds i st.
Proof.
  induction rounds as [|rounds IH]; intros i st; cbn [loop]; [reflexivity|].
  unfold body. rewrite SendCommand_with_now.
  change (sample (with_now w clock) i) with (sample w i).
  destruct (SendCommand w (seg i) nd i) as [evs [f|[|]]]; try reflexivity.
  destruct (measure N i st (sample w i)) as [st' evs'|st' f evs']; [|reflexivity].
  rewrite IH. reflexivity.
Qed.

End FinalFacts.

(** X15: the wall clock has no effect on a run. [SendCommand] stamps a
    local copy of the timestamp (line 144) and never reads it again, so a
    call, and with it the whole run, is the same whatever
    [setTimestampToNow] reads: the trace, the way the run ends and the
    statistics do not depend on the clock. *)
Theorem run_independent_of_clock (A : arith) (w : World A)
    (clock : Z -> ShmTimestamp) (nd n : Z) :
  (forall sg i, SendCommand (with_now w clock) sg nd i = SendCommand w sg nd i) /\
  TestGrpcClient (with_now w clock) nd n = TestGrpcClient w nd n.
Proof.
  split; [intros sg i; apply SendCommand_with_now|].
  unfold TestGrpcClient, TestGrpcClient_with.
  cbn [metadata_file ParseFromString InitRobotClient_ok shared_memory with_now].
  destruct (metadata_file w) as [bytes|]; [|reflexivity].
  destruct (ParseFromString w bytes) as [md|]; [|reflexivity].
  destruct (InitRobotClient_ok w md); [|reflexivity].
  destruct (shared_memory w) as [seg|]; [|reflexivity].
  rewrite loop_with_now. reflexivity.
Qed.

(** X16: the sample buffer at the end of a run. With [m] the number of
    completed rounds, the buffer has [min m 3000] entries, so it never
    grows past the 3000 entries reserved for it; slot [j] holds the sample
    of the one round among the last 3000 (rounds [m - 3000 .. m - 1], from
    round 0 on) whose number is [j] modulo 3000; and the global statistics
    are those of the last global line, or the initial values when no
    window was closed. *)
Theorem final_buffer_holds_latest_samples (A : arith) (w : World A) (nd n : Z) :
  let r := TestGrpcClient w nd n in
  let m := completed w nd n in
  length (times_taken (final r)) = Z.to_nat (Z.min m log_iters) /\
  (length (times_taken (final r)) <= 3000)%nat /\
  (forall j, 0 <= j < Z.min m log_iters ->
     exists t,
       0 <= t /\ m - log_iters <= t < m /\ t mod log_iters = j /\
       times_taken (final r) !! Z.to_nat j = Some (sample w t)) /\
  global (final r) = List.last (global_reports (trace r)) initial_global.
Proof.
  assert (0 < log_iters) as HN by (unfold log_iters; lia).
  cbv zeta.
  assert (buffer_inv log_iters (sample w) (completed w nd n)
            (times_taken (final (TestGrpcClient w nd n)))) as [Hlen Hslots].
  { unfold TestGrpcClient, TestGrpcClient_with, completed.
    destruct (metadata_file w) as [bytes|]; [|apply buffer_inv_start].
    destruct (ParseFromString w bytes) as [md|]; [|apply buffer_inv_start].
    destruct (InitRobotClient_ok w md); [|apply buffer_inv_start].
    destruct (shared_memory w) as [seg|]; [|apply buffer_inv_start].
    cbn [final].
    apply (loop_final_buffer log_iters w seg nd (Z.to_nat n) 0 initial_state HN);
      [lia|apply buffer_inv_start]. }
  split; [exact Hlen|]. split; [rewrite Hlen; unfold log_iters; lia|].
  split.
  - intros j Hj.
    destruct (latest_round_of_slot log_iters (completed w nd n) j HN Hj)
      as (H0 & Hr & Hmod).
    eexists. split; [exact H0|]. split; [exact Hr|]. split; [exact Hmod|].
    apply Hslots, Hj.
  - destruct (run_structure log_iters w nd n HN) as (m' & _ & _ & _ & _ & Hg & _).
    exact Hg.
Qed.

Lemma final_buffer_witness :
  0 <= 2 < Z.min (completed (A:=binary32) (spike_world 2) 7 5) log_iters /\
  times_taken (final (TestGrpcClient (A:=binary32) (spike_world 2) 7 5)) !! 2%nat
    = Some (f32_ms_of_ns 1500000).
Proof.
  assert (0 <= 2 < Z.min (completed (A:=binary32) (spike_world 2) 7 5) log_iters) as H
    by (vm_compute; split; [discriminate|reflexivity]).
  split; [exact H|].
  destruct (proj1 (proj2 (proj2
              (final_buffer_holds_latest_samples binary32 (spike_world 2) 7 5))) 2 H)
    as (t & H0 & Hr & Hmod & Hslot).
  refine (eq_trans Hslot _). f_equal.
  assert (t = 2) as ->.
  { rewrite Z.mod_small in Hmod; [exact Hmod|].
    split; [exact H0|]. unfold log_iters. vm_compute in Hr. destruct Hr as [_ Hr].
    apply Z.lt_trans with 5; [exact Hr|reflexivity]. }
  reflexivity.
Defined.

(** * The sample of a round in [float] *)

(** ** The shape of a rounded result *)

Section RoundingShape.
Variables prec emax : Z.
Hypothesis Hprec : 0 < prec.

Lemma digits2_pos_bounds (p : positive) :
  2 ^ (Z.pos (digits2_pos p) - 1) <= Z.pos p < 2 ^ Z.pos (digits2_pos p).
Proof.
  induction p as [p IH|p IH|]; cbn [digits2_pos].
  - rewrite Pos2Z.inj_succ. change (Z.pos p~1) with (2 * Z.pos p + 1).
    replace (Z.succ (Z.pos (digits2_pos p)) - 1)
      with (Z.succ (Z.pos (digits2_pos p) - 1)) by lia.
    rewrite !Z.pow_succ_r by lia. lia.
  - rewrite Pos2Z.inj_succ. change (Z.pos p~0) with (2 * Z.pos p).
    replace (Z.succ (Z.pos (digits2_pos p)) - 1)
      with (Z.succ (Z.pos (digits2_pos p) - 1)) by lia.
    rewrite !Z.pow_succ_r by lia. lia.
  - simpl. lia.
Qed.

Lemma digits2_pos_unique (p : positive) (d : Z) :
  2 ^ (d - 1) <= Z.pos p < 2 ^ d -> Z.pos (digits2_pos p) = d.
Proof.
  intros [Hlo Hhi]. pose proof (digits2_pos_bounds p) as [Blo Bhi].
  assert (0 < d).
  { destruct (Z.lt_ge_cases 0 d) as [?|Hd]; [assumption|].
    destruct (Z.eq_dec d 0) as [->|Hne]; [simpl in Hhi; lia|].
    rewrite Z.pow_neg_r in Hhi by lia. lia. }
  destruct (Z.lt_trichotomy (Z.pos (digits2_pos p)) d) as [Hlt|[Heq|Hgt]];
    [|exact Heq|].
  - assert (2 ^ Z.pos (digits2_pos p) <= 2 ^ (d - 1))
      by (apply Z.pow_le_mono_r; lia). lia.
  - assert (2 ^ d <= 2 ^ (Z.pos (digits2_pos p) - 1))
      by (apply Z.pow_le_mono_r; lia). lia.
Qed.

Lemma shr_1_m mrs : 0 <= shr_m mrs -> shr_m (shr_1 mrs) = shr_m mrs / 2.
Proof.
  destruct mrs as [m r s]. cbn [shr_m]. intros Hm.
  destruct m as [|p|p]; [reflexivity| |lia].
  destruct p as [p|p|]; cbn [shr_1 shr_m].
  - change (Z.pos p~1) with (2 * Z.pos p + 1).
    apply (Z.div_unique _ _ _ 1); lia.
  - change (Z.pos p~0) with (2 * Z.pos p).
    apply (Z.div_unique _ _ _ 0); lia.
  - reflexivity.
Qed.

Lemma iter_shr_1_m (n : positive) : forall mrs,
  0 <= shr_m mrs ->
  shr_m (SpecFloat.iter_pos shr_1 n mrs) = shr_m mrs / 2 ^ Z.pos n.
Proof.
  induction n as [n IH|n IH|]; intros mrs Hm; cbn [SpecFloat.iter_pos].
  - rewrite IH by (apply iter_shr_1_nonneg, shr_1_nonneg, Hm).
    rewrite IH by (apply shr_1_nonneg, Hm).
    rewrite shr_1_m by exact Hm.
    rewrite !Z.div_div by lia.
    change (Z.pos n~1) with (2 * Z.pos n + 1). f_equal.
    replace (2 * Z.pos n + 1) with (1 + Z.pos n + Z.pos n) by lia.
    rewrite !Z.pow_add_r by lia. lia.
  - rewrite IH by (apply iter_shr_1_nonneg, Hm).
    rewrite IH by exact Hm.
    rewrite !Z.div_div by lia.
    change (Z.pos n~0) with (2 * Z.pos n). f_equal.
    replace (2 * Z.pos n) with (Z.pos n + Z.pos n) by lia.
    rewrite !Z.pow_add_r by lia. lia.
  - rewrite shr_1_m by exact Hm. reflexivity.
Qed.

Lemma round_nearest_even_bounds m l :
  m <= round_nearest_even m l <= m + 1.
Proof.
  unfold round_nearest_even. destruct l as [|[]]; try lia.
  destruct (Z.even m); lia.
Qed.

Lemma round_nearest_even_exact m : round_nearest_even m loc_Exact = m.
Proof. reflexivity. Qed.


Lemma shr_record_of_loc_m m l : shr_m (shr_record_of_loc m l) = m.
Proof. destruct l as [|[]]; reflexivity. Qed.

(** The first step of a rounding: the mantissa is shifted right by the
    number of digits it has too many. *)
Lemma shr_fexp_shape m e l :
  0 <= m ->
  let n := Z.max 0 (SpecFloat.fexp prec emax (Zdigits2 m + e) - e) in
  shr_m (fst (shr_fexp prec emax m e l)) = m / 2 ^ n /\
  snd (shr_fexp prec emax m e l) = e + n /\
  (n = 0 -> fst (shr_fexp prec emax m e l) = shr_record_of_loc m l).
Proof.
  intros Hm. cbv zeta. unfold shr_fexp, shr.
  destruct (SpecFloat.fexp prec emax (Zdigits2 m + e) - e) as [|k|k];
    cbn [fst snd].
  - rewrite Z.max_l by lia. rewrite shr_record_of_loc_m, Z.div_1_r.
    split; [reflexivity|]. split; [lia|reflexivity].
  - rewrite Z.max_r by lia.
    rewrite iter_shr_1_m by (rewrite shr_record_of_loc_m; exact Hm).
    rewrite shr_record_of_loc_m.
    split; [reflexivity|]. split; [reflexivity|lia].
  - rewrite Z.max_l by lia. rewrite shr_record_of_loc_m, Z.div_1_r.
    split; [reflexivity|]. split; [lia|reflexivity].
Qed.

(** What a rounding of a positive mantissa comes to, away from the
    subnormal range: the mantissa shifted right by the digits it has too
    many, or the next integer, at the exponent that goes with the shift;
    when the rounding carries into one more digit, the power of two at
    the next exponent. *)
Lemma binary_round_aux_shape s (p : positive) e l :
  SpecFloat.emin prec emax <= Z.pos (digits2_pos p) + e - prec ->
  let n := Z.max 0 (Z.pos (digits2_pos p) - prec) in
  exists M,
    Z.pos p / 2 ^ n <= M <= Z.pos p / 2 ^ n + 1 /\
    (l = loc_Exact -> n = 0 -> M = Z.pos p) /\
    0 < M <= 2 ^ prec /\
    (prec <= Z.pos (digits2_pos p) -> 2 ^ (prec - 1) <= M) /\
    binary_round_aux prec emax s (Z.pos p) e l =
      if M <? 2 ^ prec
      then (if e + n <=? emax - prec
            then S754_finite s (Z.to_pos M) (e + n) else S754_infinity s)
      else (if e + n + 1 <=? emax - prec
            then S754_finite s (Z.to_pos (2 ^ (prec - 1))) (e + n + 1)
            else S754_infinity s).
Proof.
  intros Hnorm. cbv zeta.
  pose proof (digits2_pos_bounds p) as [Dlo Dhi].
  set (D := Z.pos (digits2_pos p)) in *.
  set (n := Z.max 0 (D - prec)).
  assert (0 <= n) as Hn by (unfold n; lia).
  assert (0 < 2 ^ n) as Hpn by (apply Z.pow_pos_nonneg; lia).
  assert (0 < 2 ^ prec) as Hpp by (apply Z.pow_pos_nonneg; lia).
  destruct (shr_fexp_shape (Z.pos p) e l ltac:(lia)) as (Hm1 & He1 & Hx1).
  cbv zeta in Hm1, He1, Hx1.
  assert (SpecFloat.fexp prec emax (Zdigits2 (Z.pos p) + e) - e = D - prec) as Hf1.
  { unfold SpecFloat.fexp. cbn [Zdigits2]. fold D. lia. }
  rewrite Hf1 in Hm1, He1, Hx1. fold n in Hm1, He1, Hx1.
  unfold binary_round_aux.
  destruct (shr_fexp prec emax (Z.pos p) e l) as [mrs1 e1].
  cbn [fst snd] in Hm1, He1, Hx1. subst e1.
  set (M := round_nearest_even (shr_m mrs1) (loc_of_shr_record mrs1)).
  pose proof (round_nearest_even_bounds (shr_m mrs1) (loc_of_shr_record mrs1))
    as HM. fold M in HM. rewrite Hm1 in HM.
  assert (1 <= Z.pos p / 2 ^ n < 2 ^ prec /\
          (prec <= D -> 2 ^ (prec - 1) <= Z.pos p / 2 ^ n)) as [Hm0 Hm0'].
  { destruct (Z.le_gt_cases D prec) as [Hle|Hgt].
    - assert (n = 0) as -> by (unfold n; lia).
      rewrite Z.div_1_r. split.
      + split; [lia|].
        assert (2 ^ D <= 2 ^ prec) by (apply Z.pow_le_mono_r; lia). lia.
      + intros Hge. assert (D = prec) as E by lia. rewrite <- E. exact Dlo.
    - assert (n = D - prec) as En by (unfold n; lia).
      assert (2 ^ D = 2 ^ prec * 2 ^ n) as E1
        by (rewrite <- Z.pow_add_r by lia; f_equal; lia).
      assert (2 ^ (D - 1) = 2 ^ (prec - 1) * 2 ^ n) as E2
        by (rewrite <- Z.pow_add_r by lia; f_equal; lia).
      assert (0 < 2 ^ (prec - 1)) by (apply Z.pow_pos_nonneg; lia).
      assert (2 ^ (prec - 1) <= Z.pos p / 2 ^ n)
        by (apply Z.div_le_lower_bound; [lia|]; nia).
      split; [|auto]. split; [lia|].
      apply Z.div_lt_upper_bound; [lia|]. nia. }
  exists M. split; [exact HM|]. split.
  { intros -> En. unfold M. rewrite (Hx1 En). reflexivity. }
  split; [lia|]. split; [intros Hge; specialize (Hm0' Hge); lia|].
  assert (SpecFloat.emin prec emax <= e + n) as Hemin by (unfold n; lia).
  destruct M as [|pM|pM] eqn:EM; [lia| |lia].
  pose proof (digits2_pos_bounds pM) as [Mlo Mhi].
  destruct (shr_fexp_shape (Z.pos pM) (e + n) loc_Exact ltac:(lia))
    as (Hm2 & He2 & Hx2).
  cbv zeta in Hm2, He2, Hx2. cbn [Zdigits2] in Hm2, He2, Hx2.
  destruct (Z.ltb_spec (Z.pos pM) (2 ^ prec)) as [Hlt|Hge].
  - assert (Z.pos (digits2_pos pM) <= prec) as Hd.
    { destruct (Z.le_gt_cases (Z.pos (digits2_pos pM)) prec) as [?|Hgt];
        [assumption|].
      assert (2 ^ prec <= 2 ^ (Z.pos (digits2_pos pM) - 1))
        by (apply Z.pow_le_mono_r; lia). lia. }
    assert (Z.max 0 (SpecFloat.fexp prec emax (Z.pos (digits2_pos pM) + (e + n))
                     - (e + n)) = 0) as E0
      by (unfold SpecFloat.fexp; lia).
    rewrite E0 in Hm2, He2, Hx2.
    destruct (shr_fexp prec emax (Z.pos pM) (e + n) loc_Exact) as [mrs2 e2].
    cbn [fst snd] in Hm2, He2, Hx2. subst e2.
    rewrite Hm2, Z.div_1_r, Z.add_0_r. reflexivity.
  - assert (Z.pos pM = 2 ^ prec) as EpM by lia.
    assert (Z.pos (digits2_pos pM) = prec + 1) as Hd.
    { apply digits2_pos_unique. rewrite EpM.
      replace (prec + 1 - 1) with prec by lia.
      split; [lia|]. rewrite Z.pow_add_r by lia. lia. }
    assert (Z.max 0 (SpecFloat.fexp prec emax (Z.pos (digits2_pos pM) + (e + n))
                     - (e + n)) = 1) as E1
      by (unfold SpecFloat.fexp; lia).
    rewrite E1 in Hm2, He2, Hx2.
    destruct (shr_fexp prec emax (Z.pos pM) (e + n) loc_Exact) as [mrs2 e2].
    cbn [fst snd] in Hm2, He2, Hx2. subst e2.
    rewrite Hm2, EpM.
    assert (2 ^ prec / 2 ^ 1 = 2 ^ (prec - 1)) as ->.
    { replace prec with ((prec - 1) + 1) at 1 by lia.
      rewrite Z.pow_add_r by lia. apply Z.div_mul. lia. }
    assert (0 < 2 ^ (prec - 1)) as Hpos by (apply Z.pow_pos_nonneg; lia).
    destruct (2 ^ (prec - 1)) as [|q|q]; [lia| |lia].
    reflexivity.
Qed.

End RoundingShape.


(** * The sample as a function of the duration *)

Lemma iter_xO_spec (p k : positive) :
  Z.pos (Pos.iter xO p k) = Z.pos p * 2 ^ Z.pos k /\
  Z.pos (digits2_pos (Pos.iter xO p k)) = Z.pos (digits2_pos p) + Z.pos k.
Proof.
  induction k as [|k IH] using Pos.peano_ind.
  - cbn [Pos.iter digits2_pos]. rewrite Pos2Z.inj_succ.
    change (Z.pos p~0) with (2 * Z.pos p). change (2 ^ 1) with 2. lia.
  - rewrite Pos.iter_succ. cbn [digits2_pos]. destruct IH as [IH1 IH2].
    rewrite !Pos2Z.inj_succ, IH2.
    change (Z.pos (Pos.iter xO p k)~0) with (2 * Z.pos (Pos.iter xO p k)).
    rewrite IH1, Z.pow_succ_r by lia. lia.
Qed.

(** A mantissa with no more digits than the format has is converted
    exactly: it is shifted left until it has all its digits. *)
Lemma binary_round_exact prec emax s (p : positive) e :
  0 < prec ->
  Z.pos (digits2_pos p) <= prec ->
  SpecFloat.emin prec emax <= Z.pos (digits2_pos p) + e - prec ->
  Z.pos (digits2_pos p) + e <= emax ->
  exists m,
    binary_round prec emax s p e
      = S754_finite s m (Z.pos (digits2_pos p) + e - prec) /\
    Z.pos m = Z.pos p * 2 ^ (prec - Z.pos (digits2_pos p)) /\
    Z.pos (digits2_pos m) = prec.
Proof.
  intros Hprec Hd Hmin Hmax. unfold binary_round.
  set (D := Z.pos (digits2_pos p)) in *.
  assert (SpecFloat.fexp prec emax (D + e) = D + e - prec) as ->
    by (unfold SpecFloat.fexp; lia).
  unfold shl_align.
  assert (exists mz,
            (match D + e - prec - e with
             | Z.neg d => (Pos.iter xO p d, D + e - prec)
             | _ => (p, e)
             end) = (mz, D + e - prec) /\
            Z.pos mz = Z.pos p * 2 ^ (prec - D) /\
            Z.pos (digits2_pos mz) = prec) as (mz & -> & Hmz & Hdz).
  { destruct (D + e - prec - e) as [|d|d] eqn:E.
    - exists p. assert (D = prec) as Ed by lia.
      split; [f_equal; lia|]. split; [|exact Ed].
      rewrite Ed, Z.sub_diag. simpl. lia.
    - lia.
    - exists (Pos.iter xO p d). destruct (iter_xO_spec p d) as [H1 H2].
      split; [reflexivity|]. fold D in H2.
      split; [rewrite H1; f_equal; f_equal; lia|lia]. }
  destruct (binary_round_aux_shape prec emax Hprec s mz (D + e - prec) loc_Exact)
    as (M & _ & Hex & HM & _ & Hr); [lia|].
  cbv zeta in Hex, Hr. rewrite Hdz, Z.sub_diag in Hex, Hr.
  change (Z.max 0 0) with 0 in Hex, Hr.
  rewrite (Hex eq_refl eq_refl) in Hr.
  pose proof (digits2_pos_bounds mz) as [_ Bhi]. rewrite Hdz in Bhi.
  destruct (Z.ltb_spec (Z.pos mz) (2 ^ prec)) as [_|?]; [|lia].
  rewrite Z.add_0_r in Hr.
  destruct (Z.leb_spec (D + e - prec) (emax - prec)) as [_|?]; [|lia].
  exists mz. split; [exact Hr|]. split; [exact Hmz|exact Hdz].
Qed.

(** A mantissa with more digits than the format has is rounded as it
    is. *)
Lemma binary_round_long prec emax s (p : positive) e :
  prec < Z.pos (digits2_pos p) ->
  SpecFloat.emin prec emax <= Z.pos (digits2_pos p) + e - prec ->
  binary_round prec emax s p e = binary_round_aux prec emax s (Z.pos p) e loc_Exact.
Proof.
  intros Hd Hmin. unfold binary_round, shl_align.
  assert (SpecFloat.fexp prec emax (Z.pos (digits2_pos p) + e)
          = Z.pos (digits2_pos p) + e - prec) as ->
    by (unfold SpecFloat.fexp; lia).
  destruct (Z.pos (digits2_pos p) + e - prec - e) as [|d|d] eqn:E; try lia.
  reflexivity.
Qed.

Lemma F64_million : F64.of_Z 1000000 = S754_finite false 8589934592000000 (-33).
Proof. vm_compute. reflexivity. Qed.

Lemma F32_one : F32.of_Z 1 = S754_finite false 8388608 (-23).
Proof. vm_compute. reflexivity. Qed.

(** Widening a [float] with all its digits: exact. *)
Lemma widen_shape (s : bool) (m1 : positive) (e1 : Z) :
  Z.pos (digits2_pos m1) = 24 -> -23 <= e1 <= 104 ->
  exists mw,
    widen (S754_finite s m1 e1) = S754_finite s mw (e1 - 29) /\
    Z.pos mw = Z.pos m1 * 2 ^ 29 /\
    Z.pos (digits2_pos mw) = 53.
Proof.
  intros Hd He. unfold widen, convert.
  destruct (binary_round_exact F64.prec F64.emax s m1 e1) as (m & Hr & Hm & Hdm);
    try (unfold F64.prec, F64.emax, SpecFloat.emin; lia).
  exists m. rewrite Hr, Hd in *. unfold F64.prec in *.
  split; [f_equal; lia|]. split; [exact Hm|exact Hdm].
Qed.

(** The quotient by [1000000.0] in [double] of a widened [float]. *)
Lemma fdiv_shape (s : bool) (mw : positive) (ew : Z) :
  Z.pos (digits2_pos mw) = 53 -> -52 <= ew <= 75 ->
  2 ^ 52 <= Z.pos mw * 2 ^ 53 / 8589934592000000 < 2 ^ 54 ->
  let q := Z.pos mw * 2 ^ 53 / 8589934592000000 in
  let n := if q <? 2 ^ 53 then 0 else 1 in
  exists M,
    q / 2 ^ n <= M <= q / 2 ^ n + 1 /\
    2 ^ 52 <= M <= 2 ^ 53 /\
    F64.fdiv (S754_finite s mw ew) (F64.of_Z 1000000) =
      if M <? 2 ^ 53
      then S754_finite s (Z.to_pos M) (ew - 20 + n)
      else S754_finite s (Z.to_pos (2 ^ 52)) (ew - 20 + n + 1).
Proof.
  intros Hd He Hq. cbv zeta.
  rewrite F64_million. unfold F64.fdiv, SFdiv, SFdiv_core_binary.
  replace (xorb s false) with s by (destruct s; reflexivity).
  cbn [Zdigits2]. rewrite Hd.
  change (Z.pos (digits2_pos 8589934592000000)) with 53.
  assert (Z.min (SpecFloat.fexp F64.prec F64.emax (53 + ew - (53 + -33))) (ew - -33)
          = ew - 20) as ->
    by (unfold SpecFloat.fexp, SpecFloat.emin, F64.prec, F64.emax; lia).
  replace (ew - -33 - (ew - 20)) with 53 by lia.
  rewrite Z.shiftl_mul_pow2 by lia.
  set (a := Z.pos mw * 2 ^ 53) in *.
  assert (fst (Z.div_eucl a 8589934592000000) = a / 8589934592000000) as Eq
    by reflexivity.
  destruct (Z.div_eucl a 8589934592000000) as [q r]. cbn [fst] in Eq. subst q.
  set (q := a / 8589934592000000) in *.
  destruct q as [|pq|pq] eqn:Epq; [lia| |lia].
  assert (Z.pos (digits2_pos pq) = if Z.pos pq <? 2 ^ 53 then 53 else 54) as Hdq.
  { apply digits2_pos_unique.
    destruct (Z.ltb_spec (Z.pos pq) (2 ^ 53)); simpl; lia. }
  destruct (binary_round_aux_shape F64.prec F64.emax ltac:(unfold F64.prec; lia)
              s pq (ew - 20) (new_location 8589934592000000 r))
    as (M & HM & _ & HM2 & HM3 & Hr).
  { rewrite Hdq. unfold SpecFloat.emin, F64.prec, F64.emax.
    destruct (Z.pos pq <? 2 ^ 53); lia. }
  cbv zeta in HM, Hr. rewrite Hdq in HM, HM3, Hr. unfold F64.prec, F64.emax in *.
  assert (Z.max 0 ((if Z.pos pq <? 2 ^ 53 then 53 else 54) - 53)
          = if Z.pos pq <? 2 ^ 53 then 0 else 1) as En
    by (destruct (Z.pos pq <? 2 ^ 53); reflexivity).
  rewrite En in HM, Hr.
  exists M. split; [exact HM|]. split.
  { split; [|lia]. apply HM3. destruct (Z.pos pq <? 2 ^ 53); lia. }
  rewrite Hr.
  destruct (Z.pos pq <? 2 ^ 53); simpl (ew - 20 + _).
  - destruct (Z.leb_spec (ew - 20 + 0) (1024 - 53)) as [_|?]; [|lia].
    destruct (Z.leb_spec (ew - 20 + 0 + 1) (1024 - 53)) as [_|?]; [|lia].
    reflexivity.
  - destruct (Z.leb_spec (ew - 20 + 1) (1024 - 53)) as [_|?]; [|lia].
    destruct (Z.leb_spec (ew - 20 + 1 + 1) (1024 - 53)) as [_|?]; [|lia].
    reflexivity.
Qed.

(** Narrowing a [double] with all its digits. *)
Lemma narrow_shape (s : bool) (mz : positive) (ez : Z) :
  Z.pos (digits2_pos mz) = 53 -> -150 <= ez ->
  exists M,
    Z.pos mz / 2 ^ 29 <= M <= Z.pos mz / 2 ^ 29 + 1 /\
    2 ^ 23 <= M <= 2 ^ 24 /\
    narrow (S754_finite s mz ez) =
      if M <? 2 ^ 24
      then (if ez + 29 <=? 104
            then S754_finite s (Z.to_pos M) (ez + 29) else S754_infinity s)
      else (if ez + 30 <=? 104
            then S754_finite s (Z.to_pos (2 ^ 23)) (ez + 30)
            else S754_infinity s).
Proof.
  intros Hd He. unfold narrow, convert.
  rewrite binary_round_long
    by (rewrite Hd; unfold F32.prec, F32.emax, SpecFloat.emin; lia).
  destruct (binary_round_aux_shape F32.prec F32.emax ltac:(unfold F32.prec; lia)
              s mz ez loc_Exact)
    as (M & HM & _ & HM2 & HM3 & Hr).
  { rewrite Hd. unfold SpecFloat.emin, F32.prec, F32.emax. lia. }
  cbv zeta in HM, Hr. rewrite Hd in HM, HM3, Hr. unfold F32.prec, F32.emax in *.
  change (Z.max 0 (53 - 24)) with 29 in HM, Hr.
  exists M. split; [exact HM|]. split; [split; [apply HM3; lia|lia]|].
  rewrite Hr. replace (ez + 29 + 1) with (ez + 30) by lia. reflexivity.
Qed.

(** The conversion of an [int] of magnitude [p] to [float]. *)
Lemma of_int_shape (s : bool) (p : positive) :
  (binary_round F32.prec F32.emax s p 0 = S754_infinity s /\
   128 <= Z.pos (digits2_pos p)) \/
  exists m1 e1,
    binary_round F32.prec F32.emax s p 0 = S754_finite s m1 e1 /\
    Z.pos (digits2_pos m1) = 24 /\ -23 <= e1 <= 104 /\
    e1 <= Z.pos (digits2_pos p) - 23 /\
    (Z.pos p <= 999999 -> e1 <= -5 \/ (e1 = -4 /\ Z.pos m1 < 16000000)) /\
    (1000001 <= Z.pos p -> -3 <= e1 \/ (e1 = -4 /\ 16000016 <= Z.pos m1)).
Proof.
  pose proof (digits2_pos_bounds p) as [Dlo Dhi].
  destruct (Z.le_gt_cases (Z.pos (digits2_pos p)) 24) as [Hle|Hgt].
  - destruct (binary_round_exact F32.prec F32.emax s p 0) as (m & Hr & Hm & Hdm);
      try (unfold F32.prec, F32.emax, SpecFloat.emin; lia).
    unfold F32.prec in *. set (D := Z.pos (digits2_pos p)) in *.
    right. exists m, (D - 24). rewrite Hr.
    split; [f_equal; lia|]. split; [exact Hdm|]. split; [lia|]. split; [lia|].
    split.
    + intros Hp.
      assert (D <= 20) as HD.
      { destruct (Z.le_gt_cases D 20) as [?|HD]; [assumption|].
        assert (2 ^ 20 <= 2 ^ (D - 1)) by (apply Z.pow_le_mono_r; lia).
        change (2 ^ 20) with 1048576 in *. lia. }
      destruct (Z.eq_dec D 20) as [E|E]; [|left; lia].
      right. split; [lia|]. rewrite Hm, E. change (2 ^ (24 - 20)) with 16. lia.
    + intros Hp.
      assert (20 <= D) as HD.
      { destruct (Z.le_gt_cases 20 D) as [?|HD]; [assumption|].
        assert (2 ^ D <= 2 ^ 19) by (apply Z.pow_le_mono_r; lia).
        change (2 ^ 19) with 524288 in *. lia. }
      destruct (Z.eq_dec D 20) as [E|E]; [|left; lia].
      right. split; [lia|]. rewrite Hm, E. change (2 ^ (24 - 20)) with 16. lia.
  - rewrite binary_round_long
      by (unfold F32.prec, F32.emax, SpecFloat.emin; lia).
    destruct (binary_round_aux_shape F32.prec F32.emax ltac:(unfold F32.prec; lia)
                s p 0 loc_Exact)
      as (M & HM & _ & HM2 & HM3 & Hr).
    { unfold SpecFloat.emin, F32.prec, F32.emax. lia. }
    cbv zeta in HM, Hr. unfold F32.prec, F32.emax in *.
    set (D := Z.pos (digits2_pos p)) in *.
    rewrite Z.max_r in HM, Hr by lia. rewrite Hr.
    assert (2 ^ 24 <= Z.pos p).
    { assert (2 ^ 24 <= 2 ^ (D - 1)) by (apply Z.pow_le_mono_r; lia). lia. }
    change (2 ^ 24) with 16777216 in *.
    specialize (HM3 ltac:(lia)). change (2 ^ (24 - 1)) with 8388608 in *.
    destruct (Z.ltb_spec M 16777216) as [Hlt|Hge].
    + destruct (Z.leb_spec (0 + (D - 24)) (128 - 24)) as [Hok|?];
        [|left; split; [reflexivity|lia]].
      right. exists (Z.to_pos M), (0 + (D - 24)).
      split; [reflexivity|].
      split; [|split; [lia|split; [lia|split; [lia|left; lia]]]].
      apply digits2_pos_unique. rewrite Z2Pos.id by lia.
      change (2 ^ (24 - 1)) with 8388608. change (2 ^ 24) with 16777216. lia.
    + destruct (Z.leb_spec (0 + (D - 24) + 1) (128 - 24)) as [Hok|?];
        [|left; split; [reflexivity|lia]].
      right. exists (Z.to_pos 8388608), (0 + (D - 24) + 1).
      split; [reflexivity|]. split; [reflexivity|].
      split; [lia|split; [lia|split; [lia|left; lia]]].
Qed.

(** The quotient of the widened mantissa by the mantissa of one million
    has 53 or 54 digits. *)
Lemma quotient_bounds (m1 mw : positive) :
  Z.pos (digits2_pos m1) = 24 -> Z.pos mw = Z.pos m1 * 2 ^ 29 ->
  4722366482869645 <= Z.pos mw * 2 ^ 53 / 8589934592000000 <= 9444732965739290.
Proof.
  intros Hd Hmw.
  pose proof (digits2_pos_bounds m1) as [Dlo Dhi]. rewrite Hd in Dlo, Dhi.
  change (2 ^ (24 - 1)) with 8388608 in Dlo. change (2 ^ 24) with 16777216 in Dhi.
  change (2 ^ 29) with 536870912 in Hmw.
  change (2 ^ 53) with 9007199254740992. split.
  - apply Z.div_le_lower_bound; lia.
  - apply Z.lt_succ_r. apply Z.div_lt_upper_bound; lia.
Qed.

(** The sample of a duration whose conversion to [float] has mantissa
    [m1] and exponent [e1]: the quotient in [double] has the mantissa
    [q = m1 * 2^49 / 10^6] rounded to 53 digits, and the sample the first
    24 digits of that, rounded. *)
Lemma sample_shape (s : bool) (m1 : positive) (e1 : Z) :
  Z.pos (digits2_pos m1) = 24 -> -23 <= e1 <= 104 ->
  let q := Z.pos m1 * 2 ^ 49 / 1000000 in
  exists mz ez M',
    F64.fdiv (widen (S754_finite s m1 e1)) (F64.of_Z 1000000)
      = S754_finite s mz ez /\
    Z.pos (digits2_pos mz) = 53 /\
    4722366482869645 <= q <= 9444732965739290 /\
    ((q < 2 ^ 53 /\ q <= Z.pos mz <= q + 1 /\ Z.pos mz < 2 ^ 53 /\ ez = e1 - 49) \/
     (q = 2 ^ 53 - 1 /\ Z.pos mz = 2 ^ 52 /\ ez = e1 - 48) \/
     (2 ^ 53 <= q /\ q / 2 <= Z.pos mz <= q / 2 + 1 /\ ez = e1 - 48)) /\
    Z.pos mz / 2 ^ 29 <= M' <= Z.pos mz / 2 ^ 29 + 1 /\
    2 ^ 23 <= M' <= 2 ^ 24 /\
    narrow (S754_finite s mz ez) =
      if M' <? 2 ^ 24
      then (if ez + 29 <=? 104
            then S754_finite s (Z.to_pos M') (ez + 29) else S754_infinity s)
      else (if ez + 30 <=? 104
            then S754_finite s (Z.to_pos (2 ^ 23)) (ez + 30)
            else S754_infinity s).
Proof.
  intros Hd He. cbv zeta.
  destruct (widen_shape s m1 e1 Hd He) as (mw & -> & Hmw & Hdw).
  pose proof (quotient_bounds m1 mw Hd Hmw) as Hq.
  assert (Z.pos mw * 2 ^ 53 / 8589934592000000 = Z.pos m1 * 2 ^ 49 / 1000000) as Eq.
  { rewrite Hmw.
    replace (Z.pos m1 * 2 ^ 29 * 2 ^ 53) with (Z.pos m1 * 2 ^ 49 * 2 ^ 33)
      by (change (2 ^ 29) with 536870912; change (2 ^ 53) with 9007199254740992;
          change (2 ^ 49) with 562949953421312; change (2 ^ 33) with 8589934592;
          lia).
    change 8589934592000000 with (1000000 * 2 ^ 33).
    apply Z.div_mul_cancel_r; lia. }
  destruct (fdiv_shape s mw (e1 - 29) Hdw ltac:(lia)) as (M & HM & HMb & Hdiv).
  { change (2 ^ 52) with 4503599627370496.
    change (2 ^ 54) with 18014398509481984. lia. }
  cbv zeta in Hdiv. rewrite Eq in HM, Hdiv, Hq. rewrite Hdiv. clear Hdiv Eq.
  set (q := Z.pos m1 * 2 ^ 49 / 1000000) in *.
  change (2 ^ 52) with 4503599627370496 in *.
  change (2 ^ 53) with 9007199254740992 in *.
  set (z := if M <? 9007199254740992 then _ else _).
  assert (exists mz ez,
            z = S754_finite s mz ez /\
            Z.pos (digits2_pos mz) = 53 /\
            ((q < 9007199254740992 /\ q <= Z.pos mz <= q + 1 /\
              Z.pos mz < 9007199254740992 /\ ez = e1 - 49) \/
             (q = 9007199254740992 - 1 /\ Z.pos mz = 4503599627370496 /\
              ez = e1 - 48) \/
             (9007199254740992 <= q /\ q / 2 <= Z.pos mz <= q / 2 + 1 /\
              ez = e1 - 48)))
    as (mz & ez & -> & Hdz & Hez).
  { assert (forall a, 0 <= a -> a / 2 * 2 <= a < a / 2 * 2 + 2) as Hhalf.
    { intros a Ha. pose proof (Z.div_mod a 2 ltac:(lia)).
      pose proof (Z.mod_pos_bound a 2 ltac:(lia)). lia. }
    pose proof (Hhalf q ltac:(lia)) as Hq_half.
    unfold z. destruct (Z.ltb_spec q 9007199254740992) as [Hq0|Hq1].
    - change (2 ^ 0) with 1 in HM. rewrite Z.div_1_r in HM.
      destruct (Z.ltb_spec M 9007199254740992) as [Hlt|Hge].
      + exists (Z.to_pos M), (e1 - 29 - 20 + 0). split; [reflexivity|].
        rewrite Z2Pos.id by lia. split; [|left; lia].
        apply digits2_pos_unique. rewrite Z2Pos.id by lia.
        change (2 ^ (53 - 1)) with 4503599627370496.
        change (2 ^ 53) with 9007199254740992. lia.
      + exists (Z.to_pos 4503599627370496), (e1 - 29 - 20 + 0 + 1).
        split; [reflexivity|]. split; [reflexivity|]. right. left.
        split; [lia|]. split; [reflexivity|lia].
    - change (2 ^ 1) with 2 in HM.
      destruct (Z.ltb_spec M 9007199254740992) as [Hlt|Hge]; [|lia].
      exists (Z.to_pos M), (e1 - 29 - 20 + 1). split; [reflexivity|].
      rewrite Z2Pos.id by lia. split; [|right; right; lia].
      apply digits2_pos_unique. rewrite Z2Pos.id by lia.
      change (2 ^ (53 - 1)) with 4503599627370496.
      change (2 ^ 53) with 9007199254740992. lia. }
  destruct (narrow_shape s mz ez Hdz ltac:(lia)) as (M' & HM' & HMb' & Hr).
  exists mz, ez, M'. split; [reflexivity|]. split; [exact Hdz|].
  split; [exact Hq|]. split; [exact Hez|]. split; [exact HM'|].
  split; [exact HMb'|exact Hr].
Qed.

(** The order of two positive finite numbers. *)
Lemma SFltb_finite (m1 m2 : positive) (e1 e2 : Z) :
  SFltb (S754_finite false m1 e1) (S754_finite false m2 e2)
    = (e1 <? e2) || ((e1 =? e2) && (Z.pos m1 <? Z.pos m2)).
Proof.
  unfold SFltb, SFcompare.
  change (Pos.compare_cont Eq m1 m2) with (Pos.compare m1 m2).
  rewrite Pos2Z.inj_compare.
  destruct (Z.compare_spec e1 e2) as [E|E|E];
    destruct (Z.ltb_spec e1 e2); destruct (Z.eqb_spec e1 e2); try lia;
    reflexivity.
Qed.

Lemma F32_sentinel : F32.of_Z 99999 = S754_finite false 12799872 (-7).
Proof. reflexivity. Qed.

(** The threshold of the warning and the initial value of the global
    minimum, on the mantissa and exponent of the converted duration. *)
Lemma threshold_finite (m1 : positive) (e1 : Z) :
  Z.pos (digits2_pos m1) = 24 -> -23 <= e1 <= 104 ->
  let r := narrow (F64.fdiv (widen (S754_finite false m1 e1)) (F64.of_Z 1000000)) in
  (e1 <= -5 \/ (e1 = -4 /\ Z.pos m1 < 16000000) -> SFltb (F32.of_Z 1) r = false) /\
  (-3 <= e1 \/ (e1 = -4 /\ 16000016 <= Z.pos m1) -> SFltb (F32.of_Z 1) r = true) /\
  (e1 <= 12 -> SFltb r (F32.of_Z 99999) = true).
Proof.
  intros Hd He. cbv zeta.
  pose proof (digits2_pos_bounds m1) as [Dlo Dhi]. rewrite Hd in Dlo, Dhi.
  change (2 ^ (24 - 1)) with 8388608 in Dlo. change (2 ^ 24) with 16777216 in Dhi.
  destruct (sample_shape false m1 e1 Hd He)
    as (mz & ez & M' & -> & Hdz & Hq & Hez & HM' & HMb' & ->).
  set (q := Z.pos m1 * 2 ^ 49 / 1000000) in *.
  change (2 ^ 49) with 562949953421312 in *.
  assert (Z.pos m1 < 16000000 -> q <= 9007198691791038) as Hq1.
  { intros Hm. unfold q. apply Z.lt_succ_r. apply Z.div_lt_upper_bound; lia. }
  assert (16000016 <= Z.pos m1 -> 9007208261940246 <= q) as Hq2.
  { intros Hm. unfold q. apply Z.div_le_lower_bound; lia. }
  assert (q / 2 * 2 <= q < q / 2 * 2 + 2) as Hq_half.
  { pose proof (Z.div_mod q 2 ltac:(lia)).
    pose proof (Z.mod_pos_bound q 2 ltac:(lia)). lia. }
  change (2 ^ 52) with 4503599627370496 in *.
  change (2 ^ 53) with 9007199254740992 in *.
  change (2 ^ 29) with 536870912 in *.
  change (2 ^ 23) with 8388608 in *. change (2 ^ 24) with 16777216 in *.
  pose proof (Z.div_mod (Z.pos mz) 536870912 ltac:(lia)) as Hdm.
  pose proof (Z.mod_pos_bound (Z.pos mz) 536870912 ltac:(lia)) as Hmb.
  rewrite F32_one, F32_sentinel.
  destruct (Z.ltb_spec M' 16777216) as [Hlt|Hge];
    [destruct (Z.leb_spec (ez + 29) 104) as [Hok|Hinf]
    |destruct (Z.leb_spec (ez + 30) 104) as [Hok|Hinf]];
    try (exfalso; lia);
    (split; [|split]); intros Hcase;
    try (exfalso; lia); try reflexivity;
    rewrite SFltb_finite; rewrite ?Z2Pos.id by lia.
  all: repeat match goal with
       | |- context [?a <? ?b] => destruct (Z.ltb_spec a b)
       | |- context [?a =? ?b] => destruct (Z.eqb_spec a b)
       end; try reflexivity; exfalso; cbn in *; lia.
Qed.


(** ** Signs *)

Lemma binary_round_aux_sign prec emax s m e l :
  0 <= m -> has_sign s (binary_round_aux prec emax s m e l).
Proof.
  intros Hm. unfold binary_round_aux.
  pose proof (shr_fexp_nonneg prec emax m e l Hm) as H1.
  destruct (shr_fexp prec emax m e l) as [mrs' e']. simpl in H1.
  pose proof (shr_fexp_nonneg prec emax
                (round_nearest_even (shr_m mrs') (loc_of_shr_record mrs')) e'
                loc_Exact (round_nearest_even_nonneg _ _ H1)) as H2.
  destruct (shr_fexp prec emax _ e' loc_Exact) as [mrs'' e'']. simpl in H2.
  destruct (shr_m mrs'') as [|p|p]; [reflexivity| |lia].
  destruct (e'' <=? emax - prec); reflexivity.
Qed.

Lemma binary_round_sign prec emax s m e : has_sign s (binary_round prec emax s m e).
Proof.
  unfold binary_round. destruct (shl_align m e _) as [mz ez].
  apply binary_round_aux_sign. lia.
Qed.

Lemma convert_sign prec emax s x : has_sign s x -> has_sign s (convert prec emax x).
Proof.
  destruct x as [s'|s'| |s' m e]; simpl; intros H; try exact H.
  subst s'. apply binary_round_sign.
Qed.

Lemma SFdiv_sign prec emax s x m e :
  has_sign s x -> has_sign s (SFdiv prec emax x (S754_finite false m e)).
Proof.
  destruct x as [s'|s'| |s' mx ex]; simpl; intros H; try contradiction;
    subst s'; try (destruct s; reflexivity).
  unfold SFdiv_core_binary.
  set (m' := match _ with Z0 => _ | Zpos _ => _ | Zneg _ => _ end).
  assert (0 <= m') as Hm'.
  { subst m'. destruct (_ - _ - _) as [|p|p]; try lia.
    apply Z.shiftl_nonneg. lia. }
  pose proof (Z.div_pos m' (Z.pos m) Hm' (Pos2Z.is_pos m)) as Hq.
  unfold Z.div in Hq.
  destruct (Z.div_eucl m' (Z.pos m)) as [q r].
  replace (xorb s false) with s by (destruct s; reflexivity).
  apply binary_round_aux_sign, Hq.
Qed.

(** The sample keeps the sign of the duration. *)
Lemma f32_ms_of_ns_sign (count : Z) :
  has_sign (count <? 0) (f32_ms_of_ns count).
Proof.
  unfold f32_ms_of_ns, narrow, widen. rewrite F64_million.
  apply convert_sign, SFdiv_sign, convert_sign.
  unfold F32.of_Z, binary_normalize.
  destruct count as [|p|p]; [reflexivity| |]; apply binary_round_sign.
Qed.

(** The sample is above [1.0] exactly when the duration is above one
    million nanoseconds. *)
Lemma f32_ms_of_ns_threshold (count : Z) :
  SFltb (F32.of_Z 1) (f32_ms_of_ns count) = (1000000 <? count).
Proof.
  destruct (Z.lt_trichotomy count 0) as [Hneg|[->|Hpos]].
  - pose proof (f32_ms_of_ns_sign count) as Hs.
    destruct (Z.ltb_spec count 0); [|lia].
    destruct (Z.ltb_spec 1000000 count); [lia|].
    rewrite F32_one.
    destruct (f32_ms_of_ns count) as [s|s| |s m e]; simpl in Hs;
      try contradiction; subst s; reflexivity.
  - vm_compute. reflexivity.
  - destruct count as [|p|p]; try lia.
    destruct (Z.eq_dec (Z.pos p) 1000000) as [E|E].
    { injection E as ->. vm_compute. reflexivity. }
    unfold f32_ms_of_ns, F32.of_Z, binary_normalize.
    destruct (of_int_shape false p)
      as [[-> Hbig]|(m1 & e1 & -> & Hd & He & _ & Hlow & Hhigh)].
    { destruct (Z.ltb_spec 1000000 (Z.pos p)) as [_|Hle]; [vm_compute; reflexivity|].
      exfalso. pose proof (digits2_pos_bounds p) as [Dlo _].
      assert (2 ^ 127 <= 2 ^ (Z.pos (digits2_pos p) - 1))
        by (apply Z.pow_le_mono_r; lia).
      change (2 ^ 127) with 170141183460469231731687303715884105728 in *. lia. }
    destruct (threshold_finite m1 e1 Hd He) as (Hfalse & Htrue & _).
    destruct (Z.ltb_spec 1000000 (Z.pos p)) as [Hgt|Hle].
    + apply Htrue, Hhigh. lia.
    + apply Hfalse, Hlow. lia.
Qed.

(** The sample of a duration that fits an [int64_t] is a finite number
    with the sign of the duration. *)
Lemma f32_ms_of_ns_finite (count : Z) :
  - 2 ^ 63 <= count < 2 ^ 63 ->
  (count = 0 /\ f32_ms_of_ns count = S754_zero false) \/
  (count <> 0 /\ exists m e, f32_ms_of_ns count = S754_finite (count <? 0) m e).
Proof.
  intros Hc. destruct (Z.eq_dec count 0) as [->|Hne];
    [left; split; [reflexivity|vm_compute; reflexivity]|].
  right. split; [exact Hne|].
  assert (exists p, f32_ms_of_ns count
            = narrow (F64.fdiv (widen (binary_round F32.prec F32.emax (count <? 0) p 0))
                        (F64.of_Z 1000000)) /\
          Z.pos p <= 2 ^ 63) as (p & -> & Hp).
  { destruct count as [|p|p]; [contradiction| |]; exists p;
      (split; [reflexivity|lia]). }
  change (2 ^ 63) with 9223372036854775808 in Hp.
  pose proof (digits2_pos_bounds p) as [Dlo _].
  assert (Z.pos (digits2_pos p) <= 64) as HD.
  { destruct (Z.le_gt_cases (Z.pos (digits2_pos p)) 64) as [?|Hgt]; [assumption|].
    assert (2 ^ 64 <= 2 ^ (Z.pos (digits2_pos p) - 1))
      by (apply Z.pow_le_mono_r; lia).
    change (2 ^ 64) with 18446744073709551616 in *. lia. }
  destruct (of_int_shape (count <? 0) p)
    as [[_ Hbig]|(m1 & e1 & -> & Hd & He & Hmag & _)]; [lia|].
  destruct (sample_shape (count <? 0) m1 e1 Hd He)
    as (mz & ez & M' & -> & Hdz & _ & Hez & _ & HM' & ->).
  change (2 ^ 23) with 8388608 in *. change (2 ^ 24) with 16777216 in *.
  destruct (Z.ltb_spec M' 16777216).
  - destruct (Z.leb_spec (ez + 29) 104); [eauto|lia].
  - destruct (Z.leb_spec (ez + 30) 104); [eauto|lia].
Qed.

(** The sample of a round that takes less than [2^35] nanoseconds, some
    34 seconds, is below the initial value of the global minimum. *)
Lemma f32_ms_of_ns_below_sentinel (count : Z) :
  0 <= count < 2 ^ 35 -> SFltb (f32_ms_of_ns count) (F32.of_Z 99999) = true.
Proof.
  intros Hc. destruct count as [|p|p]; [vm_compute; reflexivity| |lia].
  change (2 ^ 35) with 34359738368 in Hc.
  pose proof (digits2_pos_bounds p) as [Dlo _].
  assert (Z.pos (digits2_pos p) <= 35) as HD.
  { destruct (Z.le_gt_cases (Z.pos (digits2_pos p)) 35) as [?|Hgt]; [assumption|].
    assert (2 ^ 35 <= 2 ^ (Z.pos (digits2_pos p) - 1))
      by (apply Z.pow_le_mono_r; lia).
    change (2 ^ 35) with 34359738368 in *. lia. }
  unfold f32_ms_of_ns, F32.of_Z, binary_normalize.
  destruct (of_int_shape false p)
    as [[_ Hbig]|(m1 & e1 & -> & Hd & He & Hmag & _)]; [lia|].
  apply (threshold_finite m1 e1 Hd He). lia.
Qed.

(** ** The threshold of the warning and the range of the samples *)

Lemma healthy_trace_warnings {A : arith} N (smp : Z -> A) rounds : forall i g,
  warnings (healthy_trace N smp rounds i g)
    = List.filter (fun x => gtb x (of_int 1)) (map smp (seqZ i (Z.of_nat rounds))).
Proof.
  induction rounds as [|rounds IH]; intros i g; cbn [healthy_trace]; [reflexivity|].
  rewrite warnings_app, round_warnings, IH.
  rewrite (seqZ_cons i) by lia.
  replace (Z.pred (Z.of_nat (S rounds))) with (Z.of_nat rounds) by lia.
  replace (Z.succ i) with (i + 1) by lia.
  cbn [map List.filter]. destruct (gtb (smp i) (of_int 1)); reflexivity.
Qed.

Lemma filter_map_comm {T U} (f : U -> bool) (g : T -> U) (l : list T) :
  List.filter f (map g l) = map g (List.filter (fun x => f (g x)) l).
Proof.
  induction l as [|x l IH]; [reflexivity|]. cbn [map List.filter].
  destruct (f (g x)); cbn [map]; rewrite IH; reflexivity.
Qed.

(** X17: a warning line is written for a round exactly when the clock
    measured more than 1,000,000 nanoseconds for it.  The conversion of
    the count to [float], the division by [1000000.0] in [double] and the
    narrowing to [float] do not blur the threshold: the comparison
    [ms_taken > 1.0] holds for a count of nanoseconds if and only if the
    count is above 1,000,000, and the warnings of a run are the samples of
    the completed rounds with such a count, in order. *)
Theorem warning_iff_over_one_millisecond (w : World spec_float) (nd n : Z) :
  (forall count,
     gtb (A:=binary32) (f32_ms_of_ns count) (F32.of_Z 1) = (1000000 <? count)) /\
  warnings (trace (TestGrpcClient (A:=binary32) w nd n))
    = map (sample (A:=binary32) w)
        (List.filter (fun i => 1000000 <? elapsed_ns w i)
           (seqZ 0 (completed (A:=binary32) w nd n))).
Proof.
  split; [intros count; apply f32_ms_of_ns_threshold|].
  destruct (run_trace (A:=binary32) log_iters w nd n ltac:(unfold log_iters; lia))
    as (Hm & _ & tail & Ht & Htail).
  fold (TestGrpcClient (A:=binary32) w nd n) in *.
  destruct (startup_requests_readings (A:=binary32) w) as (_ & _ & Hw & _).
  assert (warnings tail = []) as Hwt
    by (destruct Htail as [[-> _]|(-> & _)]; reflexivity).
  rewrite Ht, !warnings_app, Hw, Hwt, app_nil_r. cbn [app].
  rewrite healthy_trace_warnings, Z2Nat.id by lia.
  rewrite filter_map_comm. f_equal.
  apply List.filter_ext. intros i. unfold sample. cbn [ms_of_ns binary32].
  apply f32_ms_of_ns_threshold.
Qed.

Lemma nonnegative_sample (count : Z) :
  0 <= count ->
  SFleb (F32.of_Z 0) (f32_ms_of_ns count) = true /\
  SFltb (F32.of_Z (-99999)) (f32_ms_of_ns count) = true.
Proof.
  intros Hc. pose proof (f32_ms_of_ns_sign count) as Hs.
  destruct (Z.ltb_spec count 0); [lia|].
  destruct (f32_ms_of_ns count) as [s|s| |s m e]; simpl in Hs;
    try contradiction; subst s; split; reflexivity.
Qed.

(** X18: when every round takes less than [2^35] nanoseconds (some 34
    seconds) and the clock does not go backwards, the initial values
    [-99999.0] and [99999.0] never show in a global line: its maximum is
    the maximum of a window reported so far and its minimum the minimum
    of one, the minimum is at least [0] and the maximum below [99999]. *)
Theorem realistic_rounds_hide_initial_extremes (w : World spec_float) (nd n : Z) :
  (forall i, 0 <= elapsed_ns w i < 2 ^ 35) ->
  let tr := trace (TestGrpcClient (A:=binary32) w nd n) in
  forall k g,
    global_reports tr !! k = Some g ->
    (exists j s, (j <= k)%nat /\ window_reports tr !! j = Some s /\
                 max_time g = max_time s) /\
    (exists j s, (j <= k)%nat /\ window_reports tr !! j = Some s /\
                 min_time g = min_time s) /\
    SFleb (F32.of_Z 0) (min_time g) = true /\
    SFltb (max_time g) (F32.of_Z 99999) = true.
Proof.
  intros Hns. cbv zeta. intros k g Hk.
  assert (0 < log_iters) as HN by (unfold log_iters; lia).
  assert (forall i, SFleb (F32.of_Z 0) (sample (A:=binary32) w i) = true /\
                    SFltb (F32.of_Z (-99999)) (sample (A:=binary32) w i) = true /\
                    SFltb (sample (A:=binary32) w i) (F32.of_Z 99999) = true)
    as Hsmp.
  { intros i. unfold sample. cbn [ms_of_ns binary32].
    destruct (nonnegative_sample (elapsed_ns w i) ltac:(apply Hns)) as [H0 H1].
    split; [exact H0|]. split; [exact H1|].
    apply f32_ms_of_ns_below_sentinel, Hns. }
  destruct (run_structure (A:=binary32) log_iters w nd n HN) as (m & _ & Hw & Hg & _).
  fold (TestGrpcClient (A:=binary32) w nd n) in *.
  assert (forall s0, window_reports (trace (TestGrpcClient (A:=binary32) w nd n)) !! 0%nat
                       = Some s0 ->
            gtb (A:=binary32) (max_time s0) (max_time (initial_global (A:=binary32))) = true /\
            ltb (a:=binary32) (min_time s0) (min_time (initial_global (A:=binary32))) = true)
    as Hfirst.
  { intros s0 Hs0. rewrite Hw in Hs0. rewrite list_lookup_fmap in Hs0.
    destruct (closure_rounds log_iters m !! 0%nat) as [i|]; [|discriminate].
    injection Hs0 as <-.
    destruct (window_summary_attained (A:=binary32) log_iters (sample (A:=binary32) w) i HN)
      as [(t1 & _ & E1) (t2 & _ & E2)].
    rewrite E1, E2. unfold gtb, initial_global. cbn [max_time min_time].
    split; apply Hsmp. }
  rewrite Hg in Hk.
  destruct (combine_all_attained (A:=binary32) _ 1 initial_global k g Hfirst Hk)
    as [(j1 & s1 & Hj1 & Hs1 & E1) (j2 & s2 & Hj2 & Hs2 & E2)].
  assert (forall j s, window_reports (trace (TestGrpcClient (A:=binary32) w nd n)) !! j
                        = Some s ->
            (exists t, max_time s = sample (A:=binary32) w t) /\
            (exists t, min_time s = sample (A:=binary32) w t)) as Hwin.
  { intros j s Hs. rewrite Hw in Hs. rewrite list_lookup_fmap in Hs.
    destruct (closure_rounds log_iters m !! j) as [i|]; [|discriminate].
    injection Hs as <-.
    destruct (window_summary_attained (A:=binary32) log_iters (sample (A:=binary32) w) i HN)
      as [(t1 & _ & Et1) (t2 & _ & Et2)].
    split; eauto. }
  split; [eauto|]. split; [eauto|].
  destruct (Hwin j1 s1 Hs1) as [(t1 & Et1) _].
  destruct (Hwin j2 s2 Hs2) as [_ (t2 & Et2)].
  cbn [num binary32] in *. rewrite E1, E2, Et1, Et2. split; apply Hsmp.
Qed.

Lemma realistic_rounds_witness :
  (forall i, 0 <= elapsed_ns steady_world i < 2 ^ 35) /\
  forall k g,
    global_reports (trace (TestGrpcClient (A:=binary32) steady_world 7 6001)) !! k = Some g ->
    SFleb (F32.of_Z 0) (min_time g) = true /\
    SFltb (max_time g) (F32.of_Z 99999) = true.
Proof.
  assert (forall i, 0 <= elapsed_ns steady_world i < 2 ^ 35) as H
    by (intros i; simpl; lia).
  split; [exact H|].
  intros k g Hk.
  exact (proj2 (proj2 (realistic_rounds_hide_initial_extremes steady_world 7 6001 H k g Hk))).
Defined.

(** X19: the computation of [ms_taken] does not overflow: for every
    count of nanoseconds that fits an [int64_t] the sample is a finite
    number, never an infinity or a NaN, zero exactly when the count is
    zero, and of the sign of the count otherwise. *)
Theorem sample_is_finite (w : World spec_float) (i : Z) :
  - 2 ^ 63 <= elapsed_ns w i < 2 ^ 63 ->
  match sample (A:=binary32) w i with
  | S754_zero s => s = false /\ elapsed_ns w i = 0
  | S754_finite s _ _ => s = (elapsed_ns w i <? 0) /\ elapsed_ns w i <> 0
  | _ => False
  end.
Proof.
  intros Hc.
  change (sample (A:=binary32) w i) with (f32_ms_of_ns (elapsed_ns w i)).
  destruct (f32_ms_of_ns_finite (elapsed_ns w i) Hc) as [[E ->]|[E (m & e & ->)]];
    split; auto.
Qed.

Lemma sample_is_finite_witness :
  - 2 ^ 63 <= elapsed_ns (spike_world 10) 10 < 2 ^ 63 /\
  match sample (A:=binary32) (spike_world 10) 10 with
  | S754_zero s => s = false /\ elapsed_ns (spike_world 10) 10 = 0
  | S754_finite s _ _ =>
      s = (elapsed_ns (spike_world 10) 10 <? 0) /\ elapsed_ns (spike_world 10) 10 <> 0
  | _ => False
  end.
Proof.
  assert (- 2 ^ 63 <= elapsed_ns (spike_world 10) 10 < 2 ^ 63) as H
    by (simpl; lia).
  split; [exact H|exact (sample_is_finite (spike_world 10) 10 H)].
Defined.

(** * The statistics of a window, report by report *)

(** The [k]-th closure is round [(k + 1) * N]. *)
Lemma closure_rounds_lookup (N m : Z) (k : nat) (i : Z) :
  closure_rounds N m !! k = Some i -> i = (Z.of_nat k + 1) * N.
Proof.
  unfold closure_rounds. rewrite list_lookup_fmap. intros H.
  destruct (seqZ 1 ((m - 1) / N) !! k) as [j|] eqn:E; [|discriminate].
  apply lookup_seqZ in E as [-> _]. injection H as <-. lia.
Qed.

(** Halving an even mantissa of 25 digits is exact. *)
Lemma binary_round_aux_double (s : bool) (m : positive) (e : Z) :
  Z.pos (digits2_pos m) = 24 -> -149 <= e <= 104 ->
  binary_round_aux F32.prec F32.emax s (Z.pos m~0) (e - 1) loc_Exact
    = S754_finite s m e.
Proof.
  intros Hd He. unfold binary_round_aux, shr_fexp.
  cbn [Zdigits2 digits2_pos]. rewrite Pos2Z.inj_succ, Hd.
  assert (SpecFloat.fexp F32.prec F32.emax (Z.succ 24 + (e - 1)) - (e - 1) = 1) as ->
    by (unfold SpecFloat.fexp, SpecFloat.emin, F32.prec, F32.emax; lia).
  cbn [shr shr_record_of_loc SpecFloat.iter_pos shr_1 loc_of_shr_record round_nearest_even
       shr_m shr_r shr_s orb Zdigits2].
  rewrite Hd.
  assert (SpecFloat.fexp F32.prec F32.emax (24 + (e - 1 + 1)) - (e - 1 + 1) = 0) as ->
    by (unfold SpecFloat.fexp, SpecFloat.emin, F32.prec, F32.emax; lia).
  cbn [shr shr_record_of_loc shr_m].
  unfold F32.prec, F32.emax.
  destruct (Z.leb_spec (e - 1 + 1) (128 - 24)); [|lia].
  f_equal. lia.
Qed.

(** Dividing a [float] with all its digits by [1.0f] gives it back. *)
Lemma fdiv_one (s : bool) (m : positive) (e : Z) :
  Z.pos (digits2_pos m) = 24 -> -148 <= e <= 104 ->
  F32.fdiv (S754_finite s m e) (F32.of_Z 1) = S754_finite s m e.
Proof.
  intros Hd He. rewrite F32_one. unfold F32.fdiv, SFdiv, SFdiv_core_binary.
  replace (xorb s false) with s by (destruct s; reflexivity).
  cbn [Zdigits2]. rewrite Hd.
  change (Z.pos (digits2_pos 8388608)) with 24.
  assert (Z.min (SpecFloat.fexp F32.prec F32.emax (24 + e - (24 + -23))) (e - -23)
          = e - 1) as ->
    by (unfold SpecFloat.fexp, SpecFloat.emin, F32.prec, F32.emax; lia).
  replace (e - -23 - (e - 1)) with 24 by lia.
  rewrite Z.shiftl_mul_pow2 by lia.
  assert (Z.div_eucl (Z.pos m * 2 ^ 24) 8388608 = (Z.pos m~0, 0)) as ->.
  { pose proof (Z.div_eucl_eq (Z.pos m * 2 ^ 24) 8388608 ltac:(lia)) as Heq.
    pose proof (Z.mod_pos_bound (Z.pos m * 2 ^ 24) 8388608 ltac:(lia)) as Hb.
    unfold Z.modulo in Hb.
    destruct (Z.div_eucl (Z.pos m * 2 ^ 24) 8388608) as [q r].
    change (2 ^ 24) with 16777216 in Heq.
    change (Z.pos m~0) with (2 * Z.pos m).
    f_equal; lia. }
  change (new_location 8388608 0) with loc_Exact.
  apply binary_round_aux_double; [exact Hd|lia].
Qed.

(** A sample is [+0], an infinity, or a finite number with all its 24
    digits. *)
Lemma f32_ms_of_ns_class (count : Z) :
  f32_ms_of_ns count = S754_zero false \/
  (exists s, f32_ms_of_ns count = S754_infinity s) \/
  (exists s m e, f32_ms_of_ns count = S754_finite s m e /\
                 Z.pos (digits2_pos m) = 24 /\ -148 <= e <= 104).
Proof.
  assert (forall s p,
            let r := narrow (F64.fdiv (widen (binary_round F32.prec F32.emax s p 0))
                               (F64.of_Z 1000000)) in
            (exists s', r = S754_infinity s') \/
            (exists s' m e, r = S754_finite s' m e /\
                            Z.pos (digits2_pos m) = 24 /\ -148 <= e <= 104)) as H.
  { intros s p. cbv zeta.
    destruct (of_int_shape s p) as [[-> _]|(m1 & e1 & -> & Hd & He & _)].
    { left. exists s. destruct s; reflexivity. }
    destruct (sample_shape s m1 e1 Hd He)
      as (mz & ez & M' & -> & _ & _ & Hez & _ & HM' & ->).
    change (2 ^ 23) with 8388608 in *. change (2 ^ 24) with 16777216 in *.
    destruct (Z.ltb_spec M' 16777216).
    - destruct (Z.leb_spec (ez + 29) 104); [right|left; eauto].
      exists s, (Z.to_pos M'), (ez + 29). split; [reflexivity|]. split; [|lia].
      apply digits2_pos_unique. rewrite Z2Pos.id by lia.
      change (2 ^ (24 - 1)) with 8388608. change (2 ^ 24) with 16777216. lia.
    - destruct (Z.leb_spec (ez + 30) 104); [right|left; eauto].
      exists s, (Z.to_pos 8388608), (ez + 30). split; [reflexivity|].
      split; [reflexivity|lia]. }
  destruct count as [|p|p].
  - left. vm_compute. reflexivity.
  - right. apply (H false p).
  - right. apply (H true p).
Qed.

(** The mean of a window of one sample, as the code computes it in single
    precision, is the sample: [0.0f + x] is [x], and [x / 1.0f] is [x]. *)
Lemma single_sample_mean (count : Z) :
  F32.fdiv (F32.fadd (F32.of_Z 0) (f32_ms_of_ns count)) (F32.of_Z 1)
    = f32_ms_of_ns count.
Proof.
  destruct (f32_ms_of_ns_class count)
    as [->|[(s & ->)|(s & m & e & -> & Hd & He)]].
  - reflexivity.
  - destruct s; reflexivity.
  - change (F32.fadd (F32.of_Z 0) (S754_finite s m e)) with (S754_finite s m e).
    apply fdiv_one; assumption.
Qed.

(** C7, amended: every window report is that of its own window. The
    [k]-th report of a run, counted from 0, is made in round
    [i = (k + 1) * N] over the samples of rounds [i - N + 1] to [i]: its
    maximum and its minimum are the largest and the smallest of these
    samples, so the minimum is at most the maximum, and its mean is the
    sum of these samples, accumulated in single precision from [0.0f] in
    the order of the slots, divided by [N] in single precision. For a
    window of a single sample the maximum, the minimum and the mean are
    the same [float]. For longer windows the single-precision mean may
    leave the interval of the extremes, as the run of 3001 rounds of
    0.1 ms shows; computed exactly the mean lies between them, and for a
    window of a single sample all three coincide. *)
Theorem C7_window_extremes (N : Z) :
  0 < N ->
  (forall (w : World spec_float) (nd n : Z) (k : nat) (s : stats spec_float),
     window_reports (trace (TestGrpcClient_with (A:=binary32) N w nd n)) !! k = Some s ->
     let window :=
       window_samples (A:=binary32) N (sample (A:=binary32) w) ((Z.of_nat k + 1) * N) in
     max_time s ∈ window /\ min_time s ∈ window /\
     Forall (fun y => SFleb (min_time s) y = true /\ SFleb y (max_time s) = true) window /\
     SFleb (min_time s) (max_time s) = true /\
     avg_time s = F32.fdiv (foldl F32.fadd (F32.of_Z 0) window) (F32.of_Z N)) /\
  (forall (w : World spec_float) (nd n : Z),
     Forall (fun s => max_time s = avg_time s /\ min_time s = avg_time s)
       (window_reports (trace (TestGrpcClient_with (A:=binary32) 1 w nd n)))) /\
  (forall (w : World Q) (nd n : Z),
     Forall (fun s => min_time s <= avg_time s /\ avg_time s <= max_time s)%Q
       (window_reports (trace (TestGrpcClient_with (A:=exact) N w nd n)))) /\
  (forall (w : World Q) (nd n : Z),
     Forall (fun s => max_time s == avg_time s /\ min_time s == avg_time s)%Q
       (window_reports (trace (TestGrpcClient_with (A:=exact) 1 w nd n)))).
Proof.
  intros HN. split; [|split; [|split]].
  - intros w nd n k s Hk. cbv zeta.
    destruct (run_structure (A:=binary32) N w nd n HN) as (m & _ & Hw & _).
    rewrite Hw, list_lookup_fmap in Hk.
    destruct (closure_rounds N m !! k) as [i|] eqn:Ei; [|discriminate].
    apply closure_rounds_lookup in Ei as <-. injection Hk as <-.
    destruct (window_summary_extremes binary32_ordered N (sample (A:=binary32) w) i
                (fun k => f32_ms_of_ns_not_nan _))
      as (_ & Hmax_in & Hmin_in & Hmax & Hmin & Hle).
    split; [assumption|]. split; [assumption|]. split; [|split; [assumption|reflexivity]].
    rewrite Forall_forall in *. intros y Hy. split; [apply Hmin|apply Hmax]; exact Hy.
  - intros w nd n.
    destruct (run_structure (A:=binary32) 1 w nd n ltac:(lia)) as (m & _ & Hw & _).
    rewrite Hw. apply Forall_forall. intros s Hs.
    apply list_elem_of_fmap in Hs as (i & -> & _).
    unfold window_summary. rewrite seqZ_nil by lia.
    cbn [map max_from min_from foldl max_time min_time avg_time].
    unfold sample. cbn [add div of_int ms_of_ns binary32].
    rewrite single_sample_mean. split; reflexivity.
  - intros w nd n.
    destruct (run_structure (A:=exact) N w nd n HN) as (m & _ & Hw & _).
    rewrite Hw. apply Forall_forall. intros s Hs.
    apply list_elem_of_fmap in Hs as (i & -> & _).
    apply exact_window_mean_between, HN.
  - intros w nd n.
    destruct (run_structure (A:=exact) 1 w nd n ltac:(lia)) as (m & _ & Hw & _).
    rewrite Hw. apply Forall_forall. intros s Hs.
    apply list_elem_of_fmap in Hs as (i & -> & _).
    unfold window_summary. rewrite seqZ_nil by lia. simpl.
    split; field.
Qed.

Lemma C7_window_extremes_witness :
  0 < log_iters /\
  forall s,
    window_reports (trace (TestGrpcClient (A:=binary32) steady_world 7 3001)) !! 0%nat
      = Some s ->
    SFleb (min_time s) (max_time s) = true /\
    avg_time s
      = F32.fdiv
          (foldl F32.fadd (F32.of_Z 0)
             (window_samples (A:=binary32) log_iters
                (sample (A:=binary32) steady_world) log_iters))
          (F32.of_Z log_iters).
Proof.
  assert (0 < log_iters) as H by (unfold log_iters; lia).
  split; [exact H|].
  intros s Hs.
  exact (proj2 (proj2 (proj2
           (proj1 (C7_window_extremes log_iters H) steady_world 7 3001 0%nat s Hs)))).
Defined.
